(** * The NCR Atleos / Aptra batch automation backend

    A shallow embedding of [src/backend/server.js].  The file holds two
    servers: the Puppeteer-driven one (module [Atleos], lines 1-516) and
    the simulated one (module [Simulated], lines 517-711).

    JavaScript runs one task at a time and lets another task in only at an
    [await]; both servers are therefore modelled as a state and a list of
    suspended background tasks.  An HTTP request runs its handler to the
    end; resuming a task runs it to its next suspension.  The browser is an
    oracle [world] that answers every driver call, given the calls made so
    far. *)

From Stdlib Require Import ZArith String Ascii List Lia Bool DecimalString Sorted.
From Stdlib Require PrimFloat SpecFloat FloatOps Uint63.
From stdpp Require Import base list strings gmap.

(** ** JavaScript values met in a sheet or a request body *)

Inductive cell :=
| Str (s : string)
| Num (z : Z)
| Boolean (b : bool).

(** Numbers are integers here; only their truthiness and their decimal
    text are used. *)
Definition truthy (c : cell) : bool :=
  match c with
  | Str s => negb (String.eqb s "")
  | Num z => negb (Z.eqb z 0)
  | Boolean b => b
  end.

(** [a || b], where [a] is a property read that may be [undefined]. *)
Definition or_else (a : option cell) (b : cell) : cell :=
  match a with
  | Some v => if truthy v then v else b
  | None => b
  end.

(** The text a template literal gives a value. *)
Definition text_of (c : cell) : string :=
  match c with
  | Str s => s
  | Num z => NilZero.string_of_int (Z.to_int z)
  | Boolean true => "true"
  | Boolean false => "false"
  end.

Definition decimal (n : nat) : string := NilZero.string_of_uint (Nat.to_uint n).

Definition dquote : string := String (ascii_of_nat 34) EmptyString.
Definition quoted (s : string) : string := dquote +:+ s +:+ dquote.

(** [toLowerCase] on the ASCII letters. *)
Definition lower (c : ascii) : ascii :=
  let n := nat_of_ascii c in
  if (65 <=? n) && (n <=? 90) then ascii_of_nat (n + 32) else c.

Fixpoint toLowerCase (s : string) : string :=
  match s with
  | EmptyString => EmptyString
  | String c r => String (lower c) (toLowerCase r)
  end.

(** [s.replace(' ', '')]: only the first space goes. *)
Fixpoint dropFirstSpace (s : string) : string :=
  match s with
  | EmptyString => EmptyString
  | String c r => if Ascii.eqb c " " then r else String c (dropFirstSpace r)
  end.

Definition whitespace (c : ascii) : bool :=
  let n := nat_of_ascii c in
  (n =? 32) || ((9 <=? n) && (n <=? 13)).

(** [s.trim() !== ''] on ASCII white space: some character is not blank. *)
Fixpoint nonblank (s : string) : bool :=
  match s with
  | EmptyString => false
  | String c r => negb (whitespace c) || nonblank r
  end.

(** ** Log entries *)

(** [timestamp] is the clock reading of the atomic step that wrote the
    entry (the source stores its ISO text). *)
Record log_entry := { timestamp : nat; message : string; type : string }.

Definition entry (now : nat) (msg ty : string) : log_entry :=
  {| timestamp := now; message := msg; type := ty |}.

(** [a.slice(-n)]: the last [n] elements, in order. *)
Definition lastN {A} (n : nat) (l : list A) : list A := drop (length l - n) l.

(** * The Puppeteer server (lines 1-516) *)

Module Atleos.

(** ** Data *)

(** A record object of the batch.  [status] is a JavaScript string;
    [error] is absent until a failure writes it. *)
Record record := {
  id : nat;
  tipo : cell;
  idNCR : cell;
  startDate : cell;
  endDate : cell;
  comentario : cell;
  status : string;
  error : option string
}.

Definition with_status (st : string) (r : record) : record :=
  {| id := id r; tipo := tipo r; idNCR := idNCR r; startDate := startDate r;
     endDate := endDate r; comentario := comentario r; status := st;
     error := error r |}.

Definition with_error (e : string) (r : record) : record :=
  {| id := id r; tipo := tipo r; idNCR := idNCR r; startDate := startDate r;
     endDate := endDate r; comentario := comentario r; status := status r;
     error := Some e |}.

(** Record objects live in a store and are named by their address: the
    array [records], [currentRecord] and the runner's local [record] all
    share one object. *)
Definition loc := nat.
Definition store := loc -> record.

Definition update (h : store) (l : loc) (f : record -> record) : store :=
  fun x => if Nat.eqb x l then f (h x) else h x.

(** The global [currentProcessing] (lines 44-51). *)
Record session := {
  isProcessing : bool;
  currentRecord : option loc;
  totalRecords : nat;
  processedRecords : nat;
  logs : list log_entry;
  records : list loc
}.

Definition initial : session :=
  {| isProcessing := false; currentRecord := None; totalRecords := 0;
     processedRecords := 0; logs := []; records := [] |}.

Definition with_isProcessing (b : bool) (s : session) : session :=
  {| isProcessing := b; currentRecord := currentRecord s;
     totalRecords := totalRecords s; processedRecords := processedRecords s;
     logs := logs s; records := records s |}.

Definition with_currentRecord (c : option loc) (s : session) : session :=
  {| isProcessing := isProcessing s; currentRecord := c;
     totalRecords := totalRecords s; processedRecords := processedRecords s;
     logs := logs s; records := records s |}.

Definition with_processedRecords (n : nat) (s : session) : session :=
  {| isProcessing := isProcessing s; currentRecord := currentRecord s;
     totalRecords := totalRecords s; processedRecords := n;
     logs := logs s; records := records s |}.

Definition with_logs (l : list log_entry) (s : session) : session :=
  {| isProcessing := isProcessing s; currentRecord := currentRecord s;
     totalRecords := totalRecords s; processedRecords := processedRecords s;
     logs := l; records := records s |}.

(** [addLog] (lines 54-62): push, nothing else. *)
Definition addLog (now : nat) (message type : string) (s : session) : session :=
  with_logs (logs s ++ [entry now message type]) s.

(** ** The browser driver *)

Inductive call :=
| Launch
| NewPage
| SetViewport (width height : N)
| BrowserClose
| Goto (url : string)
| WaitForSelector (selector : string) (timeout : N)
| WaitForNavigation (timeout : N)
| WaitForTimeout (ms : N)
| Click (selector : string)
| TypeText (selector text : string)
| SelectAll
| Press (key : string)
| Select (selector value : string)
| TagName (selector : string).

(** A call resolves (with the tag name, for [TagName]) or rejects with an
    error message. *)
Inductive response :=
| Resolves (value : option string)
| Rejects (message : string).

Record credentials := { username : string; password : string }.

(** What a method of [NCRAtleosAutomation] can touch: the clock, the
    session's log array, whether [this.browser] is set, and the driver
    calls made so far. *)
Record ctx := {
  clock : nat;
  log : list log_entry;
  browser : bool;
  calls : list call
}.

Definition with_log (l : list log_entry) (c : ctx) : ctx :=
  {| clock := clock c; log := l; browser := browser c; calls := calls c |}.
Definition with_browser (b : bool) (c : ctx) : ctx :=
  {| clock := clock c; log := log c; browser := b; calls := calls c |}.
Definition with_calls (k : list call) (c : ctx) : ctx :=
  {| clock := clock c; log := log c; browser := browser c; calls := k |}.

(** A method either throws a message or returns a value. *)
Definition driver (A : Type) : Type := ctx -> (string + A) * ctx.

Definition ret {A} (a : A) : driver A := fun c => (inr a, c).
Definition throw {A} (msg : string) : driver A := fun c => (inl msg, c).
Definition bind {A B} (m : driver A) (k : A -> driver B) : driver B :=
  fun c => match m c with
           | (inl e, c') => (inl e, c')
           | (inr a, c') => k a c'
           end.
Definition try_catch {A} (m : driver A) (handler : string -> driver A) : driver A :=
  fun c => match m c with
           | (inl e, c') => handler e c'
           | (inr a, c') => (inr a, c')
           end.

Declare Scope driver_scope.
Delimit Scope driver_scope with driver.
Notation "x <- m ;; k" := (bind m (fun x => k))
  (at level 100, m at next level, k at level 200, right associativity) : driver_scope.
Notation "m ;; k" := (bind m (fun _ => k))
  (at level 100, k at level 200, right associativity) : driver_scope.

(** [addLog] from inside a method. *)
Definition say (message type : string) : driver unit :=
  fun c => (inr tt, with_log (log c ++ [entry (clock c) message type]) c).

(** ** class NCRAtleosAutomation (lines 65-318) *)

Section Automation.

Variable world : list call -> call -> response.

(** [await] of one driver call: the call is recorded, the browser answers. *)
Definition perform (k : call) : driver (option string) :=
  fun c =>
    let c' := with_calls (calls c ++ [k]) c in
    match world (calls c) k with
    | Resolves v => (inr v, c')
    | Rejects msg => (inl msg, c')
    end.

Local Open Scope driver_scope.
Local Open Scope N_scope.

(** Lines 72-80.  [this.browser] is assigned only when the launch resolved. *)
Definition initialize : driver unit :=
  say "Iniciando navegador..." "info";;
  perform Launch;;
  (fun c => (inr tt, with_browser true c));;
  perform NewPage;;
  perform (SetViewport 1280 800);;
  ret tt.

Definition usernameSelector : string :=
  "input[name=" +:+ quoted "username" +:+ "], input[type=" +:+ quoted "text" +:+ "]".
Definition passwordSelector : string :=
  "input[name=" +:+ quoted "password" +:+ "], input[type=" +:+ quoted "password" +:+ "]".
Definition submitSelector : string :=
  "button[type=" +:+ quoted "submit" +:+ "], input[type=" +:+ quoted "submit"
  +:+ "], .btn:contains(" +:+ quoted "LOG-IN" +:+ ")".

(** Lines 82-110. *)
Definition login (cred : credentials) : driver bool :=
  try_catch
    (say "Navegando a NCR Atleos..." "info";;
     perform (Goto "https://vision.dcs.latam.ncr.com/cxp-core-webapp/login");;
     perform (WaitForSelector usernameSelector 10000);;
     say "Introduciendo credenciales..." "info";;
     perform (TypeText usernameSelector (username cred));;
     perform (TypeText passwordSelector (password cred));;
     perform (Click submitSelector);;
     perform (WaitForNavigation 15000);;
     say "Login exitoso" "success";;
     ret true)
    (fun msg => say ("Error en login: " +:+ msg) "error";; ret false).

Definition searchSelector : string :=
  "input[type=" +:+ quoted "text" +:+ "]:not([name=" +:+ quoted "username"
  +:+ "]):not([name=" +:+ quoted "password" +:+ "])".
Definition atmSelector (idNCR : string) : string :=
  "a:contains(" +:+ quoted idNCR +:+ "), tr:contains(" +:+ quoted idNCR +:+ ")".

(** Lines 112-140. *)
Definition searchAndSelectATM (idNCR : cell) : driver bool :=
  let idn := text_of idNCR in
  try_catch
    (say ("Buscando ATM con ID: " +:+ idn) "info";;
     perform (WaitForSelector searchSelector 10000);;
     perform (Click searchSelector);;
     perform SelectAll;;
     perform (TypeText searchSelector idn);;
     perform (Press "Enter");;
     perform (WaitForTimeout 3000);;
     perform (WaitForSelector (atmSelector idn) 10000);;
     perform (Click (atmSelector idn));;
     say ("ATM " +:+ idn +:+ " seleccionado exitosamente") "success";;
     ret true)
    (fun msg =>
       say ("Error buscando ATM " +:+ idn +:+ ": " +:+ msg) "error";; ret false).

(** The loop the class writes three times (lines 156-165, 232-254,
    293-303): try the body on each selector in turn; a selector whose body
    throws is skipped, the first whose body returns ends the loop.  The
    result is the selector that won, if any. *)
Fixpoint firstSelector (body : string -> driver unit) (selectors : list string)
  : driver (option string) :=
  match selectors with
  | [] => ret None
  | selector :: rest =>
      done <- try_catch (body selector;; ret true) (fun _ => ret false);;
      if done then ret (Some selector) else firstSelector body rest
  end.

Definition fieldSelectors (fieldName : string) : list string :=
  let key := dropFirstSpace (toLowerCase fieldName) in
  [ "input[name*=" +:+ quoted key +:+ "]";
    "textarea[name*=" +:+ quoted key +:+ "]";
    "select[name*=" +:+ quoted key +:+ "]";
    "input[placeholder*=" +:+ quoted fieldName +:+ "]";
    "label:contains(" +:+ quoted fieldName +:+ ") + input";
    "label:contains(" +:+ quoted fieldName +:+ ") + textarea";
    "label:contains(" +:+ quoted fieldName +:+ ") + select" ].

(** [elementType === 'select'] *)
Definition isSelect (elementType : option string) : bool :=
  match elementType with
  | Some tag => String.eqb tag "select"
  | None => false
  end.

(** The body of the loop of [fillField] (lines 234-250). *)
Definition fillWith (fieldName value selector : string) : driver unit :=
  perform (WaitForSelector selector 3000);;
  elementType <- perform (TagName selector);;
  (if isSelect elementType
   then perform (Select selector value);; ret tt
   else
     perform (Click selector);;
     perform SelectAll;;
     perform (TypeText selector value);;
     ret tt);;
  say ("Campo " +:+ quoted fieldName +:+ " llenado con: " +:+ value) "info".

(** [fillField] over a given list of candidates. *)
Definition fillFieldWith (selectors : list string) (fieldName value : string)
  : driver unit :=
  try_catch
    (won <- firstSelector (fillWith fieldName value) selectors;;
     match won with
     | Some _ => ret tt
     | None =>
         say ("Advertencia: No se pudo encontrar el campo " +:+ quoted fieldName)
             "warning"
     end)
    (fun msg => say ("Error llenando campo " +:+ fieldName +:+ ": " +:+ msg) "error").

(** Lines 219-260. *)
Definition fillField (fieldName value : string) : driver unit :=
  fillFieldWith (fieldSelectors fieldName) fieldName value.

(** The text [fillDateField] types for a sheet date: the en-US date and
    time of [new Date(dateString)].  Locale formatting is the runtime's. *)
Variable formatDate : cell -> string.

(** Lines 262-281. *)
Definition fillDateField (fieldName : string) (dateString : cell) : driver unit :=
  try_catch
    (fillField fieldName (formatDate dateString))
    (fun msg => say ("Error con fecha " +:+ fieldName +:+ ": " +:+ msg) "error").

(** [statusCodeMap] (lines 191-194), read by own keys. *)
Definition statusCodeMap : gmap string string :=
  {[ "VANDG" := "VANDG Vandalismo en ATM - Grave";
     "GENERAR" := "Otro código según sea necesario" ]}.

Definition statusCodeOf (tipo : cell) : string :=
  default "VANDG Vandalismo en ATM - Grave" (statusCodeMap !! text_of tipo).

(** Lines 188-217. *)
Definition fillIncidentForm (r : record) : driver unit :=
  try_catch
    (fillField "Status Code" (statusCodeOf (tipo r));;
     fillDateField "Start Date" (startDate r);;
     fillDateField "End Date" (endDate r);;
     (if truthy (comentario r)
      then fillField "Shared Comment" (text_of (comentario r))
      else ret tt);;
     fillField "Action Code" "25 Vandalism - Manual Close";;
     say "Formulario llenado correctamente" "info")
    (fun msg => say ("Error llenando formulario: " +:+ msg) "error";; throw msg).

Definition saveSelectors : list string :=
  [ "button:contains(" +:+ quoted "Save" +:+ ")";
    "button:contains(" +:+ quoted "SAVE" +:+ ")";
    "input[type=" +:+ quoted "submit" +:+ "]:contains(" +:+ quoted "Save" +:+ ")";
    ".btn:contains(" +:+ quoted "Save" +:+ ")" ].

(** The body of the loop of [saveIncident] (lines 295-299). *)
Definition saveWith (selector : string) : driver unit :=
  perform (WaitForSelector selector 3000);;
  perform (Click selector);;
  perform (WaitForTimeout 2000);;
  say "Incidente guardado" "info".

(** [saveIncident] over a given list of candidates. *)
Definition saveIncidentWith (selectors : list string) : driver unit :=
  try_catch
    (won <- firstSelector saveWith selectors;;
     match won with
     | Some _ => ret tt
     | None => throw "No se encontró el botón de guardar"
     end)
    (fun msg => say ("Error guardando incidente: " +:+ msg) "error";; throw msg).

(** Lines 283-310. *)
Definition saveIncident : driver unit := saveIncidentWith saveSelectors.

Definition createButtonSelectors : list string :=
  [ "button:contains(" +:+ quoted "Create" +:+ ")";
    "a:contains(" +:+ quoted "Create" +:+ ")";
    ".btn:contains(" +:+ quoted "Create" +:+ ")";
    "button:contains(" +:+ quoted "New" +:+ ")";
    "a:contains(" +:+ quoted "New" +:+ ")" ].

(** The body of the loop of [createIncident] (lines 158-161). *)
Definition openWith (selector : string) : driver unit :=
  perform (WaitForSelector selector 5000);;
  perform (Click selector);;
  ret tt.

(** Lines 142-186. *)
Definition createIncident (r : record) : driver bool :=
  try_catch
    (say ("Creando incidente para " +:+ text_of (idNCR r)) "info";;
     buttonFound <- firstSelector openWith createButtonSelectors;;
     match buttonFound with
     | Some _ => ret tt
     | None => throw "No se encontró el botón para crear incidente"
     end;;
     perform (WaitForTimeout 2000);;
     fillIncidentForm r;;
     saveIncident;;
     say ("Incidente creado exitosamente para " +:+ text_of (idNCR r)) "success";;
     ret true)
    (fun msg => say ("Error creando incidente: " +:+ msg) "error";; ret false).

(** Lines 312-317.  [browser.close()] releases the driver handle; it is
    recorded among the calls and taken to resolve: a failure of the cleanup
    itself is not modelled. *)
Definition close : driver unit :=
  fun c =>
    if browser c
    then say "Navegador cerrado" "info" (with_calls (calls c ++ [BrowserClose]) c)
    else (inr tt, c).

End Automation.

(** ** The server: session, record objects, background tasks *)

Record config := { delay : option N }.

(** [config && config.delay] *)
Definition delayOf (cfg : option config) : option N :=
  match cfg with
  | Some {| delay := Some d |} => if N.eqb d 0 then None else Some d
  | _ => None
  end.

(** Where a call of [processRecords] is suspended.  A method of the class
    is one suspension: it runs when the task is resumed, and of the session
    it writes the log alone. *)
Inductive suspended :=
| InInitialize
| InLogin
| InSearch (i : nat) (record : loc)
| InCreate (i : nat) (record : loc)
| InDelay (i : nat) (record : loc)
| InClose
| Finished.

(** One call of [processRecords]: its arguments, its [automation] object
    and its place. *)
Record task := {
  its_credentials : credentials;
  its_config : option config;
  its_browser : bool;
  its_calls : list call;
  place : suspended
}.

Definition at_place (p : suspended) (t : task) : task :=
  {| its_credentials := its_credentials t; its_config := its_config t;
     its_browser := its_browser t; its_calls := its_calls t; place := p |}.

Record server := {
  currentProcessing : session;
  objects : store;
  fresh : loc;
  tasks : list task
}.

Definition blank : record :=
  {| id := 0; tipo := Str ""; idNCR := Str ""; startDate := Str "";
     endDate := Str ""; comentario := Str ""; status := ""; error := None |}.

Definition boot : server :=
  {| currentProcessing := initial; objects := fun _ => blank; fresh := 0;
     tasks := [] |}.

(** ** POST /api/upload-excel (lines 323-367) *)

(** The uploaded file as the handler meets it. *)
Inductive upload :=
| NoFile
| Unreadable (message : string)
| Sheet (data : list (gmap string cell)).

(** Lines 336-343: the object built for the row at [index]. *)
Definition rowRecord (index : nat) (row : gmap string cell) : record :=
  {| id := index + 1;
     tipo := or_else (row !! "GENERAR") (or_else (row !! "VANDG") (Str "VANDG"));
     idNCR := or_else (row !! "Id NCR") (Str "");
     startDate := or_else (row !! "Start Date") (Str "");
     endDate := or_else (row !! "End Date") (Str "");
     comentario := or_else (row !! "COMENTARIO") (Str "");
     status := "pending";
     error := None |}.

(** Lines 336-344: map, then filter. *)
Definition uploadedRecords (data : list (gmap string cell)) : list record :=
  List.filter (fun r => truthy (idNCR r)) (imap rowRecord data).

(** New objects take the addresses from [fresh] on. *)
Definition allocate (h : store) (fresh : loc) (rs : list record) : store :=
  fun x =>
    if (fresh <=? x) && (x <? fresh + length rs)
    then nth (x - fresh) rs blank
    else h x.

Inductive reply :=
| Uploaded (records : list record) (totalRecords : nat)
| Started
| Stopped
| Cleared
| BadRequest (error : string)
| ServerError (error : string)
| StatusIs (isProcessing : bool) (currentRecord : option record)
           (totalRecords processedRecords : nat) (records : list record)
| LogsAre (logs : list log_entry)
| Healthy.

Definition uploadExcel (now : nat) (u : upload) (sv : server) : reply * server :=
  let s := currentProcessing sv in
  match u with
  | NoFile => (BadRequest "No se subió ningún archivo", sv)
  | Unreadable msg =>
      (ServerError msg,
       {| currentProcessing := addLog now ("Error procesando Excel: " +:+ msg) "error" s;
          objects := objects sv; fresh := fresh sv; tasks := tasks sv |})
  | Sheet data =>
      let rs := uploadedRecords data in
      let s' :=
        {| isProcessing := isProcessing s; currentRecord := currentRecord s;
           totalRecords := length rs; processedRecords := 0; logs := [];
           records := seq (fresh sv) (length rs) |} in
      (Uploaded rs (length rs),
       {| currentProcessing :=
            addLog now ("Archivo Excel procesado: " +:+ decimal (length rs)
                        +:+ " registros encontrados") "success" s';
          objects := allocate (objects sv) (fresh sv) rs;
          fresh := fresh sv + length rs;
          tasks := tasks sv |})
  end.

(** ** processRecords (lines 401-461) *)

Section Runner.

Variable world : list call -> call -> response.
Variable formatDate : cell -> string.

(** A task's view while it runs: the session, the objects and itself. *)
Definition frame : Type := session * store * task.

(** Run a method of the task's [automation] object. *)
Definition invoke {A} (now : nat) (m : driver A) (s : session) (t : task)
  : (string + A) * session * task :=
  let '(r, c) := m {| clock := now; log := logs s; browser := its_browser t;
                      calls := its_calls t |} in
  (r, with_logs (log c) s,
   {| its_credentials := its_credentials t; its_config := its_config t;
      its_browser := browser c; its_calls := calls c; place := place t |}).

(** Lines 458-459. *)
Definition release (s : session) : session :=
  with_currentRecord None (with_isProcessing false s).

(** The [finally] block (lines 456-460) up to the await inside [close]; with
    no browser, [close] has nothing to await. *)
Definition finally (f : frame) : frame :=
  let '(s, h, t) := f in
  if its_browser t then (s, h, at_place InClose t)
  else (release s, h, at_place Finished t).

(** The outer [catch] (lines 454-455). *)
Definition fatal (now : nat) (msg : string) (f : frame) : frame :=
  let '(s, h, t) := f in
  finally (addLog now ("Error fatal en procesamiento: " +:+ msg) "error" s, h, t).

(** The loop test and lines 413-420, up to the call of
    [searchAndSelectATM]; past the last record, line 452. *)
Definition iteration (now : nat) (i : nat) (f : frame) : frame :=
  let '(s, h, t) := f in
  match records s !! i with
  | Some record =>
      let s1 := with_currentRecord (Some record) s in
      (addLog now ("Procesando registro " +:+ decimal (i + 1) +:+ "/"
                   +:+ decimal (totalRecords s1) +:+ ": "
                   +:+ text_of (idNCR (h record))) "info" s1,
       h, at_place (InSearch i record) t)
  | None => finally (addLog now "🎉 Procesamiento completado" "success" s, h, t)
  end.

(** Line 449, then the loop's [i++]. *)
Definition endOfBody (now : nat) (i : nat) (f : frame) : frame :=
  let '(s, h, t) := f in
  iteration now (S i) (with_processedRecords (S (processedRecords s)) s, h, t).

(** The inner [catch] (lines 443-447). *)
Definition caught (now : nat) (i : nat) (record : loc) (msg : string) (f : frame)
  : frame :=
  let '(s, h, t) := f in
  let h' := update (update h record (with_status "error")) record (with_error msg) in
  endOfBody now i
    (addLog now ("❌ Error procesando " +:+ text_of (idNCR (h' record)) +:+ ": "
                 +:+ msg) "error" s, h', t).

(** Lines 421-425: the search failed; [continue] goes to the loop's [i++]. *)
Definition notFound (now : nat) (i : nat) (record : loc) (f : frame) : frame :=
  let '(s, h, t) := f in
  iteration now (S i)
    (s, update (update h record (with_status "error")) record
               (with_error "No se pudo encontrar el ATM"), t).

(** Lines 429-441: the result of [createIncident] and the delay. *)
Definition created (now : nat) (i : nat) (record : loc) (createSuccess : bool)
  (f : frame) : frame :=
  let '(s, h, t) := f in
  let h1 :=
    if createSuccess
    then update h record (with_status "completed")
    else update (update h record (with_status "error")) record
                (with_error "Error creando incidente") in
  let s1 :=
    if createSuccess
    then addLog now ("✅ Registro " +:+ text_of (idNCR (h1 record))
                     +:+ " procesado exitosamente") "success" s
    else s in
  match delayOf (its_config t) with
  | Some d =>
      if S i <? length (records s1)
      then (addLog now ("Esperando " +:+ NilZero.string_of_uint (N.to_uint d)
                        +:+ "ms antes del siguiente registro...") "info" s1,
            h1, at_place (InDelay i record) t)
      else endOfBody now i (s1, h1, t)
  | None => endOfBody now i (s1, h1, t)
  end.

(** [processRecords], resumed where it is suspended: the awaited method
    runs, then the code up to the next await. *)
Definition processRecords (now : nat) (f : frame) : frame :=
  let '(s, h, t) := f in
  match place t with
  | InInitialize =>
      match invoke now (initialize world) s t with
      | (inl msg, s', t') => fatal now msg (s', h, t')
      | (inr _, s', t') => (s', h, at_place InLogin t')
      end
  | InLogin =>
      match invoke now (login world (its_credentials t)) s t with
      | (inl msg, s', t') => fatal now msg (s', h, t')
      | (inr true, s', t') => iteration now 0 (s', h, t')
      | (inr false, s', t') => fatal now "Error en el login" (s', h, t')
      end
  | InSearch i record =>
      match invoke now (searchAndSelectATM world (idNCR (h record))) s t with
      | (inl msg, s', t') => caught now i record msg (s', h, t')
      | (inr true, s', t') => (s', h, at_place (InCreate i record) t')
      | (inr false, s', t') => notFound now i record (s', h, t')
      end
  | InCreate i record =>
      match invoke now (createIncident world formatDate (h record)) s t with
      | (inl msg, s', t') => caught now i record msg (s', h, t')
      | (inr createSuccess, s', t') => created now i record createSuccess (s', h, t')
      end
  | InDelay i record => endOfBody now i f
  | InClose =>
      match invoke now close s t with
      | (inl _, s', t') => (s', h, at_place Finished t')
      | (inr _, s', t') => (release s', h, at_place Finished t')
      end
  | Finished => f
  end.

End Runner.

(** ** The other endpoints (lines 370-398 and 464-511) *)

Record start_body := {
  body_credentials : option credentials;
  body_config : option config
}.

Inductive request :=
| UploadExcel (u : upload)
| StartProcessing (body : start_body)
| ProcessingStatus
| GetLogs
| StopProcessing
| ClearData
| Health.

Definition on_session (g : session -> session) (sv : server) : server :=
  {| currentProcessing := g (currentProcessing sv); objects := objects sv;
     fresh := fresh sv; tasks := tasks sv |}.

(** Lines 370-398.  The accepted request calls [processRecords], which runs
    to its first await, inside [initialize]. *)
Definition startProcessing (body : start_body) (sv : server) : reply * server :=
  let s := currentProcessing sv in
  if isProcessing s then (BadRequest "Ya hay un procesamiento en curso", sv)
  else
    match body_credentials body with
    | None => (BadRequest "Credenciales requeridas", sv)
    | Some cred =>
        if String.eqb (username cred) "" || String.eqb (password cred) ""
        then (BadRequest "Credenciales requeridas", sv)
        else if length (records s) =? 0
        then (BadRequest "No hay registros para procesar", sv)
        else
          (Started,
           {| currentProcessing := with_processedRecords 0 (with_isProcessing true s);
              objects := objects sv; fresh := fresh sv;
              tasks := tasks sv ++
                [ {| its_credentials := cred; its_config := body_config body;
                     its_browser := false; its_calls := []; place := InInitialize |} ]
           |})
    end.

(** Lines 464-475, without [progress] (a floating-point rounding). *)
Definition processingStatus (sv : server) : reply :=
  let s := currentProcessing sv in
  StatusIs (isProcessing s) (objects sv <$> currentRecord s) (totalRecords s)
           (processedRecords s) (objects sv <$> records s).

Definition handle (now : nat) (r : request) (sv : server) : reply * server :=
  match r with
  | UploadExcel u => uploadExcel now u sv
  | StartProcessing body => startProcessing body sv
  | ProcessingStatus => (processingStatus sv, sv)
  | GetLogs => (LogsAre (lastN 50 (logs (currentProcessing sv))), sv)
  | StopProcessing =>
      (Stopped,
       on_session (fun s => addLog now "Procesamiento detenido por el usuario" "warning"
                                   (with_isProcessing false s)) sv)
  | ClearData => (Cleared, on_session (fun _ => initial) sv)
  | Health => (Healthy, sv)
  end.

(** ** Runs *)

Inductive event :=
| Request (r : request)
| Resume (j : nat).

Section Runs.

Variable world : list call -> call -> response.
Variable formatDate : cell -> string.

(** Resume task [j], if there is one. *)
Definition resumeTask (now : nat) (j : nat) (sv : server) : server :=
  match tasks sv !! j with
  | Some t =>
      let '(s, h, t') := processRecords world formatDate now (currentProcessing sv, objects sv, t) in
      {| currentProcessing := s; objects := h; fresh := fresh sv;
         tasks := <[j := t']> (tasks sv) |}
  | None => sv
  end.

(** One atomic step at clock reading [now]. *)
Definition step (sv : server) (e : nat * event) : server :=
  match e with
  | (now, Request r) => snd (handle now r sv)
  | (now, Resume j) => resumeTask now j sv
  end.

Definition run (evs : list (nat * event)) (sv : server) : server :=
  fold_left step evs sv.

End Runs.

(** A task is active until it has finished. *)
Definition active (t : task) : bool :=
  match place t with Finished => false | _ => true end.

(** A status is terminal when it is one the runner writes at the end of a
    record. *)
Definition terminal (status : string) : bool :=
  String.eqb status "completed" || String.eqb status "error".

Definition terminalCount (sv : server) : nat :=
  length (List.filter (fun l => terminal (status (objects sv l)))
                      (records (currentProcessing sv))).

Definition processingCount (sv : server) : nat :=
  length (List.filter (fun l => String.eqb (status (objects sv l)) "processing")
                      (records (currentProcessing sv))).

End Atleos.

(** * The simulated server (lines 517-711) *)

Module Simulated.

Record record := {
  id : nat;
  action : cell;
  ncrId : cell;
  startDate : cell;
  endDate : cell;
  comment : cell;
  status : string;
  result : option string
}.

(** [records[i].status = st; records[i].result = res] *)
Definition settle (st res : string) (r : record) : record :=
  {| id := id r; action := action r; ncrId := ncrId r; startDate := startDate r;
     endDate := endDate r; comment := comment r; status := st; result := Some res |}.

Definition loc := nat.
Definition store := loc -> record.

Definition update (h : store) (l : loc) (f : record -> record) : store :=
  fun x => if Nat.eqb x l then f (h x) else h x.

(** The global [processingState] (lines 536-542). *)
Record state := {
  isProcessing : bool;
  currentRecord : option loc;
  processedCount : nat;
  totalCount : nat;
  logs : list log_entry
}.

Definition initial : state :=
  {| isProcessing := false; currentRecord := None; processedCount := 0;
     totalCount := 0; logs := [] |}.

Definition with_isProcessing (b : bool) (s : state) : state :=
  {| isProcessing := b; currentRecord := currentRecord s;
     processedCount := processedCount s; totalCount := totalCount s;
     logs := logs s |}.
Definition with_currentRecord (c : option loc) (s : state) : state :=
  {| isProcessing := isProcessing s; currentRecord := c;
     processedCount := processedCount s; totalCount := totalCount s;
     logs := logs s |}.
Definition with_processedCount (n : nat) (s : state) : state :=
  {| isProcessing := isProcessing s; currentRecord := currentRecord s;
     processedCount := n; totalCount := totalCount s; logs := logs s |}.
Definition with_totalCount (n : nat) (s : state) : state :=
  {| isProcessing := isProcessing s; currentRecord := currentRecord s;
     processedCount := processedCount s; totalCount := n; logs := logs s |}.
Definition with_logs (l : list log_entry) (s : state) : state :=
  {| isProcessing := isProcessing s; currentRecord := currentRecord s;
     processedCount := processedCount s; totalCount := totalCount s;
     logs := l |}.

(** [addLog] (lines 545-555): push, then keep the last 100. *)
Definition addLog (now : nat) (message type : string) (s : state) : state :=
  let pushed := logs s ++ [entry now message type] in
  if 100 <? length pushed then with_logs (lastN 100 pushed) s
  else with_logs pushed s.

(** ** POST /api/upload (lines 629-664) *)

Inductive upload :=
| NoFile
| Unreadable (message : string)
| Sheet (jsonData : list (list (option cell))).

(** [row[k]], [undefined] past the end and at an empty cell. *)
Definition cellAt (k : nat) (row : list (option cell)) : option cell :=
  mjoin (row !! k).

(** Lines 642-649. *)
Definition rowRecord (index : nat) (row : list (option cell)) : record :=
  {| id := index + 1;
     action := or_else (cellAt 0 row) (Str "");
     ncrId := or_else (cellAt 1 row) (Str "");
     startDate := or_else (cellAt 2 row) (Str "");
     endDate := or_else (cellAt 3 row) (Str "");
     comment := or_else (cellAt 4 row) (Str "");
     status := "pending";
     result := None |}.

(** The filter's test (line 650); [trim] exists on strings only. *)
Definition keeps (r : record) : string + bool :=
  match ncrId r with
  | Str s => inr (negb (String.eqb s "") && nonblank s)
  | v => if truthy v then inl "record.ncrId.trim is not a function" else inr false
  end.

Fixpoint filterRecords (rs : list record) : string + list record :=
  match rs with
  | [] => inr []
  | r :: rest =>
      match keeps r with
      | inl e => inl e
      | inr k =>
          match filterRecords rest with
          | inl e => inl e
          | inr kept => inr (if k then r :: kept else kept)
          end
      end
  end.

(** Lines 642-650: drop the header row, map, then filter. *)
Definition processedData (jsonData : list (list (option cell))) : string + list record :=
  filterRecords (imap rowRecord (tail jsonData)).

(** ** The server *)

(** [config] of the request body. *)
Record config := {
  username : string;
  password : string;
  delayBetweenRecords : option N
}.

(** Where a call of [simulateAptraProcessing] is suspended: at one of its
    four timers. *)
Inductive suspended :=
| AtLogin
| AtSearch (i : nat)
| AtCreate (i : nat)
| AtDelay (i : nat)
| Finished.

(** One call of [simulateAptraProcessing]: its [records] array and its
    place. *)
Record task := {
  its_config : config;
  its_records : list loc;
  place : suspended
}.

Definition at_place (p : suspended) (t : task) : task :=
  {| its_config := its_config t; its_records := its_records t; place := p |}.

Record server := {
  processingState : state;
  objects : store;
  fresh : loc;
  tasks : list task
}.

Definition blank : record :=
  {| id := 0; action := Str ""; ncrId := Str ""; startDate := Str "";
     endDate := Str ""; comment := Str ""; status := ""; result := None |}.

Definition boot : server :=
  {| processingState := initial; objects := fun _ => blank; fresh := 0;
     tasks := [] |}.

Definition allocate (h : store) (fresh : loc) (rs : list record) : store :=
  fun x =>
    if (fresh <=? x) && (x <? fresh + length rs)
    then nth (x - fresh) rs blank
    else h x.

(** ** simulateAptraProcessing (lines 558-615) *)

Definition frame : Type := state * store * task.

(** The [finally] block (lines 611-614). *)
Definition release (s : state) : state :=
  with_currentRecord None (with_isProcessing false s).

(** The loop test and lines 569-577, up to the first timer of the body; past
    the loop, lines 606-607 and the [finally] block. *)
Definition iteration (now : nat) (i : nat) (f : frame) : frame :=
  let '(s, h, t) := f in
  match its_records t !! i with
  | Some record =>
      if isProcessing s
      then
        (addLog now ("🔍 Procesando " +:+ text_of (ncrId (h record)) +:+ "...") "info"
                (with_processedCount i (with_currentRecord (Some record) s)),
         h, at_place (AtSearch i) t)
      else
        (release (addLog now "🏁 Procesamiento completado" "success"
                         (with_processedCount (length (its_records t)) s)),
         h, at_place Finished t)
  | None =>
      (release (addLog now "🏁 Procesamiento completado" "success"
                       (with_processedCount (length (its_records t)) s)),
       h, at_place Finished t)
  end.

(** Lines 586-597: the draw of [Math.random() > 0.1] decides the record. *)
Definition decided (now : nat) (i : nat) (success : bool) (f : frame) : frame :=
  let '(s, h, t) := f in
  match its_records t !! i with
  | Some record =>
      if success
      then (addLog now ("✅ Evento creado para " +:+ text_of (ncrId (h record))) "success" s,
            update h record (settle "completed" "Evento creado exitosamente"),
            at_place (AtDelay i) t)
      else (addLog now ("❌ Error simulado con " +:+ text_of (ncrId (h record))) "error" s,
            update h record (settle "failed" "Error simulado"),
            at_place (AtDelay i) t)
  | None => f
  end.

(** [simulateAptraProcessing], resumed at the timer it waits on: the code
    up to the next timer runs. *)
Definition simulateAptraProcessing (now : nat) (success : bool) (f : frame) : frame :=
  let '(s, h, t) := f in
  match place t with
  | AtLogin =>
      iteration now 0 (addLog now "✅ Sesión iniciada correctamente" "success" s, h, t)
  | AtSearch i =>
      match its_records t !! i with
      | Some record =>
          (addLog now ("📝 Creando evento para " +:+ text_of (ncrId (h record)) +:+ "...")
                  "info" s,
           h, at_place (AtCreate i) t)
      | None => f
      end
  | AtCreate i => decided now i success f
  | AtDelay i => iteration now (S i) f
  | Finished => f
  end.

(** ** The endpoints (lines 620-706) *)

Inductive request :=
| Upload (u : upload)
| Process (cfg : config) (records : list record)
| Stop
| Status
| GetLogs
| Root.

Inductive reply :=
| Uploaded (data : list record) (count : nat)
| Started
| Stopped
| BadRequest (error : string)
| ServerError (error : string)
| StatusIs (isProcessing : bool) (currentRecord : option record)
           (processedCount totalCount : nat) (logs : list log_entry)
| LogsAre (logs : list log_entry)
| Alive.

Definition on_state (g : state -> state) (sv : server) : server :=
  {| processingState := g (processingState sv); objects := objects sv;
     fresh := fresh sv; tasks := tasks sv |}.

(** Lines 629-664. *)
Definition upload_ (now : nat) (u : upload) (sv : server) : reply * server :=
  match u with
  | NoFile => (BadRequest "No se subió archivo", sv)
  | Unreadable msg =>
      (ServerError msg,
       on_state (addLog now ("❌ Error al procesar Excel: " +:+ msg) "error") sv)
  | Sheet jsonData =>
      match processedData jsonData with
      | inl msg =>
          (ServerError msg,
           on_state (addLog now ("❌ Error al procesar Excel: " +:+ msg) "error") sv)
      | inr data =>
          (Uploaded data (length data),
           on_state (addLog now ("📂 Archivo procesado: " +:+ decimal (length data)
                                 +:+ " registros") "success") sv)
      end
  end.

(** Lines 667-689.  The accepted request calls [simulateAptraProcessing],
    which runs to its first timer. *)
Definition process (now : nat) (cfg : config) (rs : list record) (sv : server)
  : reply * server :=
  let s := processingState sv in
  if isProcessing s then (BadRequest "Ya hay un procesamiento en curso", sv)
  else if String.eqb (username cfg) "" || String.eqb (password cfg) ""
  then (BadRequest "Credenciales requeridas", sv)
  else
    let s1 := with_logs [] (with_processedCount 0 (with_totalCount (length rs)
                (with_isProcessing true s))) in
    let s2 := addLog now "🔐 Simulando login a Aptra..." "info"
                (addLog now "🚀 Iniciando procesamiento simulado..." "info" s1) in
    (Started,
     {| processingState := s2;
        objects := allocate (objects sv) (fresh sv) rs;
        fresh := fresh sv + length rs;
        tasks := tasks sv ++
          [ {| its_config := cfg; its_records := seq (fresh sv) (length rs);
               place := AtLogin |} ] |}).

Definition handle (now : nat) (r : request) (sv : server) : reply * server :=
  let s := processingState sv in
  match r with
  | Upload u => upload_ now u sv
  | Process cfg rs => process now cfg rs sv
  | Stop =>
      (Stopped,
       on_state (fun s => addLog now "⏹️ Procesamiento detenido por usuario" "warning"
                                 (with_isProcessing false s)) sv)
  | Status =>
      (StatusIs (isProcessing s) (objects sv <$> currentRecord s) (processedCount s)
                (totalCount s) (logs s), sv)
  | GetLogs => (LogsAre (logs s), sv)
  | Root => (Alive, sv)
  end.

(** ** Runs *)

(** Resuming a task brings the draw of [Math.random] it may consume. *)
Inductive event :=
| Request (r : request)
| Resume (j : nat) (success : bool).

Definition resumeTask (now : nat) (j : nat) (success : bool) (sv : server) : server :=
  match tasks sv !! j with
  | Some t =>
      let '(s, h, t') := simulateAptraProcessing now success (processingState sv, objects sv, t) in
      {| processingState := s; objects := h; fresh := fresh sv;
         tasks := <[j := t']> (tasks sv) |}
  | None => sv
  end.

Definition step (sv : server) (e : nat * event) : server :=
  match e with
  | (now, Request r) => snd (handle now r sv)
  | (now, Resume j success) => resumeTask now j success sv
  end.

Definition run (evs : list (nat * event)) (sv : server) : server :=
  fold_left step evs sv.

Definition active (t : task) : bool :=
  match place t with Finished => false | _ => true end.

Definition terminal (status : string) : bool :=
  String.eqb status "completed" || String.eqb status "failed".

(** The records of a task whose status is terminal. *)
Definition terminalCount (sv : server) (t : task) : nat :=
  length (List.filter (fun l => terminal (status (objects sv l))) (its_records t)).

Definition processingCount (sv : server) (t : task) : nat :=
  length (List.filter (fun l => String.eqb (status (objects sv l)) "processing")
                      (its_records t)).

End Simulated.

(** * The upload filter of the Puppeteer server (lines 32-41) *)

(** [s.includes(needle)]: [needle] occurs in [s], at some position. *)
Fixpoint includes (needle s : string) : bool :=
  String.prefix needle s
  || match s with
     | EmptyString => false
     | String _ rest => includes needle rest
     end.

(** [fileFilter]: the callback gets [true], or the error. *)
Definition fileFilter (mimetype : string) : string + bool :=
  if includes "excel" mimetype || includes "spreadsheet" mimetype
  then inr true
  else inl "Solo se permiten archivos Excel".

(** * The progress of the status reply (lines 470-472) *)

(** A count as a JavaScript number: a double, exact below 2^53. *)
Definition ofCount (n : nat) : PrimFloat.float :=
  PrimFloat.of_uint63 (Uint63.of_Z (Z.of_nat n)).

(** [Math.round] of a finite double: the nearest integer, a tie going up.
    The double is [m * 2^e] exactly. *)
Definition mathRound (x : PrimFloat.float) : Z :=
  match FloatOps.Prim2SF x with
  | SpecFloat.S754_finite s m e =>
      let v := if s then Z.neg m else Z.pos m in
      if (0 <=? e)%Z then (v * 2 ^ e)%Z
      else ((2 * v + 2 ^ (- e)) / 2 ^ (- e + 1))%Z
  | _ => 0%Z
  end.

(** [totalRecords > 0 ? Math.round((processedRecords / totalRecords) * 100) : 0],
    in double arithmetic. *)
Definition progressOf (processedRecords totalRecords : nat) : Z :=
  if 0 <? totalRecords
  then mathRound (PrimFloat.mul (PrimFloat.div (ofCount processedRecords)
                                               (ofCount totalRecords))
                                (ofCount 100))
  else 0%Z.


(** * Notions the statements use *)

(** The entries a run of [addLog] calls writes. *)
Definition entries (es : list (nat * string * string)) : list log_entry :=
  map (fun '(now, msg, ty) => entry now msg ty) es.

(** A run of [addLog] calls on the Puppeteer server's session. *)
Definition emitA (es : list (nat * string * string)) (s : Atleos.session) : Atleos.session :=
  fold_left (fun s '(now, msg, ty) => Atleos.addLog now msg ty s) es s.

(** A run of [addLog] calls on the simulated server's state. *)
Definition emitB (es : list (nat * string * string)) (s : Simulated.state) : Simulated.state :=
  fold_left (fun s '(now, msg, ty) => Simulated.addLog now msg ty s) es s.

(** A sheet of three rows; the second has a comment and no identifier. *)
Definition threeRows : list (gmap string cell) :=
  [ {[ "Id NCR" := Str "ATM001" ]};
    {[ "COMENTARIO" := Str "sin identificador" ]};
    {[ "Id NCR" := Str "ATM003" ]} ].

(** The same for the simulated server: a header row, then three rows, the
    second without identifier. *)
Definition threeRowsUnderHeader : list (list (option cell)) :=
  [ [Some (Str "ACCION"); Some (Str "Id NCR")];
    [Some (Str "VANDG"); Some (Str "ATM001")];
    [Some (Str "VANDG"); None];
    [Some (Str "VANDG"); Some (Str "ATM003")] ].

(** What the Puppeteer upload guarantees of a record of the batch. *)
Definition fromRow (data : list (gmap string cell)) (r : Atleos.record) : Prop :=
  truthy (Atleos.idNCR r) = true /\ Atleos.idNCR r <> Str "" /\
  exists row, data !! (Atleos.id r - 1) = Some row /\
              r = Atleos.rowRecord (Atleos.id r - 1) row.

(** What the simulated upload guarantees of a record it returns. *)
Definition fromSheetRow (jsonData : list (list (option cell))) (r : Simulated.record) : Prop :=
  (exists s, Simulated.ncrId r = Str s /\ nonblank s = true) /\
  exists row, tail jsonData !! (Simulated.id r - 1) = Some row /\
              r = Simulated.rowRecord (Simulated.id r - 1) row.

(** The candidates of [pre], tried in turn from [c], all throw; the result
    is the context they leave behind. *)
Fixpoint allFail (body : string -> Atleos.driver unit) (pre : list string)
  (c : Atleos.ctx) : option Atleos.ctx :=
  match pre with
  | [] => Some c
  | selector :: rest =>
      match body selector c with
      | (inl _, c') => allFail body rest c'
      | (inr _, _) => None
      end
  end.



(** The calls of [c'] made after those of [c]. *)
Definition callsSince (c c' : Atleos.ctx) : list Atleos.call :=
  drop (length (Atleos.calls c)) (Atleos.calls c').


(** A method that leaves the clock and [this.browser] alone, only appends to
    the log, and only makes calls that satisfy [P]. *)
Definition keeps {A} (P : Atleos.call -> Prop) (m : Atleos.driver A) : Prop :=
  forall c,
    Atleos.clock (snd (m c)) = Atleos.clock c
    /\ Atleos.browser (snd (m c)) = Atleos.browser c
    /\ (exists said, Atleos.log (snd (m c)) = Atleos.log c ++ said)
    /\ (exists made, Atleos.calls (snd (m c)) = Atleos.calls c ++ made /\ Forall P made).


(** A method context with a launched browser and nothing done yet. *)
Definition emptyCtx : Atleos.ctx :=
  {| Atleos.clock := 0; Atleos.log := []; Atleos.browser := true; Atleos.calls := [] |}.

(** The fixed sequence of the form: each field with the text typed in it;
    the comment is a field only when the record has one. *)
Definition formFields (formatDate : cell -> string) (r : Atleos.record)
  : list (string * string) :=
  [ ("Status Code", Atleos.statusCodeOf (Atleos.tipo r));
    ("Start Date", formatDate (Atleos.startDate r));
    ("End Date", formatDate (Atleos.endDate r)) ]
  ++ (if truthy (Atleos.comentario r)
      then [("Shared Comment", text_of (Atleos.comentario r))] else [])
  ++ [ ("Action Code", "25 Vandalism - Manual Close") ].

(** Fill the fields one after the other, whatever becomes of each. *)
Definition fillEach (world : list Atleos.call -> Atleos.call -> Atleos.response)
  (fields : list (string * string)) (c : Atleos.ctx) : Atleos.ctx :=
  fold_left (fun c fv => snd (Atleos.fillField world (fst fv) (snd fv) c)) fields c.

(** The steps of [createIncident] that can fail it: opening the form, the
    wait that follows, and saving. *)
Definition hardSteps (world : list Atleos.call -> Atleos.call -> Atleos.response)
  (formatDate : cell -> string) (r : Atleos.record) (c : Atleos.ctx) : bool :=
  let c0 := snd (Atleos.say ("Creando incidente para " +:+ text_of (Atleos.idNCR r)) "info" c) in
  match Atleos.firstSelector (Atleos.openWith world) Atleos.createButtonSelectors c0 with
  | (inr (Some _), c1) =>
      match Atleos.perform world (Atleos.WaitForTimeout 2000) c1 with
      | (inr _, c2) =>
          let c3 := snd (Atleos.say "Formulario llenado correctamente" "info"
                           (fillEach world (formFields formatDate r) c2)) in
          match Atleos.saveIncident world c3 with
          | (inr _, _) => true
          | (inl _, _) => false
          end
      | (inl _, _) => false
      end
  | _ => false
  end.


(** The task resumptions that fall between two requests, on either server. *)
Definition resumptions (rs : list (nat * nat)) : list (nat * Atleos.event) :=
  map (fun e => (fst e, Atleos.Resume (snd e))) rs.

Definition timerFirings (rs : list (nat * (nat * bool))) : list (nat * Simulated.event) :=
  map (fun e => (fst e, Simulated.Resume (fst (snd e)) (snd (snd e)))) rs.





(** A start request with both credentials and inter-record delay [d]. *)
Definition operator : Atleos.credentials :=
  {| Atleos.username := "operador"; Atleos.password := "secreto" |}.

Definition startBody (d : option N) : Atleos.start_body :=
  {| Atleos.body_credentials := Some operator;
     Atleos.body_config := Some {| Atleos.delay := d |} |}.


(** A process request's configuration, and two pending records. *)
Definition simulatedConfig : Simulated.config :=
  {| Simulated.username := "operador"; Simulated.password := "secreto";
     Simulated.delayBetweenRecords := None |}.

Definition pendingRecord (n : nat) (ncr : string) : Simulated.record :=
  {| Simulated.id := n; Simulated.action := Str "VANDG"; Simulated.ncrId := Str ncr;
     Simulated.startDate := Str ""; Simulated.endDate := Str "";
     Simulated.comment := Str ""; Simulated.status := "pending";
     Simulated.result := None |}.

Definition twoPending : list Simulated.record :=
  [pendingRecord 1 "ATM001"; pendingRecord 2 "ATM002"].




(** A page where every call resolves. *)
Definition allFound (made : list Atleos.call) (k : Atleos.call) : Atleos.response :=
  Atleos.Resolves None.




(** How many of the objects at [ls] have a terminal status. *)
Definition terminalAmong (h : Atleos.store) (ls : list Atleos.loc) : nat :=
  length (List.filter (fun l => Atleos.terminal (Atleos.status (h l))) ls).

(** The release of the browser handle. *)
Definition isClose (k : Atleos.call) : bool :=
  match k with Atleos.BrowserClose => true | _ => false end.

(** How often the browser handle was released. *)
Definition closes (ks : list Atleos.call) : nat := length (List.filter isClose ks).

(** Any call but the release of the browser handle. *)
Definition notClose (k : Atleos.call) : Prop := k <> Atleos.BrowserClose.

(** Whether the browser answers the launch of a new task. *)
Definition launches (world : list Atleos.call -> Atleos.call -> Atleos.response) : bool :=
  match world [] Atleos.Launch with
  | Atleos.Resolves _ => true
  | Atleos.Rejects _ => false
  end.

(** What holds of a runner and the session between two steps of a batch:
    [launched] tells whether its browser was launched. *)
Definition atleosGood (launched : bool) (f : Atleos.frame) : Prop :=
  let '(s, h, t) := f in
  let recs := Atleos.records s in
  match Atleos.place t with
  | Atleos.InInitialize =>
      Atleos.processedRecords s = 0 /\ Atleos.its_calls t = []
      /\ Atleos.its_browser t = false
  | Atleos.InLogin =>
      Atleos.processedRecords s = 0 /\ closes (Atleos.its_calls t) = 0
      /\ Atleos.its_browser t = launched
  | Atleos.InSearch i l | Atleos.InCreate i l =>
      recs !! i = Some l /\ Atleos.currentRecord s = Some l
      /\ Atleos.processedRecords s <= terminalAmong h (take i recs)
      /\ closes (Atleos.its_calls t) = 0 /\ Atleos.its_browser t = launched
  | Atleos.InDelay i l =>
      recs !! i = Some l /\ Atleos.currentRecord s = Some l
      /\ Atleos.processedRecords s <= terminalAmong h (take i recs)
      /\ Atleos.terminal (Atleos.status (h l)) = true
      /\ closes (Atleos.its_calls t) = 0 /\ Atleos.its_browser t = launched
  | Atleos.InClose =>
      Atleos.processedRecords s <= terminalAmong h recs
      /\ closes (Atleos.its_calls t) = 0
      /\ Atleos.its_browser t = true /\ launched = true
  | Atleos.Finished =>
      Atleos.processedRecords s <= terminalAmong h recs
      /\ closes (Atleos.its_calls t) = (if launched then 1 else 0)
      /\ Atleos.its_browser t = launched
      /\ Atleos.isProcessing s = false /\ Atleos.currentRecord s = None
  end.

(** The resumptions the runner still needs, at most, with [n] records. *)
Definition atleosLeft (n : nat) (p : Atleos.suspended) : nat :=
  match p with
  | Atleos.InInitialize => 3 * n + 3
  | Atleos.InLogin => 3 * n + 2
  | Atleos.InSearch i _ => 3 * (n - i) + 1
  | Atleos.InCreate i _ => 3 * (n - i)
  | Atleos.InDelay i _ => 3 * (n - i) - 1
  | Atleos.InClose => 1
  | Atleos.Finished => 0
  end.

(** The steps of one batch run by task [j]: its resumptions, the polls and
    stop requests. *)
Definition atleosBatchStep (j : nat) (e : nat * Atleos.event) : bool :=
  match snd e with
  | Atleos.Resume k => k =? j
  | Atleos.Request Atleos.ProcessingStatus | Atleos.Request Atleos.GetLogs
  | Atleos.Request Atleos.Health | Atleos.Request Atleos.StopProcessing => true
  | _ => false
  end.

(** Task [j] was just spawned by an accepted start request. *)
Definition atleosStarted (sv : Atleos.server) (j : nat) : Prop :=
  exists t, Atleos.tasks sv !! j = Some t
            /\ Atleos.place t = Atleos.InInitialize
            /\ Atleos.its_calls t = [] /\ Atleos.its_browser t = false
            /\ Atleos.processedRecords (Atleos.currentProcessing sv) = 0.

(** [atleosGood] of task [j] and the server's session. *)
Definition atleosHolds (launched : bool) (sv : Atleos.server) (j : nat) : Prop :=
  exists t, Atleos.tasks sv !! j = Some t
            /\ atleosGood launched (Atleos.currentProcessing sv, Atleos.objects sv, t).

(** How many of the steps resume task [j]. *)
Definition resumesOf (j : nat) (evs : list (nat * Atleos.event)) : nat :=
  length (List.filter (fun e => match snd e with
                                | Atleos.Resume k => k =? j
                                | _ => false
                                end) evs).

(** The index and record of the loop body a runner is suspended in. *)
Definition bodyOf (p : Atleos.suspended) : option (nat * Atleos.loc) :=
  match p with
  | Atleos.InSearch i l | Atleos.InCreate i l | Atleos.InDelay i l => Some (i, l)
  | _ => None
  end.


(** How many of the objects at [ls] the simulated runner has settled. *)
Definition settledAmong (h : Simulated.store) (ls : list Simulated.loc) : nat :=
  length (List.filter (fun l => Simulated.terminal (Simulated.status (h l))) ls).

(** What holds of a simulated runner and the state between two steps of a
    batch; [quiet] tells that no stop request was made. *)
Definition simulatedGood (quiet : bool) (f : Simulated.frame) : Prop :=
  let '(s, h, t) := f in
  let recs := Simulated.its_records t in
  (quiet = true -> Simulated.active t = true -> Simulated.isProcessing s = true)
  /\ match Simulated.place t with
     | Simulated.AtLogin => Simulated.processedCount s = 0
     | Simulated.AtSearch i | Simulated.AtCreate i =>
         Simulated.currentRecord s = recs !! i /\ i < length recs
         /\ Simulated.processedCount s = i
         /\ i <= settledAmong h (take i recs)
     | Simulated.AtDelay i =>
         Simulated.currentRecord s = recs !! i /\ i < length recs
         /\ Simulated.processedCount s = i
         /\ S i <= settledAmong h (take (S i) recs)
     | Simulated.Finished =>
         Simulated.isProcessing s = false /\ Simulated.currentRecord s = None
         /\ Simulated.processedCount s = length recs
         /\ (quiet = true -> length recs <= settledAmong h recs)
     end.

(** The timer firings the simulated runner still needs, at most, with [n]
    records. *)
Definition simulatedLeft (n : nat) (p : Simulated.suspended) : nat :=
  match p with
  | Simulated.AtLogin => 3 * n + 1
  | Simulated.AtSearch i => 3 * (n - i)
  | Simulated.AtCreate i => 3 * (n - i) - 1
  | Simulated.AtDelay i => 3 * (n - i) - 2
  | Simulated.Finished => 0
  end.

(** The steps of one batch run by task [j]: its resumptions and the polls,
    and the stop requests unless the run is to be [quiet]. *)
Definition simulatedBatchStep (quiet : bool) (j : nat) (e : nat * Simulated.event) : bool :=
  match snd e with
  | Simulated.Resume k _ => k =? j
  | Simulated.Request Simulated.Status | Simulated.Request Simulated.GetLogs
  | Simulated.Request Simulated.Root => true
  | Simulated.Request Simulated.Stop => negb quiet
  | _ => false
  end.

(** Task [j] was just spawned by an accepted process request. *)
Definition simulatedStarted (sv : Simulated.server) (j : nat) : Prop :=
  exists t, Simulated.tasks sv !! j = Some t
            /\ Simulated.place t = Simulated.AtLogin
            /\ Simulated.isProcessing (Simulated.processingState sv) = true
            /\ Simulated.processedCount (Simulated.processingState sv) = 0.

(** [simulatedGood] of task [j] and the server's state. *)
Definition simulatedHolds (quiet : bool) (sv : Simulated.server) (j : nat) : Prop :=
  exists t, Simulated.tasks sv !! j = Some t
            /\ simulatedGood quiet (Simulated.processingState sv, Simulated.objects sv, t).

(** How many of the steps resume task [j]. *)
Definition firingsOf (j : nat) (evs : list (nat * Simulated.event)) : nat :=
  length (List.filter (fun e => match snd e with
                                | Simulated.Resume k _ => k =? j
                                | _ => false
                                end) evs).

(** The session after three rows were uploaded (two are kept) and a start
    request with inter-record delay [d] was accepted. *)
Definition uploadedAndStarted (d : option N) : Atleos.server :=
  Atleos.run allFound text_of
    [ (0, Atleos.Request (Atleos.UploadExcel (Atleos.Sheet threeRows)));
      (1, Atleos.Request (Atleos.StartProcessing (startBody d))) ]
    Atleos.boot.

(** [n] resumptions of task 0. *)
Definition resumeTimes (n : nat) : list (nat * Atleos.event) :=
  repeat (2, Atleos.Resume 0) n.

(** The simulated server after a process request for two pending records. *)
Definition simulatedStartedTwo : Simulated.server :=
  snd (Simulated.handle 1 (Simulated.Process simulatedConfig twoPending) Simulated.boot).

(** The index of the loop body a simulated runner is suspended in. *)
Definition simulatedBodyOf (p : Simulated.suspended) : option nat :=
  match p with
  | Simulated.AtSearch i | Simulated.AtCreate i | Simulated.AtDelay i => Some i
  | _ => None
  end.

(** Two records are loaded and the batch is started; the stop request
    arrives while the runner is suspended in the search of the first. *)
Definition stoppedInFirstRecord : Atleos.server :=
  Atleos.run allFound text_of
    (resumeTimes 2 ++ [(3, Atleos.Request Atleos.StopProcessing)])
    (uploadedAndStarted None).


(** A page with the buttons to open and save the form and none of its
    fields: a wait of a field's candidate fails, every other call
    resolves. *)
Definition noFields (made : list Atleos.call) (k : Atleos.call) : Atleos.response :=
  match k with
  | Atleos.WaitForSelector s timeout =>
      if N.eqb timeout 3000 && negb (existsb (String.eqb s) Atleos.saveSelectors)
      then Atleos.Rejects "waiting for selector failed"
      else Atleos.Resolves None
  | _ => Atleos.Resolves None
  end.

(** A record with an identifier, two dates and no comment. *)
Definition sampleRecord : Atleos.record :=
  {| Atleos.id := 1; Atleos.tipo := Str "VANDG"; Atleos.idNCR := Str "ATM001";
     Atleos.startDate := Str "2024-01-15 10:00"; Atleos.endDate := Str "2024-01-15 12:00";
     Atleos.comentario := Str ""; Atleos.status := "pending"; Atleos.error := None |}.

(** Whether the browser lets a call resolve. *)
Definition resolves (r : Atleos.response) : bool :=
  match r with Atleos.Resolves _ => true | Atleos.Rejects _ => false end.

(** The calls of [script] made in order after the calls [made], up to the
    first one the browser rejects; with them, the message of that rejection. *)
Fixpoint attempt (world : list Atleos.call -> Atleos.call -> Atleos.response)
  (made script : list Atleos.call) : list Atleos.call * option string :=
  match script with
  | [] => ([], None)
  | k :: rest =>
      match world made k with
      | Atleos.Resolves _ =>
          (k :: fst (attempt world (made ++ [k]) rest),
           snd (attempt world (made ++ [k]) rest))
      | Atleos.Rejects msg => ([k], Some msg)
      end
  end.

(** The driver calls of [initialize], [login] and [searchAndSelectATM], in
    the order the methods await them. *)
Definition initializeScript : list Atleos.call :=
  [ Atleos.Launch; Atleos.NewPage; Atleos.SetViewport 1280 800 ].

Definition loginScript (cred : Atleos.credentials) : list Atleos.call :=
  [ Atleos.Goto "https://vision.dcs.latam.ncr.com/cxp-core-webapp/login";
    Atleos.WaitForSelector Atleos.usernameSelector 10000;
    Atleos.TypeText Atleos.usernameSelector (Atleos.username cred);
    Atleos.TypeText Atleos.passwordSelector (Atleos.password cred);
    Atleos.Click Atleos.submitSelector;
    Atleos.WaitForNavigation 15000 ].

Definition searchScript (idNCR : cell) : list Atleos.call :=
  [ Atleos.WaitForSelector Atleos.searchSelector 10000;
    Atleos.Click Atleos.searchSelector;
    Atleos.SelectAll;
    Atleos.TypeText Atleos.searchSelector (text_of idNCR);
    Atleos.Press "Enter";
    Atleos.WaitForTimeout 3000;
    Atleos.WaitForSelector (Atleos.atmSelector (text_of idNCR)) 10000;
    Atleos.Click (Atleos.atmSelector (text_of idNCR)) ].

(** A call that puts a value into an element of the page. *)
Definition entersValue (k : Atleos.call) : bool :=
  match k with
  | Atleos.Select _ _ | Atleos.TypeText _ _ => true
  | _ => false
  end.

(** How many of the calls [ks], made in order after [made], put a value
    into the page and resolved. *)
Fixpoint entered (world : list Atleos.call -> Atleos.call -> Atleos.response)
  (made ks : list Atleos.call) : nat :=
  match ks with
  | [] => 0
  | k :: rest =>
      (if entersValue k && resolves (world made k) then 1 else 0)
      + entered world (made ++ [k]) rest
  end.

(** The log entry of a field that was filled, and of one that was not found. *)
Definition filledEntry (now : nat) (fieldName value : string) : log_entry :=
  entry now ("Campo " +:+ quoted fieldName +:+ " llenado con: " +:+ value) "info".

Definition notFilledEntry (now : nat) (fieldName : string) : log_entry :=
  entry now ("Advertencia: No se pudo encontrar el campo " +:+ quoted fieldName) "warning".

(** The log entry that announces a created incident. *)
Definition createdEntry (now : nat) (r : Atleos.record) : log_entry :=
  entry now ("Incidente creado exitosamente para " +:+ text_of (Atleos.idNCR r)) "success".

(** [needle] occurs in [s]. *)
Definition occursIn (needle s : string) : Prop :=
  exists before after, s = before +:+ needle +:+ after.




(** A record as the upload leaves it: pending, with no error. *)
Definition untouched (r : Atleos.record) : Prop :=
  Atleos.status r = "pending" /\ Atleos.error r = None.

(** Credentials the start request accepts. *)
Definition usable (cred : Atleos.credentials) : Prop :=
  Atleos.username cred <> "" /\ Atleos.password cred <> "".

(** A configuration the process request accepts. *)
Definition usableConfig (cfg : Simulated.config) : Prop :=
  Simulated.username cfg <> "" /\ Simulated.password cfg <> "".

(** A record marked by lines 422-423: its ATM was not found. *)
Definition searchFailed (r : Atleos.record) : bool :=
  match Atleos.error r with
  | Some e => String.eqb e "No se pudo encontrar el ATM"
  | None => false
  end.

(** How many of the objects at [ls] are marked so. *)
Definition notFoundAmong (h : Atleos.store) (ls : list Atleos.loc) : nat :=
  length (List.filter (fun l => searchFailed (h l)) ls).

(** A record at the end of its loop body: completed with no error text, or
    failed with the text of the search or of the creation. *)
Definition settledWell (r : Atleos.record) : Prop :=
  (Atleos.status r = "completed" /\ Atleos.error r = None)
  \/ (Atleos.status r = "error"
      /\ (Atleos.error r = Some "No se pudo encontrar el ATM"
          \/ Atleos.error r = Some "Error creando incidente")).

(** Two records of the same row: they differ in [status] and [error] at
    most. *)
Definition sameRow (r r' : Atleos.record) : Prop :=
  Atleos.id r = Atleos.id r' /\ Atleos.tipo r = Atleos.tipo r'
  /\ Atleos.idNCR r = Atleos.idNCR r' /\ Atleos.startDate r = Atleos.startDate r'
  /\ Atleos.endDate r = Atleos.endDate r' /\ Atleos.comentario r = Atleos.comentario r'.

(** What holds of a runner that was started on a fresh batch: the records
    behind it are settled, those ahead are as the upload left them, and the
    processed count is the index less the records whose search failed. *)
Definition atleosTally (f : Atleos.frame) : Prop :=
  let '(s, h, t) := f in
  let recs := Atleos.records s in
  NoDup recs
  /\ match Atleos.place t with
     | Atleos.InInitialize | Atleos.InLogin =>
         Atleos.processedRecords s = 0 /\ Forall (fun x => untouched (h x)) recs
     | Atleos.InSearch i l | Atleos.InCreate i l =>
         recs !! i = Some l
         /\ Atleos.processedRecords s + notFoundAmong h (take i recs) = i
         /\ Forall (fun x => settledWell (h x)) (take i recs)
         /\ Forall (fun x => untouched (h x)) (drop i recs)
     | Atleos.InDelay i l =>
         recs !! i = Some l
         /\ Atleos.processedRecords s + notFoundAmong h (take i recs) = i
         /\ searchFailed (h l) = false
         /\ Forall (fun x => settledWell (h x)) (take (S i) recs)
         /\ Forall (fun x => untouched (h x)) (drop (S i) recs)
     | Atleos.InClose | Atleos.Finished =>
         (Atleos.processedRecords s = 0 /\ Forall (fun x => untouched (h x)) recs)
         \/ (Atleos.processedRecords s + notFoundAmong h recs = length recs
             /\ Forall (fun x => settledWell (h x)) recs)
     end.

(** [atleosTally] of task [j] and the server's session. *)
Definition atleosTallies (sv : Atleos.server) (j : nat) : Prop :=
  exists t, Atleos.tasks sv !! j = Some t
            /\ atleosTally (Atleos.currentProcessing sv, Atleos.objects sv, t).

(** A page where every call resolves but the wait for the search result of
    ATM003. *)
Definition withoutATM003 (made : list Atleos.call) (k : Atleos.call) : Atleos.response :=
  match k with
  | Atleos.WaitForSelector s _ =>
      if String.eqb s (Atleos.atmSelector "ATM003")
      then Atleos.Rejects "waiting for selector failed"
      else Atleos.Resolves None
  | _ => Atleos.Resolves None
  end.

(** The runner waits between two records only: with a delay that is neither
    missing nor 0, and a record still to come. *)
Definition atleosWaits (f : Atleos.frame) : Prop :=
  match Atleos.place (snd f) with
  | Atleos.InDelay i _ =>
      (exists c d, Atleos.its_config (snd f) = Some c /\ Atleos.delay c = Some d
                   /\ d <> 0%N)
      /\ S i < length (Atleos.records (fst (fst f)))
  | _ => True
  end.




(** The batch of two was started and its runner resumed three times: it is
    about to create the incident of the first record. *)
Definition creatingTheFirst : Atleos.server :=
  Atleos.run allFound text_of (resumeTimes 3) (uploadedAndStarted None).

(** The record a draw leaves behind (lines 586-594). *)
Definition drawn (success : bool) (r : Simulated.record) : Simulated.record :=
  if success then Simulated.settle "completed" "Evento creado exitosamente" r
  else Simulated.settle "failed" "Error simulado" r.

(** The timer firings of task [j]: each with its clock reading and the draw
    of [Math.random] it brings. *)
Definition firingsFor (j : nat) (fs : list (nat * bool)) : list (nat * Simulated.event) :=
  map (fun f => (fst f, Simulated.Resume j (snd f))) fs.

(** How many timers have fired when a runner of [n] records is at [p], in a
    run without stop. *)
Definition firedAt (n : nat) (p : Simulated.suspended) : nat :=
  match p with
  | Simulated.AtLogin => 0
  | Simulated.AtSearch i => 3 * i + 1
  | Simulated.AtCreate i => 3 * i + 2
  | Simulated.AtDelay i => 3 * i + 3
  | Simulated.Finished => 3 * n + 1
  end.

(** What holds of the runner of the records [rs], allocated from [a] on,
    after the firings [fs] and no stop: record [k] is decided by the draw
    of firing [3 k + 2], the third of its loop body. *)
Definition simulatedDrawn (a : Simulated.loc) (rs : list Simulated.record)
  (fs : list (nat * bool)) (f : Simulated.frame) : Prop :=
  let s := fst (fst f) in
  let h := snd (fst f) in
  let t := snd f in
  Simulated.its_records t = seq a (length rs)
  /\ firedAt (length rs) (Simulated.place t) = length fs
  /\ match Simulated.place t with
     | Simulated.AtLogin => Simulated.isProcessing s = true
     | Simulated.AtSearch i | Simulated.AtCreate i | Simulated.AtDelay i =>
         i < length rs /\ Simulated.isProcessing s = true
     | Simulated.Finished =>
         Simulated.isProcessing s = false /\ Simulated.currentRecord s = None
         /\ Simulated.processedCount s = length rs
     end
  /\ forall k r, rs !! k = Some r ->
       h (a + k) = match fs !! (3 * k + 2) with
                   | Some f => drawn (snd f) r
                   | None => r
                   end.

(** Seven firings for two records: the first is drawn a success, the second
    a failure. *)
Definition sevenFirings : list (nat * bool) :=
  [ (2, true); (3, true); (4, true); (5, true); (6, true); (7, false); (8, true) ].

(** The percentage rounded in exact arithmetic, a tie going up. *)
Definition nearestPercent (processed total : nat) : Z :=
  ((200 * Z.of_nat processed + Z.of_nat total) / (2 * Z.of_nat total))%Z.

(** What is checked of the progress of [processed] records of [total]. *)
Definition percentage (total processed : nat) : bool :=
  let shown := progressOf processed total in
  let exact := nearestPercent processed total in
  (0 <=? shown)%Z
  && (shown <=? 100)%Z
  && (exact - 1 <=? shown)%Z
  && (shown <=? exact)%Z
  && (shown <=? progressOf (S processed) total)%Z
  && (if processed =? total then (shown =? 100)%Z else true)
  && (if processed =? 0 then (shown =? 0)%Z else true).

(** The check for every batch of up to [n] records. *)
Definition percentages (n : nat) : bool :=
  forallb (fun total => forallb (percentage (S total)) (seq 0 (S (S total)))) (seq 0 n).

(** Start two records, let the login timer fire, stop, and let the three
    timers of the first record fire. *)
Definition stoppedAfterTheFirst : list (nat * Simulated.event) :=
  [ (2, Simulated.Resume 0 true); (3, Simulated.Request Simulated.Stop);
    (4, Simulated.Resume 0 true); (5, Simulated.Resume 0 true);
    (6, Simulated.Resume 0 true) ].

(** Any step but the upload of a sheet and the clearing of the data, the
    two that replace the log of the Puppeteer server. *)
Definition atleosKeepsLog (e : nat * Atleos.event) : bool :=
  match snd e with
  | Atleos.Request (Atleos.UploadExcel (Atleos.Sheet _))
  | Atleos.Request Atleos.ClearData => false
  | _ => true
  end.




(** * Properties *)

(** ** The log (C9) *)

Lemma lastN_all {A} n (l : list A) : length l <= n -> lastN n l = l.
Proof. intros H. unfold lastN. replace (length l - n) with 0 by lia. reflexivity. Qed.

Lemma lastN_length {A} n (l : list A) : length (lastN n l) = min n (length l).
Proof. unfold lastN. rewrite length_drop. lia. Qed.

Lemma lastN_app_lastN {A} n (l l' : list A) :
  lastN n (lastN n l ++ l') = lastN n (l ++ l').
Proof.
  destruct (le_lt_dec (length l) n) as [Hle | Hgt].
  - now rewrite (lastN_all n l).
  - unfold lastN. rewrite !length_app, length_drop.
    replace (length l - (length l - n) + length l' - n) with (length l') by lia.
    replace (length l + length l' - n) with ((length l - n) + length l') by lia.
    rewrite <- drop_drop. f_equal.
    rewrite drop_app_le by lia. reflexivity.
Qed.

Lemma simulated_addLog_logs now msg ty s :
  Simulated.logs (Simulated.addLog now msg ty s)
  = lastN 100 (Simulated.logs s ++ [entry now msg ty]).
Proof.
  unfold Simulated.addLog.
  destruct (100 <? length (Simulated.logs s ++ [entry now msg ty])) eqn:E; simpl.
  - reflexivity.
  - apply Nat.ltb_ge in E. now rewrite lastN_all.
Qed.

Lemma emitB_logs es : forall e s,
  Simulated.logs (emitB (e :: es) s) = lastN 100 (Simulated.logs s ++ entries (e :: es)).
Proof.
  induction es as [| e' es IH]; intros [[now msg] ty] s.
  - apply simulated_addLog_logs.
  - change (emitB ((now, msg, ty) :: e' :: es) s)
      with (emitB (e' :: es) (Simulated.addLog now msg ty s)).
    rewrite IH, simulated_addLog_logs, lastN_app_lastN.
    now rewrite <- app_assoc.
Qed.

Lemma emitA_logs es : forall s, Atleos.logs (emitA es s) = Atleos.logs s ++ entries es.
Proof.
  induction es as [| [[now msg] ty] es IH]; intros s; simpl.
  - now rewrite app_nil_r.
  - unfold emitA in IH. rewrite IH. simpl. now rewrite <- app_assoc.
Qed.

(** C9 (amended): the simulated server's log is a ring of capacity 100:
    whatever it held, after some entries were emitted it holds the newest
    100 of the old and new entries in order, the oldest evicted first.  The
    Puppeteer server's log only grows; the bound of 50 is applied by the
    logs endpoint, which returns the newest 50 in order. *)
Theorem log_retention :
  (forall e es s,
      Simulated.logs (emitB (e :: es) s)
      = lastN 100 (Simulated.logs s ++ entries (e :: es)))
  /\ (forall e es s,
      length (Simulated.logs (emitB (e :: es) s))
      = min 100 (length (Simulated.logs s) + S (length es)))
  /\ (forall es s, Atleos.logs (emitA es s) = Atleos.logs s ++ entries es)
  /\ (forall now sv,
      fst (Atleos.handle now Atleos.GetLogs sv)
      = Atleos.LogsAre (lastN 50 (Atleos.logs (Atleos.currentProcessing sv)))).
Proof.
  split; [exact (fun e es s => emitB_logs es e s) |].
  split.
  - intros e es s. rewrite emitB_logs, lastN_length, length_app.
    unfold entries. rewrite length_map. simpl. lia.
  - split; [exact emitA_logs | reflexivity].
Qed.

(** C9 as stated fails: the session log of the Puppeteer server retains every
    entry ever emitted, so no capacity bounds it. *)
Lemma atleos_log_has_no_bound :
  ~ exists bound, forall es,
      bound < length es -> length (Atleos.logs (emitA es Atleos.initial)) = bound.
Proof.
  intros [bound H].
  pose proof (H (repeat (0, "m", "info") (S bound))) as H1.
  rewrite emitA_logs in H1. unfold entries in H1.
  rewrite length_app, length_map, repeat_length in H1. simpl in H1. lia.
Qed.

(** ** The upload (C8) *)

Lemma or_else_empty a : truthy (or_else a (Str "")) = true -> or_else a (Str "") <> Str "".
Proof. intros H E. rewrite E in H. discriminate. Qed.

Lemma atleos_from_row data :
  Forall (fromRow data) (Atleos.uploadedRecords data).
Proof.
  apply Forall_forall. intros r Hr. apply list_elem_of_In in Hr.
  unfold Atleos.uploadedRecords in Hr. apply filter_In in Hr as [Hin Hkeep].
  apply list_elem_of_In, elem_of_lookup_imap in Hin as (i & row & -> & Hrow).
  split; [exact Hkeep |]. split.
  - simpl in *. now apply or_else_empty.
  - exists row. simpl. replace (i + 1 - 1) with i by lia. auto.
Qed.

Lemma atleos_ids_from data : forall k,
  let rs := List.filter (fun r => truthy (Atleos.idNCR r))
                        (imap (fun i => Atleos.rowRecord (k + i)) data) in
  StronglySorted lt (map Atleos.id rs) /\ Forall (fun r => k < Atleos.id r) rs.
Proof.
  induction data as [| row data IH]; intros k; simpl.
  - split; constructor.
  - destruct (IH (S k)) as [Hs Hf].
    rewrite (imap_ext _ (fun i => Atleos.rowRecord (S k + i)))
      by (intros; simpl; f_equal; lia).
    assert (Hf' : Forall (fun r => k < Atleos.id r)
              (List.filter (fun r => truthy (Atleos.idNCR r))
                 (imap (fun i => Atleos.rowRecord (S k + i)) data))).
    { eapply Forall_impl; [exact Hf |]. simpl. intros; lia. }
    destruct (truthy (or_else (row !! "Id NCR") (Str ""))); simpl.
    + split.
      * constructor; [exact Hs |]. apply Forall_map.
        eapply Forall_impl; [exact Hf |]. simpl. intros; lia.
      * constructor; [simpl; lia | exact Hf'].
    + split; assumption.
Qed.

Lemma atleos_ids_sorted data :
  StronglySorted lt (map Atleos.id (Atleos.uploadedRecords data)).
Proof. exact (proj1 (atleos_ids_from data 0)). Qed.

Lemma atleos_allocate_seq h a rs :
  Atleos.allocate h a rs <$> seq a (length rs) = rs.
Proof.
  apply list_eq. intros i. rewrite list_lookup_fmap.
  destruct (rs !! i) as [r |] eqn:E.
  - pose proof (lookup_lt_Some _ _ _ E) as Hlt.
    rewrite (lookup_seq_lt _ _ _ Hlt). simpl. f_equal.
    unfold Atleos.allocate.
    replace ((a <=? a + i) && (a + i <? a + length rs)) with true.
    + replace (a + i - a) with i by lia. rewrite nth_lookup, E. reflexivity.
    + symmetry. apply andb_true_iff. split; [apply Nat.leb_le | apply Nat.ltb_lt]; lia.
  - apply lookup_ge_None in E. rewrite lookup_seq_ge by lia. reflexivity.
Qed.

Lemma simulated_filter_kept rs : forall kept,
  Simulated.filterRecords rs = inr kept ->
  Forall (fun r => r ∈ rs /\ Simulated.keeps r = inr true) kept.
Proof.
  induction rs as [| r rs IH]; simpl; intros kept H.
  - injection H as <-. constructor.
  - destruct (Simulated.keeps r) as [e | k] eqn:Ek; [discriminate |].
    destruct (Simulated.filterRecords rs) as [e | kept'] eqn:Er; [discriminate |].
    injection H as <-.
    assert (Hrest : Forall (fun x => x ∈ r :: rs /\ Simulated.keeps x = inr true) kept').
    { eapply Forall_impl; [exact (IH _ eq_refl) |]. simpl.
      intros x [Hx Hk]. split; [now right | exact Hk]. }
    destruct k; [constructor; [split; [left | exact Ek] |] |]; assumption.
Qed.

Lemma simulated_keeps_nonblank r :
  Simulated.keeps r = inr true ->
  exists s, Simulated.ncrId r = Str s /\ nonblank s = true.
Proof.
  unfold Simulated.keeps. destruct (Simulated.ncrId r) as [s | z | b]; simpl.
  - intros H. injection H as H. apply andb_true_iff in H as [_ H]. eauto.
  - destruct (negb (z =? 0)%Z); discriminate.
  - destruct b; discriminate.
Qed.

Lemma simulated_from_row jsonData kept :
  Simulated.processedData jsonData = inr kept ->
  Forall (fromSheetRow jsonData) kept.
Proof.
  intros H. apply simulated_filter_kept in H.
  eapply Forall_impl; [exact H |]. simpl. intros r [Hin Hk].
  split; [now apply simulated_keeps_nonblank |].
  apply elem_of_lookup_imap in Hin as (i & row & -> & Hrow).
  exists row. simpl. replace (i + 1 - 1) with i by lia. auto.
Qed.

Lemma simulated_ids_from rows : forall k kept,
  Simulated.filterRecords (imap (fun i => Simulated.rowRecord (k + i)) rows) = inr kept ->
  StronglySorted lt (map Simulated.id kept) /\ Forall (fun r => k < Simulated.id r) kept.
Proof.
  induction rows as [| row rows IH]; intros k kept; simpl.
  - intros H. injection H as <-. split; constructor.
  - rewrite (imap_ext _ (fun i => Simulated.rowRecord (S k + i)))
      by (intros; simpl; f_equal; lia).
    destruct (Simulated.keeps _) as [e | keep]; [discriminate |].
    destruct (Simulated.filterRecords _) as [e | kept'] eqn:Er; [discriminate |].
    intros H. injection H as <-.
    destruct (IH (S k) kept' Er) as [Hs Hf].
    assert (Hf' : Forall (fun r => k < Simulated.id r) kept').
    { eapply Forall_impl; [exact Hf |]. simpl. intros; lia. }
    destruct keep.
    + split.
      * simpl. constructor; [exact Hs |]. apply Forall_map.
        eapply Forall_impl; [exact Hf |]. simpl. intros; lia.
      * constructor; [simpl; lia | exact Hf'].
    + split; assumption.
Qed.

(** C8 (amended): no record without an identifier enters the batch; each
    record keeps as [id] the 1-based position of its row in the sheet, so
    the ids ascend but skip the rows that were dropped; the Puppeteer server
    stores the batch and sets [totalRecords] to its length, the simulated
    server returns the batch and its count. *)
Theorem upload_keeps_identified_rows :
  (forall data,
      Forall (fromRow data) (Atleos.uploadedRecords data)
      /\ StronglySorted lt (map Atleos.id (Atleos.uploadedRecords data)))
  /\ (forall now data sv,
      let sv' := snd (Atleos.handle now (Atleos.UploadExcel (Atleos.Sheet data)) sv) in
      fst (Atleos.handle now (Atleos.UploadExcel (Atleos.Sheet data)) sv)
      = Atleos.Uploaded (Atleos.uploadedRecords data)
                        (length (Atleos.uploadedRecords data))
      /\ Atleos.objects sv' <$> Atleos.records (Atleos.currentProcessing sv')
         = Atleos.uploadedRecords data
      /\ Atleos.totalRecords (Atleos.currentProcessing sv')
         = length (Atleos.uploadedRecords data))
  /\ (forall now jsonData sv,
      match Simulated.processedData jsonData with
      | inr kept =>
          Forall (fromSheetRow jsonData) kept
          /\ StronglySorted lt (map Simulated.id kept)
          /\ fst (Simulated.handle now (Simulated.Upload (Simulated.Sheet jsonData)) sv)
             = Simulated.Uploaded kept (length kept)
      | inl _ => True
      end).
Proof.
  split; [intros data; split; [apply atleos_from_row | apply atleos_ids_sorted] |].
  split.
  - intros now data sv. simpl. split; [reflexivity |].
    split; [apply atleos_allocate_seq | reflexivity].
  - intros now jsonData sv.
    destruct (Simulated.processedData jsonData) as [e | kept] eqn:E; [exact I |].
    split; [now apply simulated_from_row |]. split.
    + unfold Simulated.processedData in E.
      exact (proj1 (simulated_ids_from (tail jsonData) 0 kept E)).
    + simpl. rewrite E. reflexivity.
Qed.

(** C8 as stated fails: of three rows where the second has no identifier the
    two records kept carry the ids 1 and 3, not 1 and 2. *)
Lemma upload_ids_are_row_positions :
  map Atleos.id (Atleos.uploadedRecords threeRows) = [1; 3]
  /\ Atleos.totalRecords (Atleos.currentProcessing
       (snd (Atleos.handle 0 (Atleos.UploadExcel (Atleos.Sheet threeRows)) Atleos.boot))) = 2
  /\ match Simulated.processedData threeRowsUnderHeader with
     | inr kept => map Simulated.id kept = [1; 3]
     | inl _ => False
     end.
Proof. split; [reflexivity | split; reflexivity]. Qed.

(** ** The driver methods: what they leave alone *)

Section DriverFacts.

Import Atleos.
Variable world : list call -> call -> response.

Lemma keeps_ret {A} P (a : A) : keeps P (ret a).
Proof.
  intros c. simpl. repeat split; [exists [] | exists []]; 
    rewrite ?app_nil_r; auto.
Qed.

Lemma keeps_throw {A} P msg : keeps P (@throw A msg).
Proof.
  intros c. simpl. repeat split; [exists [] | exists []];
    rewrite ?app_nil_r; auto.
Qed.

Lemma keeps_say P msg ty : keeps P (say msg ty).
Proof.
  intros c. simpl. repeat split; [eexists; reflexivity | exists []].
  rewrite app_nil_r. auto.
Qed.

Lemma keeps_perform (P : call -> Prop) k : P k -> keeps P (perform world k).
Proof.
  intros Hk c. unfold perform. 
  destruct (world (calls c) k); simpl;
    (repeat split; [exists []; now rewrite app_nil_r | exists [k]; auto]).
Qed.

Lemma keeps_bind {A B} P (m : driver A) (k : A -> driver B) :
  keeps P m -> (forall a, keeps P (k a)) -> keeps P (bind m k).
Proof.
  intros Hm Hk c. unfold bind.
  destruct (Hm c) as (Hc & Hb & [said Hs] & [made [Hmade HP]]).
  destruct (m c) as [[e | a] c1]; simpl in *.
  - repeat split; eauto.
  - destruct (Hk a c1) as (Hc' & Hb' & [said' Hs'] & [made' [Hmade' HP']]).
    repeat split; try congruence.
    + exists (said ++ said'). rewrite Hs', Hs. now rewrite app_assoc.
    + exists (made ++ made'). rewrite Hmade', Hmade, app_assoc.
      split; [reflexivity | now apply Forall_app].
Qed.

Lemma keeps_try_catch {A} P (m : driver A) (h : string -> driver A) :
  keeps P m -> (forall e, keeps P (h e)) -> keeps P (try_catch m h).
Proof.
  intros Hm Hh c. unfold try_catch.
  destruct (Hm c) as (Hc & Hb & [said Hs] & [made [Hmade HP]]).
  destruct (m c) as [[e | a] c1]; simpl in *.
  - destruct (Hh e c1) as (Hc' & Hb' & [said' Hs'] & [made' [Hmade' HP']]).
    repeat split; try congruence.
    + exists (said ++ said'). rewrite Hs', Hs. now rewrite app_assoc.
    + exists (made ++ made'). rewrite Hmade', Hmade, app_assoc.
      split; [reflexivity | now apply Forall_app].
  - repeat split; eauto.
Qed.

Lemma keeps_mono {A} (P Q : call -> Prop) (m : driver A) :
  (forall k, P k -> Q k) -> keeps P m -> keeps Q m.
Proof.
  intros HPQ Hm c. destruct (Hm c) as (Hc & Hb & Hs & [made [Hmade HP]]).
  repeat split; auto. exists made. split; [exact Hmade |].
  eapply Forall_impl; eauto.
Qed.

Lemma keeps_if {A} P (b : bool) (m1 m2 : driver A) :
  keeps P m1 -> keeps P m2 -> keeps P (if b then m1 else m2).
Proof. now destruct b. Qed.

Lemma keeps_firstSelector P body selectors :
  (forall s, s ∈ selectors -> keeps P (body s)) ->
  keeps P (firstSelector body selectors).
Proof.
  induction selectors as [| s rest IH]; intros Hbody; simpl.
  - apply keeps_ret.
  - apply keeps_bind.
    + apply keeps_try_catch.
      * apply keeps_bind; [apply Hbody; left | intros; apply keeps_ret].
      * intros; apply keeps_ret.
    + intros [|]; [apply keeps_ret |].
      apply IH. intros s' Hs'. apply Hbody. now right.
Qed.

End DriverFacts.

Ltac frame_step :=
  first
    [ apply keeps_firstSelector
    | apply keeps_ret | apply keeps_throw | apply keeps_say
    | apply keeps_bind | apply keeps_try_catch | apply keeps_if
    | apply keeps_perform
    | match goal with
      | |- keeps _ (match ?x with _ => _ end) => destruct x
      | |- forall _, _ => intro
      end ].

Ltac frame := repeat frame_step.

Section SelectorFacts.

Import Atleos.
Variable world : list call -> call -> response.








End SelectorFacts.



(** ** The form filler (C6) *)

Section FormFacts.

Import Atleos.
Variable world : list call -> call -> response.
Variable formatDate : cell -> string.

Lemma bind_returned {A B} (m : driver A) (k : A -> driver B) c a :
  fst (m c) = inr a -> bind m k c = k a (snd (m c)).
Proof. unfold bind. destruct (m c) as [[e | a'] c']; simpl; congruence. Qed.

Lemma fillFieldWith_returns selectors fieldName value c :
  fst (fillFieldWith world selectors fieldName value c) = inr tt.
Proof.
  unfold fillFieldWith, try_catch.
  destruct (bind _ _ c) as [[e | []] c']; reflexivity.
Qed.

Lemma fillField_returns fieldName value c :
  fst (fillField world fieldName value c) = inr tt.
Proof. apply fillFieldWith_returns. Qed.

Lemma fillDateField_is_fillField fieldName d c :
  fillDateField world formatDate fieldName d c
  = fillField world fieldName (formatDate d) c.
Proof.
  unfold fillDateField, try_catch.
  pose proof (fillField_returns fieldName (formatDate d) c) as H.
  destruct (fillField world fieldName (formatDate d) c) as [[e | []] c'];
    simpl in H; [discriminate | reflexivity].
Qed.

Lemma fillField_run fieldName value c :
  fillField world fieldName value c = (inr tt, snd (fillField world fieldName value c)).
Proof.
  pose proof (fillField_returns fieldName value c) as H.
  destruct (fillField world fieldName value c) as [r c']. simpl in *. now subst.
Qed.

Lemma fillIncidentForm_fills_each r c :
  fillIncidentForm world formatDate r c
  = (inr tt,
     snd (say "Formulario llenado correctamente" "info"
            (fillEach world (formFields formatDate r) c))).
Proof.
  unfold fillIncidentForm, try_catch.
  rewrite (bind_returned _ _ c tt) by apply fillField_returns.
  rewrite (bind_returned _ _ _ tt)
    by (rewrite fillDateField_is_fillField; apply fillField_returns).
  rewrite (bind_returned _ _ _ tt)
    by (rewrite fillDateField_is_fillField; apply fillField_returns).
  rewrite !fillDateField_is_fillField.
  unfold formFields, fillEach.
  destruct (truthy (comentario r)); simpl.
  - rewrite (bind_returned _ _ _ tt) by apply fillField_returns.
    rewrite (bind_returned _ _ _ tt) by apply fillField_returns.
    reflexivity.
  - unfold ret at 1. unfold bind at 1. simpl.
    rewrite (bind_returned _ _ _ tt) by apply fillField_returns.
    reflexivity.
Qed.


Lemma createIncident_hardSteps r c :
  fst (createIncident world formatDate r c) = inr (hardSteps world formatDate r c).
Proof.
  unfold createIncident, hardSteps, try_catch.
  rewrite (bind_returned _ _ c tt) by reflexivity. cbv zeta.
  unfold bind at 1.
  destruct (firstSelector _ _ _) as [[e | [won |]] c1]; [reflexivity | | reflexivity].
  unfold bind at 1, ret at 1. unfold bind at 1.
  destruct (perform world (WaitForTimeout 2000) c1) as [[e | w] c2]; [reflexivity |].
  unfold bind at 1. rewrite fillIncidentForm_fills_each.
  unfold bind at 1.
  destruct (saveIncident world _) as [[e | []] c4]; reflexivity.
Qed.






End FormFacts.



(** With every field missing the incident is still created: four warnings,
    one per field of the form, then the save. *)
Example form_without_fields_is_saved :
  let '(r, c) := Atleos.createIncident noFields text_of sampleRecord emptyCtx in
  r = inr true
  /\ map message (List.filter (fun e => String.eqb (type e) "warning") (Atleos.log c))
     = [ "Advertencia: No se pudo encontrar el campo " +:+ quoted "Status Code";
         "Advertencia: No se pudo encontrar el campo " +:+ quoted "Start Date";
         "Advertencia: No se pudo encontrar el campo " +:+ quoted "End Date";
         "Advertencia: No se pudo encontrar el campo " +:+ quoted "Action Code" ]
  /\ last (map message (Atleos.log c)) = Some "Incidente creado exitosamente para ATM001".
Proof. vm_compute. repeat split; reflexivity. Qed.

(** ** Stopping (C10) *)

Lemma atleos_invoke_eq {A} now (m : Atleos.driver A) s t :
  Atleos.invoke now m s t
  = let c := snd (m {| Atleos.clock := now; Atleos.log := Atleos.logs s;
                       Atleos.browser := Atleos.its_browser t;
                       Atleos.calls := Atleos.its_calls t |}) in
    (fst (m {| Atleos.clock := now; Atleos.log := Atleos.logs s;
               Atleos.browser := Atleos.its_browser t;
               Atleos.calls := Atleos.its_calls t |}),
     Atleos.with_logs (Atleos.log c) s,
     {| Atleos.its_credentials := Atleos.its_credentials t;
        Atleos.its_config := Atleos.its_config t;
        Atleos.its_browser := Atleos.browser c;
        Atleos.its_calls := Atleos.calls c;
        Atleos.place := Atleos.place t |}).
Proof. unfold Atleos.invoke. now destruct (m _). Qed.

Ltac split_paths :=
  repeat match goal with
         | |- context [match ?x with _ => _ end] =>
             let E := fresh "E" in destruct x eqn:E; simpl in *
         | |- context [if ?x then _ else _] =>
             let E := fresh "E" in destruct x eqn:E; simpl in *
         end.

(** Unfold one resumption of [processRecords] into its paths. *)
Ltac atleos_paths :=
  unfold Atleos.processRecords;
  match goal with
  | |- context [Atleos.place ?t] =>
      let E := fresh "Eplace" in destruct (Atleos.place t) eqn:E
  end;
  rewrite ?atleos_invoke_eq; cbv zeta;
  unfold Atleos.caught, Atleos.notFound, Atleos.created,
    Atleos.fatal, Atleos.endOfBody, Atleos.iteration, Atleos.finally;
  simpl; split_paths.

(** Unfold one resumption of [simulateAptraProcessing] into its paths. *)
Ltac simulated_paths :=
  unfold Simulated.simulateAptraProcessing, Simulated.decided, Simulated.iteration;
  simpl; split_paths.

Section AtleosStop.

Variable world : list Atleos.call -> Atleos.call -> Atleos.response.
Variable formatDate : cell -> string.

Lemma atleos_resume_stays_stopped now s h t :
  Atleos.isProcessing s = false ->
  Atleos.isProcessing (fst (fst (Atleos.processRecords world formatDate now (s, h, t)))) = false.
Proof. intros H. atleos_paths; auto. Qed.

Lemma atleos_resumeTask_stays_stopped now j sv :
  Atleos.isProcessing (Atleos.currentProcessing sv) = false ->
  Atleos.isProcessing
    (Atleos.currentProcessing (Atleos.resumeTask world formatDate now j sv)) = false.
Proof.
  intros H. unfold Atleos.resumeTask.
  destruct (Atleos.tasks sv !! j) as [t |]; [| exact H].
  pose proof (atleos_resume_stays_stopped now _ (Atleos.objects sv) t H) as H'.
  destruct (Atleos.processRecords _ _ _ _) as [[s' h'] t']. exact H'.
Qed.

Lemma atleos_resumptions_stay_stopped rs : forall sv,
  Atleos.isProcessing (Atleos.currentProcessing sv) = false ->
  Atleos.isProcessing
    (Atleos.currentProcessing (Atleos.run world formatDate (resumptions rs) sv)) = false.
Proof.
  induction rs as [| [now j] rs IH]; intros sv H; [exact H |].
  simpl. apply IH. now apply atleos_resumeTask_stays_stopped.
Qed.

End AtleosStop.

Lemma simulated_addLog_isProcessing now msg ty s :
  Simulated.isProcessing (Simulated.addLog now msg ty s) = Simulated.isProcessing s.
Proof. unfold Simulated.addLog. now destruct (100 <? _). Qed.

Lemma simulated_addLog_currentRecord now msg ty s :
  Simulated.currentRecord (Simulated.addLog now msg ty s) = Simulated.currentRecord s.
Proof. unfold Simulated.addLog. now destruct (100 <? _). Qed.

Lemma simulated_addLog_processedCount now msg ty s :
  Simulated.processedCount (Simulated.addLog now msg ty s) = Simulated.processedCount s.
Proof. unfold Simulated.addLog. now destruct (100 <? _). Qed.

Lemma simulated_addLog_totalCount now msg ty s :
  Simulated.totalCount (Simulated.addLog now msg ty s) = Simulated.totalCount s.
Proof. unfold Simulated.addLog. now destruct (100 <? _). Qed.

#[local] Arguments Simulated.addLog : simpl never.

Create Rewrite HintDb simulated.
#[local] Hint Rewrite simulated_addLog_isProcessing simulated_addLog_currentRecord
  simulated_addLog_processedCount simulated_addLog_totalCount : simulated.

Lemma simulated_resume_stays_stopped now success s h t :
  Simulated.isProcessing s = false ->
  Simulated.isProcessing (fst (fst (Simulated.simulateAptraProcessing now success (s, h, t)))) = false.
Proof.
  intros H. simulated_paths; autorewrite with simulated in *; simpl in *; congruence.
Qed.

Lemma simulated_resumeTask_stays_stopped now j success sv :
  Simulated.isProcessing (Simulated.processingState sv) = false ->
  Simulated.isProcessing
    (Simulated.processingState (Simulated.resumeTask now j success sv)) = false.
Proof.
  intros H. unfold Simulated.resumeTask.
  destruct (Simulated.tasks sv !! j) as [t |]; [| exact H].
  pose proof (simulated_resume_stays_stopped now success _ (Simulated.objects sv) t H) as H'.
  destruct (Simulated.simulateAptraProcessing _ _ _) as [[s' h'] t']. exact H'.
Qed.

Lemma simulated_firings_stay_stopped rs : forall sv,
  Simulated.isProcessing (Simulated.processingState sv) = false ->
  Simulated.isProcessing
    (Simulated.processingState (Simulated.run (timerFirings rs) sv)) = false.
Proof.
  induction rs as [| [now [j success]] rs IH]; intros sv H; [exact H |].
  simpl. apply IH. now apply simulated_resumeTask_stays_stopped.
Qed.

(** C10: the stop handler clears [isProcessing] before it answers, and no
    resumption of a background task sets it again: a status request that
    follows the stop reads [false], however many resumptions of whichever
    tasks fell in between. *)
Theorem stop_is_seen_by_the_next_poll :
  (forall world formatDate now sv rs now',
      let stopped := Atleos.handle now Atleos.StopProcessing sv in
      fst stopped = Atleos.Stopped
      /\ Atleos.isProcessing (Atleos.currentProcessing (snd stopped)) = false
      /\ exists current total processed records,
          fst (Atleos.handle now' Atleos.ProcessingStatus
                 (Atleos.run world formatDate (resumptions rs) (snd stopped)))
          = Atleos.StatusIs false current total processed records)
  /\ (forall now sv rs now',
      let stopped := Simulated.handle now Simulated.Stop sv in
      fst stopped = Simulated.Stopped
      /\ Simulated.isProcessing (Simulated.processingState (snd stopped)) = false
      /\ exists current processed total logs,
          fst (Simulated.handle now' Simulated.Status
                 (Simulated.run (timerFirings rs) (snd stopped)))
          = Simulated.StatusIs false current processed total logs).
Proof.
  split.
  - intros world formatDate now sv rs now'. cbv zeta.
    split; [reflexivity |]. split; [reflexivity |].
    unfold Atleos.handle at 1, Atleos.processingStatus. simpl fst.
    rewrite atleos_resumptions_stay_stopped by reflexivity.
    do 4 eexists. reflexivity.
  - intros now sv rs now'. cbv zeta.
    assert (Hs : Simulated.isProcessing
                   (Simulated.processingState (snd (Simulated.handle now Simulated.Stop sv)))
                 = false).
    { simpl. now rewrite simulated_addLog_isProcessing. }
    split; [reflexivity |]. split; [exact Hs |].
    unfold Simulated.handle at 1. simpl fst.
    rewrite simulated_firings_stay_stopped by exact Hs.
    do 4 eexists. reflexivity.
Qed.

(** ** One batch at a time (C3) *)




Section AtleosSingle.

Variable world : list Atleos.call -> Atleos.call -> Atleos.response.
Variable formatDate : cell -> string.


Lemma atleos_resume_finished now s h t :
  Atleos.active t = false -> Atleos.processRecords world formatDate now (s, h, t) = (s, h, t).
Proof.
  unfold Atleos.active, Atleos.processRecords. now destruct (Atleos.place t).
Qed.



End AtleosSingle.


Lemma simulated_resume_finished now success s h t :
  Simulated.active t = false -> Simulated.simulateAptraProcessing now success (s, h, t) = (s, h, t).
Proof.
  unfold Simulated.active, Simulated.simulateAptraProcessing. now destruct (Simulated.place t).
Qed.








(** ** A batch under processRecords *)

Lemma terminalAmong_app h l1 l2 :
  terminalAmong h (l1 ++ l2) = terminalAmong h l1 + terminalAmong h l2.
Proof. unfold terminalAmong. now rewrite List.filter_app, length_app. Qed.

Lemma terminalAmong_take_le h i ls : terminalAmong h (take i ls) <= terminalAmong h ls.
Proof.
  rewrite <- (take_drop i ls) at 2. rewrite terminalAmong_app. lia.
Qed.

Lemma terminalAmong_take_mono h i j ls :
  i <= j -> terminalAmong h (take i ls) <= terminalAmong h (take j ls).
Proof.
  intros H. replace (take i ls) with (take i (take j ls)).
  - apply terminalAmong_take_le.
  - rewrite take_take. f_equal. lia.
Qed.

Lemma terminalAmong_take_S h i ls l :
  ls !! i = Some l ->
  terminalAmong h (take (S i) ls)
  = terminalAmong h (take i ls)
    + (if Atleos.terminal (Atleos.status (h l)) then 1 else 0).
Proof.
  intros H. rewrite (take_S_r _ _ _ H), terminalAmong_app.
  unfold terminalAmong. simpl. now destruct (Atleos.terminal _).
Qed.

(** Writing a terminal status into an object loses no terminal record. *)
Lemma terminalAmong_update h l g ls :
  Atleos.terminal (Atleos.status (g (h l))) = true ->
  terminalAmong h ls <= terminalAmong (Atleos.update h l g) ls.
Proof.
  intros Hg. unfold terminalAmong. induction ls as [| x ls IH]; simpl; [lia |].
  unfold Atleos.update at 1. destruct (x =? l) eqn:E.
  - apply Nat.eqb_eq in E. subst x. rewrite Hg.
    destruct (Atleos.terminal (Atleos.status (h l))); simpl; lia.
  - destruct (Atleos.terminal (Atleos.status (h x))); simpl; lia.
Qed.

Lemma closes_app ks ks' : closes (ks ++ ks') = closes ks + closes ks'.
Proof. unfold closes. now rewrite List.filter_app, length_app. Qed.

Lemma closes_none ks : Forall (fun k => k <> Atleos.BrowserClose) ks -> closes ks = 0.
Proof.
  induction 1 as [| k ks Hk _ IH]; [reflexivity |].
  unfold closes in *. simpl. destruct k; simpl; auto. congruence.
Qed.

Section MethodsAndClose.

Import Atleos.
Variable world : list call -> call -> response.
Variable formatDate : cell -> string.

Ltac no_close := frame; try (unfold notClose; discriminate).

Lemma login_keeps cred : keeps notClose (login world cred).
Proof. unfold login. no_close. Qed.

Lemma search_keeps idn : keeps notClose (searchAndSelectATM world idn).
Proof. unfold searchAndSelectATM. no_close. Qed.

Lemma fillField_keeps fieldName value : keeps notClose (fillField world fieldName value).
Proof. unfold fillField, fillFieldWith. no_close. Qed.

Lemma createIncident_keeps r : keeps notClose (createIncident world formatDate r).
Proof.
  unfold createIncident, saveIncident, saveIncidentWith, fillIncidentForm, fillDateField.
  frame; try apply fillField_keeps; try (unfold notClose; discriminate).
Qed.

Lemma keeps_closes {A} (m : driver A) c :
  keeps notClose m ->
  closes (calls (snd (m c))) = closes (calls c) /\ browser (snd (m c)) = browser c.
Proof.
  intros H. destruct (H c) as (_ & Hb & _ & [made [Hm HP]]).
  split; [| exact Hb]. rewrite Hm, closes_app, (closes_none made HP). lia.
Qed.

End MethodsAndClose.

Lemma terminalAmong_mono h h' ls :
  (forall x, Atleos.terminal (Atleos.status (h x)) = true ->
             Atleos.terminal (Atleos.status (h' x)) = true) ->
  terminalAmong h ls <= terminalAmong h' ls.
Proof.
  intros Hm. unfold terminalAmong. induction ls as [| x ls IH]; simpl; [lia |].
  specialize (Hm x).
  destruct (Atleos.terminal (Atleos.status (h x)));
    [rewrite Hm by reflexivity; simpl; lia |].
  destruct (Atleos.terminal (Atleos.status (h' x))); simpl; lia.
Qed.

(** The three writes of the loop body, as seen from any object. *)
Lemma failed_write h l msg x :
  Atleos.status (Atleos.update (Atleos.update h l (Atleos.with_status "error")) l
                               (Atleos.with_error msg) x)
  = if x =? l then "error" else Atleos.status (h x).
Proof. unfold Atleos.update. now destruct (x =? l). Qed.

Lemma completed_write h l x :
  Atleos.status (Atleos.update h l (Atleos.with_status "completed") x)
  = if x =? l then "completed" else Atleos.status (h x).
Proof. unfold Atleos.update. now destruct (x =? l). Qed.

Section AtleosBatch.

Variable world : list Atleos.call -> Atleos.call -> Atleos.response.
Variable formatDate : cell -> string.

Local Abbreviation launched := (launches world).

Lemma initialize_launches c :
  Atleos.calls c = [] -> Atleos.browser c = false ->
  Atleos.browser (snd (Atleos.initialize world c)) = launched
  /\ closes (Atleos.calls (snd (Atleos.initialize world c))) = 0.
Proof.
  intros Hc Hb. unfold launched, launches, Atleos.initialize, Atleos.bind,
    Atleos.perform, Atleos.say. simpl. rewrite Hc.
  destruct (world [] Atleos.Launch); simpl; [| now rewrite Hb].
  destruct (world _ Atleos.NewPage); simpl; [| split; reflexivity].
  destruct (world _ (Atleos.SetViewport _ _)); simpl; split; reflexivity.
Qed.

Lemma good_finally s h t :
  Atleos.processedRecords s <= terminalAmong h (Atleos.records s) ->
  closes (Atleos.its_calls t) = 0 -> Atleos.its_browser t = launched ->
  atleosGood launched (Atleos.finally (s, h, t)).
Proof.
  intros HP Hc Hb. unfold Atleos.finally.
  destruct (Atleos.its_browser t) eqn:E; simpl.
  - repeat split; auto.
  - rewrite <- Hb, Hc. repeat split; auto.
Qed.

Lemma good_iteration now i s h t :
  Atleos.processedRecords s <= terminalAmong h (take i (Atleos.records s)) ->
  closes (Atleos.its_calls t) = 0 -> Atleos.its_browser t = launched ->
  atleosGood launched (Atleos.iteration now i (s, h, t)).
Proof.
  intros HP Hc Hb. unfold Atleos.iteration.
  destruct (Atleos.records s !! i) as [l |] eqn:E.
  - simpl. repeat split; auto.
  - apply good_finally; auto. simpl.
    pose proof (terminalAmong_take_le h i (Atleos.records s)). lia.
Qed.

Lemma good_endOfBody now i l s h t :
  Atleos.records s !! i = Some l ->
  Atleos.terminal (Atleos.status (h l)) = true ->
  Atleos.processedRecords s <= terminalAmong h (take i (Atleos.records s)) ->
  closes (Atleos.its_calls t) = 0 -> Atleos.its_browser t = launched ->
  atleosGood launched (Atleos.endOfBody now i (s, h, t)).
Proof.
  intros Hl HT HP Hc Hb. unfold Atleos.endOfBody.
  apply good_iteration; auto. simpl.
  rewrite (terminalAmong_take_S h i _ l Hl), HT. lia.
Qed.

Lemma good_fatal now msg s h t :
  Atleos.processedRecords s <= terminalAmong h (Atleos.records s) ->
  closes (Atleos.its_calls t) = 0 -> Atleos.its_browser t = launched ->
  atleosGood launched (Atleos.fatal now msg (s, h, t)).
Proof. intros. unfold Atleos.fatal. now apply good_finally. Qed.

Lemma good_after_write now i l s1 h1 t :
  Atleos.records s1 !! i = Some l ->
  Atleos.currentRecord s1 = Some l ->
  Atleos.terminal (Atleos.status (h1 l)) = true ->
  Atleos.processedRecords s1 <= terminalAmong h1 (take i (Atleos.records s1)) ->
  closes (Atleos.its_calls t) = 0 -> Atleos.its_browser t = launched ->
  atleosGood launched
    match Atleos.delayOf (Atleos.its_config t) with
    | Some d =>
        if S i <? length (Atleos.records s1)
        then (Atleos.addLog now
                ("Esperando " +:+ NilZero.string_of_uint (N.to_uint d)
                 +:+ "ms antes del siguiente registro...") "info" s1,
              h1, Atleos.at_place (Atleos.InDelay i l) t)
        else Atleos.endOfBody now i (s1, h1, t)
    | None => Atleos.endOfBody now i (s1, h1, t)
    end.
Proof.
  intros Hl Hcur HT HP Hc Hb.
  assert (Hend : atleosGood launched (Atleos.endOfBody now i (s1, h1, t)))
    by (apply (good_endOfBody now i l); auto).
  destruct (Atleos.delayOf (Atleos.its_config t)) as [d |]; [| exact Hend].
  destruct (S i <? length (Atleos.records s1)); [| exact Hend].
  simpl. repeat split; auto.
Qed.

Lemma good_created now i l ok s h t :
  Atleos.records s !! i = Some l ->
  Atleos.currentRecord s = Some l ->
  Atleos.processedRecords s <= terminalAmong h (take i (Atleos.records s)) ->
  closes (Atleos.its_calls t) = 0 -> Atleos.its_browser t = launched ->
  atleosGood launched (Atleos.created now i l ok (s, h, t)).
Proof.
  intros Hl Hcur HP Hc Hb. unfold Atleos.created.
  destruct ok; cbv beta iota zeta; apply good_after_write; simpl; auto.
  - rewrite completed_write, Nat.eqb_refl. reflexivity.
  - etransitivity; [exact HP |]. apply terminalAmong_mono. intros x Hx.
    rewrite completed_write. now destruct (x =? l).
  - rewrite failed_write, Nat.eqb_refl. reflexivity.
  - etransitivity; [exact HP |]. apply terminalAmong_mono. intros x Hx.
    rewrite failed_write. now destruct (x =? l).
Qed.

Lemma atleos_resume_good now s h t :
  atleosGood launched (s, h, t) ->
  atleosGood launched (Atleos.processRecords world formatDate now (s, h, t)).
Proof.
  unfold atleosGood at 1, Atleos.processRecords.
  destruct (Atleos.place t) as [| | i l | i l | i l | |] eqn:Ep;
    rewrite ?atleos_invoke_eq; cbv zeta.
  - intros (HP & Hc & Hb).
    match goal with |- context [Atleos.initialize world ?c] =>
      destruct (initialize_launches c Hc Hb) as [Hb' Hc'];
      destruct (Atleos.initialize world c) as [[e | []] c'] end; cbn [fst snd] in *.
    + apply good_fatal; simpl; auto; lia.
    + simpl. auto.
  - intros (HP & Hc & Hb).
    match goal with |- context [Atleos.login world ?cred ?c] =>
      destruct (keeps_closes (Atleos.login world cred) c (login_keeps world cred))
        as [Hc' Hb'];
      destruct (Atleos.login world cred c) as [[e | [|]] c'] end;
      cbn [fst snd] in *; simpl in Hc', Hb'; rewrite Hc in Hc'; rewrite Hb in Hb'.
    + apply good_fatal; simpl; auto; lia.
    + apply good_iteration; simpl; auto; lia.
    + apply good_fatal; simpl; auto; lia.
  - intros (Hl & Hcur & HP & Hc & Hb).
    match goal with |- context [Atleos.searchAndSelectATM world ?idn ?c] =>
      destruct (keeps_closes (Atleos.searchAndSelectATM world idn) c
                  (search_keeps world idn)) as [Hc' Hb'];
      destruct (Atleos.searchAndSelectATM world idn c) as [[e | [|]] c'] end;
      cbn [fst snd] in *; simpl in Hc', Hb'; rewrite Hc in Hc'; rewrite Hb in Hb'.
    + unfold Atleos.caught. apply (good_endOfBody now i l); simpl; auto.
      * rewrite failed_write, Nat.eqb_refl. reflexivity.
      * etransitivity; [exact HP |]. apply terminalAmong_mono. intros x Hx.
        rewrite failed_write. now destruct (x =? l).
    + simpl. auto.
    + unfold Atleos.notFound.
      match goal with |- context [Atleos.iteration _ _ (_, ?h', _)] =>
        assert (Hle : Atleos.processedRecords s
                      <= terminalAmong h' (take (S i) (Atleos.records s))) end.
      { etransitivity; [exact HP |].
        etransitivity; [| apply (terminalAmong_take_mono _ i (S i)); lia].
        apply terminalAmong_mono. intros x Hx.
        rewrite failed_write. now destruct (x =? l). }
      apply good_iteration; try exact Hle; simpl; auto.
  - intros (Hl & Hcur & HP & Hc & Hb).
    match goal with |- context [Atleos.createIncident world formatDate ?r ?c] =>
      destruct (keeps_closes (Atleos.createIncident world formatDate r) c
                  (createIncident_keeps world formatDate r)) as [Hc' Hb'];
      destruct (Atleos.createIncident world formatDate r c) as [[e | ok] c'] end;
      cbn [fst snd] in *; simpl in Hc', Hb'; rewrite Hc in Hc'; rewrite Hb in Hb'.
    + unfold Atleos.caught. apply (good_endOfBody now i l); simpl; auto.
      * rewrite failed_write, Nat.eqb_refl. reflexivity.
      * etransitivity; [exact HP |]. apply terminalAmong_mono. intros x Hx.
        rewrite failed_write. now destruct (x =? l).
    + apply good_created; simpl; auto.
  - intros (Hl & Hcur & HP & HT & Hc & Hb).
    apply (good_endOfBody now i l); auto.
  - intros (HP & Hc & Hb & HL).
    unfold Atleos.close. simpl. rewrite Hb. simpl.
    rewrite closes_app, Hc, HL. simpl. repeat split; auto.
  - intros H. unfold atleosGood. rewrite Ep. exact H.
Qed.

Lemma good_stop now msg ty s h t :
  atleosGood launched (s, h, t) ->
  atleosGood launched (Atleos.addLog now msg ty (Atleos.with_isProcessing false s), h, t).
Proof.
  unfold atleosGood. destruct (Atleos.place t); simpl; tauto.
Qed.

Lemma atleos_step_holds j sv e :
  atleosBatchStep j e = true ->
  atleosHolds launched sv j ->
  atleosHolds launched (Atleos.step world formatDate sv e) j.
Proof.
  destruct e as [now [r | k]]; unfold atleosBatchStep; simpl;
    intros He (t & Ht & Hgood).
  - destruct r; try discriminate; simpl; try (exists t; split; assumption).
    exists t. split; [exact Ht | now apply good_stop].
  - apply Nat.eqb_eq in He. subst k. unfold Atleos.resumeTask. rewrite Ht.
    pose proof (atleos_resume_good now _ _ _ Hgood) as H.
    destruct (Atleos.processRecords _ _ _ _) as [[s' h'] t']. simpl.
    exists t'. split; [| exact H].
    apply list_lookup_insert_eq. now apply lookup_lt_Some in Ht.
Qed.

Lemma atleos_run_holds j evs : forall sv,
  forallb (atleosBatchStep j) evs = true ->
  atleosHolds launched sv j ->
  atleosHolds launched (Atleos.run world formatDate evs sv) j.
Proof.
  induction evs as [| e evs IH]; intros sv He H; [exact H |].
  simpl in He. apply andb_true_iff in He as [He1 He2].
  simpl. apply IH; [exact He2 |]. now apply atleos_step_holds.
Qed.

Lemma atleos_started_holds sv j :
  atleosStarted sv j -> atleosHolds launched sv j.
Proof.
  intros (t & Ht & Hp & Hc & Hb & HP). exists t. split; [exact Ht |].
  unfold atleosGood. rewrite Hp. auto.
Qed.

(** A resumption keeps the batch and brings the runner closer to its end. *)
Lemma atleos_resume_progress now s h t :
  atleosGood launched (s, h, t) ->
  Atleos.records (fst (fst (Atleos.processRecords world formatDate now (s, h, t))))
  = Atleos.records s
  /\ (Atleos.active t = true ->
      atleosLeft (length (Atleos.records s))
        (Atleos.place (snd (Atleos.processRecords world formatDate now (s, h, t))))
      < atleosLeft (length (Atleos.records s)) (Atleos.place t)).
Proof.
  unfold atleosGood, Atleos.active.
  atleos_paths; intros Hgood; (split; [reflexivity |]); intros Ha;
    try discriminate;
    repeat match goal with
           | H : _ /\ _ |- _ => destruct H
           | H : _ !! _ = Some _ |- _ => apply lookup_lt_Some in H
           end;
    simpl in *; try lia.
Qed.

Lemma atleos_left_zero s h t :
  atleosGood launched (s, h, t) ->
  atleosLeft (length (Atleos.records s)) (Atleos.place t) = 0 ->
  Atleos.place t = Atleos.Finished.
Proof.
  unfold atleosGood.
  destruct (Atleos.place t); simpl; intros H; try lia; try reflexivity;
    repeat match goal with
           | H : _ /\ _ |- _ => destruct H
           | H : _ !! _ = Some _ |- _ => apply lookup_lt_Some in H
           end; lia.
Qed.

Lemma atleos_step_left j sv e t :
  atleosBatchStep j e = true ->
  atleosHolds launched sv j ->
  Atleos.tasks sv !! j = Some t ->
  let sv' := Atleos.step world formatDate sv e in
  Atleos.records (Atleos.currentProcessing sv')
  = Atleos.records (Atleos.currentProcessing sv)
  /\ exists t', Atleos.tasks sv' !! j = Some t'
      /\ atleosLeft (length (Atleos.records (Atleos.currentProcessing sv)))
                    (Atleos.place t')
         <= atleosLeft (length (Atleos.records (Atleos.currentProcessing sv)))
                       (Atleos.place t) - resumesOf j [e].
Proof.
  destruct e as [now [r | k]]; unfold atleosBatchStep, resumesOf; simpl;
    intros He (t0 & Ht0 & Hgood) Ht; rewrite Ht in Ht0; injection Ht0 as <-.
  - destruct r; try discriminate; simpl; (split; [reflexivity |]);
      exists t; (split; [exact Ht | lia]).
  - rewrite He. apply Nat.eqb_eq in He. subst k. unfold Atleos.resumeTask.
    rewrite Ht.
    pose proof (atleos_resume_progress now _ _ _ Hgood) as [Hrec Hlt].
    destruct (Atleos.active t) eqn:Ea.
    + specialize (Hlt eq_refl).
      destruct (Atleos.processRecords _ _ _ _) as [[s' h'] t']. simpl in *.
      split; [exact Hrec |]. exists t'. split; [| lia].
      apply list_lookup_insert_eq. now apply lookup_lt_Some in Ht.
    + rewrite atleos_resume_finished by exact Ea. simpl.
      split; [reflexivity |]. exists t. split.
      * apply list_lookup_insert_eq. now apply lookup_lt_Some in Ht.
      * unfold Atleos.active in Ea. destruct (Atleos.place t); try discriminate.
        simpl. lia.
Qed.

Lemma atleos_run_left j evs : forall sv t,
  forallb (atleosBatchStep j) evs = true ->
  atleosHolds launched sv j ->
  Atleos.tasks sv !! j = Some t ->
  let sv' := Atleos.run world formatDate evs sv in
  Atleos.records (Atleos.currentProcessing sv')
  = Atleos.records (Atleos.currentProcessing sv)
  /\ exists t', Atleos.tasks sv' !! j = Some t'
      /\ atleosLeft (length (Atleos.records (Atleos.currentProcessing sv)))
                    (Atleos.place t')
         <= atleosLeft (length (Atleos.records (Atleos.currentProcessing sv)))
                       (Atleos.place t) - resumesOf j evs.
Proof.
  induction evs as [| e evs IH]; intros sv t He H Ht; cbv zeta.
  - split; [reflexivity |]. exists t. split; [exact Ht |].
    unfold resumesOf. simpl. lia.
  - simpl in He. apply andb_true_iff in He as [He1 He2].
    destruct (atleos_step_left j sv e t He1 H Ht) as [Hrec (t1 & Ht1 & Hle1)].
    pose proof (atleos_step_holds j sv e He1 H) as H1.
    destruct (IH _ t1 He2 H1 Ht1) as [Hrec' (t' & Ht' & Hle')].
    simpl. split; [congruence |]. exists t'. split; [exact Ht' |].
    rewrite Hrec in Hle'.
    unfold resumesOf in *. simpl in *.
    destruct (match snd e with Atleos.Resume k => k =? j | _ => false end);
      simpl in *; lia.
Qed.

(** A resumption leaves the objects alone or writes one terminal status, into
    the record of the body it was suspended in. *)
Lemma atleos_resume_store now s h t :
  let h' := snd (fst (Atleos.processRecords world formatDate now (s, h, t))) in
  h' = h
  \/ exists i l, bodyOf (Atleos.place t) = Some (i, l)
       /\ (h' = Atleos.update h l (Atleos.with_status "completed")
           \/ exists msg, h' = Atleos.update (Atleos.update h l (Atleos.with_status "error"))
                                             l (Atleos.with_error msg)).
Proof.
  cbv zeta. atleos_paths; auto; right; do 2 eexists; (split; [reflexivity |]); eauto.
Qed.

Lemma atleos_resume_status now s h t x :
  let h' := snd (fst (Atleos.processRecords world formatDate now (s, h, t))) in
  Atleos.status (h' x) = Atleos.status (h x)
  \/ Atleos.status (h' x) = "completed" \/ Atleos.status (h' x) = "error".
Proof.
  cbv zeta.
  destruct (atleos_resume_store now s h t) as [-> | (i & l & _ & [-> | [msg ->]])];
    [auto | rewrite completed_write | rewrite failed_write];
    destruct (x =? l); auto.
Qed.


End AtleosBatch.

(** ** A batch under simulateAptraProcessing *)

Lemma settledAmong_app h l1 l2 :
  settledAmong h (l1 ++ l2) = settledAmong h l1 + settledAmong h l2.
Proof. unfold settledAmong. now rewrite List.filter_app, length_app. Qed.

Lemma settledAmong_take_le h i ls : settledAmong h (take i ls) <= settledAmong h ls.
Proof.
  rewrite <- (take_drop i ls) at 2. rewrite settledAmong_app. lia.
Qed.

Lemma settledAmong_take_S h i ls l :
  ls !! i = Some l ->
  settledAmong h (take (S i) ls)
  = settledAmong h (take i ls)
    + (if Simulated.terminal (Simulated.status (h l)) then 1 else 0).
Proof.
  intros H. rewrite (take_S_r _ _ _ H), settledAmong_app.
  unfold settledAmong. simpl. now destruct (Simulated.terminal _).
Qed.

Lemma settledAmong_mono h h' ls :
  (forall x, Simulated.terminal (Simulated.status (h x)) = true ->
             Simulated.terminal (Simulated.status (h' x)) = true) ->
  settledAmong h ls <= settledAmong h' ls.
Proof.
  intros Hm. unfold settledAmong. induction ls as [| x ls IH]; simpl; [lia |].
  specialize (Hm x).
  destruct (Simulated.terminal (Simulated.status (h x)));
    [rewrite Hm by reflexivity; simpl; lia |].
  destruct (Simulated.terminal (Simulated.status (h' x))); simpl; lia.
Qed.

Lemma settle_write h l st res x :
  Simulated.status (Simulated.update h l (Simulated.settle st res) x)
  = if x =? l then st else Simulated.status (h x).
Proof. unfold Simulated.update. now destruct (x =? l). Qed.

Lemma simulated_good_iteration quiet now i s h t :
  (quiet = true -> Simulated.isProcessing s = true) ->
  i <= length (Simulated.its_records t) ->
  i <= settledAmong h (take i (Simulated.its_records t)) ->
  (Simulated.processedCount s <= i) ->
  simulatedGood quiet (Simulated.iteration now i (s, h, t)).
Proof.
  intros Hq Hi Hs HP. unfold Simulated.iteration.
  destruct (Simulated.its_records t !! i) as [l |] eqn:E.
  - pose proof (lookup_lt_Some _ _ _ E) as Hlt.
    destruct (Simulated.isProcessing s) eqn:Ep.
    + unfold simulatedGood. simpl. autorewrite with simulated. simpl.
      repeat split; auto.
    + unfold simulatedGood. simpl. autorewrite with simulated. simpl.
      repeat split; auto. intros Hquiet. specialize (Hq Hquiet). discriminate.
  - apply lookup_ge_None in E.
    unfold simulatedGood. simpl. autorewrite with simulated. simpl.
    repeat split; auto; try discriminate. intros _.
    pose proof (settledAmong_take_le h i (Simulated.its_records t)).
    rewrite take_ge in Hs by lia. lia.
Qed.

Lemma simulated_resume_good quiet now success s h t :
  simulatedGood quiet (s, h, t) ->
  simulatedGood quiet (Simulated.simulateAptraProcessing now success (s, h, t)).
Proof.
  unfold simulatedGood at 1, Simulated.simulateAptraProcessing, Simulated.active.
  destruct (Simulated.place t) as [| i | i | i |] eqn:Ep.
  - intros [Hq HP]. apply simulated_good_iteration;
      autorewrite with simulated; auto; simpl; lia.
  - intros [Hq (Hcur & Hi & HP & Hs)].
    destruct (Simulated.its_records t !! i) as [l |] eqn:E.
    + unfold simulatedGood, Simulated.active. simpl. autorewrite with simulated.
      rewrite E. repeat split; auto.
    + unfold simulatedGood, Simulated.active. rewrite Ep, E. repeat split; auto.
  - intros [Hq (Hcur & Hi & HP & Hs)]. unfold Simulated.decided.
    destruct (Simulated.its_records t !! i) as [l |] eqn:E.
    + assert (Hst : forall st res,
                 Simulated.terminal st = true ->
                 S i <= settledAmong (Simulated.update h l (Simulated.settle st res))
                          (take (S i) (Simulated.its_records t))).
      { intros st res Hter. rewrite (settledAmong_take_S _ i _ l E).
        rewrite settle_write, Nat.eqb_refl, Hter.
        assert (settledAmong h (take i (Simulated.its_records t))
                <= settledAmong (Simulated.update h l (Simulated.settle st res))
                     (take i (Simulated.its_records t))); [| lia].
        apply settledAmong_mono. intros x Hx. rewrite settle_write.
        now destruct (x =? l). }
      destruct success; unfold simulatedGood, Simulated.active; simpl;
        autorewrite with simulated; rewrite E; repeat split; auto.
    + apply lookup_ge_None in E. lia.
  - intros [Hq (Hcur & Hi & HP & Hs)].
    apply simulated_good_iteration; auto; lia.
  - intros H. unfold simulatedGood, Simulated.active. rewrite Ep. exact H.
Qed.

Lemma simulated_good_request quiet g s h t :
  Simulated.isProcessing (g s) = Simulated.isProcessing s ->
  Simulated.currentRecord (g s) = Simulated.currentRecord s ->
  Simulated.processedCount (g s) = Simulated.processedCount s ->
  simulatedGood quiet (s, h, t) -> simulatedGood quiet (g s, h, t).
Proof.
  unfold simulatedGood. intros -> -> ->. auto.
Qed.

Lemma simulated_good_stop now msg ty s h t :
  simulatedGood false (s, h, t) ->
  simulatedGood false
    (Simulated.addLog now msg ty (Simulated.with_isProcessing false s), h, t).
Proof.
  unfold simulatedGood. autorewrite with simulated. simpl.
  intros [_ H]. split; [discriminate |].
  destruct (Simulated.place t); tauto.
Qed.

Lemma simulated_step_holds quiet j sv e :
  simulatedBatchStep quiet j e = true ->
  simulatedHolds quiet sv j ->
  simulatedHolds quiet (Simulated.step sv e) j.
Proof.
  destruct e as [now [r | k success]]; unfold simulatedBatchStep; simpl;
    intros He (t & Ht & Hgood).
  - destruct r; try discriminate; simpl; try (exists t; split; assumption).
    destruct quiet; [discriminate |].
    exists t. split; [exact Ht | now apply simulated_good_stop].
  - apply Nat.eqb_eq in He. subst k. unfold Simulated.resumeTask. rewrite Ht.
    pose proof (simulated_resume_good quiet now success _ _ _ Hgood) as H.
    destruct (Simulated.simulateAptraProcessing _ _ _) as [[s' h'] t']. simpl.
    exists t'. split; [| exact H].
    apply list_lookup_insert_eq. now apply lookup_lt_Some in Ht.
Qed.

Lemma simulated_run_holds quiet j evs : forall sv,
  forallb (simulatedBatchStep quiet j) evs = true ->
  simulatedHolds quiet sv j ->
  simulatedHolds quiet (Simulated.run evs sv) j.
Proof.
  induction evs as [| e evs IH]; intros sv He H; [exact H |].
  simpl in He. apply andb_true_iff in He as [He1 He2].
  simpl. apply IH; [exact He2 |]. now apply simulated_step_holds.
Qed.

Lemma simulated_started_holds quiet sv j :
  simulatedStarted sv j -> simulatedHolds quiet sv j.
Proof.
  intros (t & Ht & Hp & Hi & HP). exists t. split; [exact Ht |].
  unfold simulatedGood. rewrite Hp. auto.
Qed.

(** A resumption keeps the task's records and brings it closer to its end. *)
Lemma simulated_resume_progress quiet now success s h t :
  simulatedGood quiet (s, h, t) ->
  Simulated.its_records (snd (Simulated.simulateAptraProcessing now success (s, h, t)))
  = Simulated.its_records t
  /\ (Simulated.active t = true ->
      simulatedLeft (length (Simulated.its_records t))
        (Simulated.place (snd (Simulated.simulateAptraProcessing now success (s, h, t))))
      < simulatedLeft (length (Simulated.its_records t)) (Simulated.place t)).
Proof.
  unfold simulatedGood, Simulated.active.
  simulated_paths; intros [_ Hgood]; (split; [reflexivity |]); intros Ha;
    try discriminate;
    repeat match goal with
           | H : _ /\ _ |- _ => destruct H
           | H : _ !! _ = Some _ |- _ => apply lookup_lt_Some in H
           | H : _ !! _ = None |- _ => apply lookup_ge_None in H
           end;
    simpl in *; try lia.
Qed.


Lemma simulated_step_left quiet j sv e t :
  simulatedBatchStep quiet j e = true ->
  simulatedHolds quiet sv j ->
  Simulated.tasks sv !! j = Some t ->
  exists t', Simulated.tasks (Simulated.step sv e) !! j = Some t'
    /\ Simulated.its_records t' = Simulated.its_records t
    /\ simulatedLeft (length (Simulated.its_records t)) (Simulated.place t')
       <= simulatedLeft (length (Simulated.its_records t)) (Simulated.place t)
          - firingsOf j [e].
Proof.
  destruct e as [now [r | k success]]; unfold simulatedBatchStep, firingsOf; simpl;
    intros He (t0 & Ht0 & Hgood) Ht; rewrite Ht in Ht0; injection Ht0 as <-.
  - destruct r; try discriminate; simpl;
      exists t; (split; [exact Ht | split; [reflexivity | lia]]).
  - rewrite He. apply Nat.eqb_eq in He. subst k. unfold Simulated.resumeTask.
    rewrite Ht.
    pose proof (simulated_resume_progress quiet now success _ _ _ Hgood) as [Hrec Hlt].
    destruct (Simulated.active t) eqn:Ea.
    + specialize (Hlt eq_refl).
      destruct (Simulated.simulateAptraProcessing _ _ _) as [[s' h'] t']. simpl in *.
      exists t'. split; [| split; [exact Hrec | lia]].
      apply list_lookup_insert_eq. now apply lookup_lt_Some in Ht.
    + rewrite simulated_resume_finished by exact Ea. simpl.
      exists t. split; [| split; [reflexivity |]].
      * apply list_lookup_insert_eq. now apply lookup_lt_Some in Ht.
      * unfold Simulated.active in Ea. destruct (Simulated.place t); try discriminate.
        simpl. lia.
Qed.

Lemma simulated_run_left quiet j evs : forall sv t,
  forallb (simulatedBatchStep quiet j) evs = true ->
  simulatedHolds quiet sv j ->
  Simulated.tasks sv !! j = Some t ->
  exists t', Simulated.tasks (Simulated.run evs sv) !! j = Some t'
    /\ Simulated.its_records t' = Simulated.its_records t
    /\ simulatedLeft (length (Simulated.its_records t)) (Simulated.place t')
       <= simulatedLeft (length (Simulated.its_records t)) (Simulated.place t)
          - firingsOf j evs.
Proof.
  induction evs as [| e evs IH]; intros sv t He H Ht.
  - exists t. split; [exact Ht | split; [reflexivity |]].
    unfold firingsOf. simpl. lia.
  - simpl in He. apply andb_true_iff in He as [He1 He2].
    destruct (simulated_step_left quiet j sv e t He1 H Ht) as (t1 & Ht1 & Hrec1 & Hle1).
    pose proof (simulated_step_holds quiet j sv e He1 H) as H1.
    destruct (IH _ t1 He2 H1 Ht1) as (t' & Ht' & Hrec' & Hle').
    simpl. exists t'. split; [exact Ht' | split; [congruence |]].
    rewrite Hrec1 in Hle'.
    unfold firingsOf in *. simpl in *.
    destruct (match snd e with Simulated.Resume k _ => k =? j | _ => false end);
      simpl in *; lia.
Qed.

(** A resumption leaves the objects alone or settles the record of the body
    it was suspended in. *)
Lemma simulated_resume_store now success s h t :
  let h' := snd (fst (Simulated.simulateAptraProcessing now success (s, h, t))) in
  h' = h
  \/ exists i l, Simulated.place t = Simulated.AtCreate i
       /\ Simulated.its_records t !! i = Some l
       /\ (h' = Simulated.update h l (Simulated.settle "completed" "Evento creado exitosamente")
           \/ h' = Simulated.update h l (Simulated.settle "failed" "Error simulado")).
Proof.
  cbv zeta. simulated_paths; auto; right; do 2 eexists; eauto.
Qed.

Lemma simulated_resume_status now success s h t x :
  let h' := snd (fst (Simulated.simulateAptraProcessing now success (s, h, t))) in
  Simulated.status (h' x) = Simulated.status (h x)
  \/ Simulated.status (h' x) = "completed" \/ Simulated.status (h' x) = "failed".
Proof.
  cbv zeta.
  destruct (simulated_resume_store now success s h t)
    as [-> | (i & l & _ & _ & [-> | ->])];
    [auto | rewrite settle_write | rewrite settle_write];
    destruct (x =? l); auto.
Qed.


(** ** Cleanup (C4) *)

Lemma atleos_start_started now body sv :
  fst (Atleos.handle now (Atleos.StartProcessing body) sv) = Atleos.Started ->
  atleosStarted (snd (Atleos.handle now (Atleos.StartProcessing body) sv))
                (length (Atleos.tasks sv)).
Proof.
  simpl. unfold Atleos.startProcessing.
  destruct (Atleos.isProcessing (Atleos.currentProcessing sv)); [discriminate |].
  destruct (Atleos.body_credentials body) as [cred |]; [| discriminate].
  destruct (_ || _); [discriminate |].
  destruct (_ =? 0); [discriminate |]. intros _. simpl.
  eexists. split; [apply list_lookup_middle; reflexivity |]. simpl. auto.
Qed.

Lemma simulated_start_started now cfg rs sv :
  fst (Simulated.handle now (Simulated.Process cfg rs) sv) = Simulated.Started ->
  simulatedStarted (snd (Simulated.handle now (Simulated.Process cfg rs) sv))
                   (length (Simulated.tasks sv)).
Proof.
  unfold Simulated.handle, Simulated.process.
  destruct (Simulated.isProcessing (Simulated.processingState sv)); [discriminate |].
  destruct (_ || _); [discriminate |]. intros _. simpl.
  eexists. split; [apply list_lookup_middle; reflexivity |].
  autorewrite with simulated. simpl. auto.
Qed.

Lemma simulated_start_records now cfg rs sv t :
  fst (Simulated.handle now (Simulated.Process cfg rs) sv) = Simulated.Started ->
  Simulated.tasks (snd (Simulated.handle now (Simulated.Process cfg rs) sv))
    !! length (Simulated.tasks sv) = Some t ->
  length (Simulated.its_records t) = length rs.
Proof.
  unfold Simulated.handle, Simulated.process.
  destruct (Simulated.isProcessing (Simulated.processingState sv)); [discriminate |].
  destruct (_ || _); [discriminate |]. intros _. simpl.
  rewrite list_lookup_middle by reflexivity. intros [= <-]. simpl.
  apply length_seq.
Qed.



(** ** The processed count (C1) *)

Section CountFacts.

Variable world : list Atleos.call -> Atleos.call -> Atleos.response.
Variable formatDate : cell -> string.



End CountFacts.







(** ** The status of a record (C5) *)

Lemma filter_length_mono {A} (p q : A -> bool) (l : list A) :
  (forall x, p x = true -> q x = true) ->
  length (List.filter p l) <= length (List.filter q l).
Proof.
  intros H. induction l as [| x l IH]; simpl; [lia |].
  specialize (H x). destruct (p x); [rewrite H by reflexivity; simpl; lia |].
  destruct (q x); simpl; lia.
Qed.

Section StatusFacts.

Variable world : list Atleos.call -> Atleos.call -> Atleos.response.
Variable formatDate : cell -> string.

Lemma atleos_step_status j sv e x :
  atleosBatchStep j e = true ->
  let sv' := Atleos.step world formatDate sv e in
  Atleos.status (Atleos.objects sv' x) = Atleos.status (Atleos.objects sv x)
  \/ Atleos.status (Atleos.objects sv' x) = "completed"
  \/ Atleos.status (Atleos.objects sv' x) = "error".
Proof.
  destruct e as [now [r | k]]; unfold atleosBatchStep; simpl; intros He.
  - destruct r; try discriminate; simpl; auto.
  - unfold Atleos.resumeTask. destruct (Atleos.tasks sv !! k) as [t |]; [| auto].
    pose proof (atleos_resume_status world formatDate now
                  (Atleos.currentProcessing sv) (Atleos.objects sv) t x) as H.
    destruct (Atleos.processRecords _ _ _ _) as [[s' h'] t']. exact H.
Qed.

Lemma atleos_run_status j evs : forall sv x,
  forallb (atleosBatchStep j) evs = true ->
  let sv' := Atleos.run world formatDate evs sv in
  Atleos.status (Atleos.objects sv' x) = Atleos.status (Atleos.objects sv x)
  \/ Atleos.status (Atleos.objects sv' x) = "completed"
  \/ Atleos.status (Atleos.objects sv' x) = "error".
Proof.
  induction evs as [| e evs IH]; intros sv x He; cbv zeta; [auto |].
  simpl in He. apply andb_true_iff in He as [He1 He2]. simpl.
  destruct (IH (Atleos.step world formatDate sv e) x He2) as [-> | H]; [| auto].
  now apply (atleos_step_status j).
Qed.

End StatusFacts.

Lemma simulated_step_status quiet j sv e x :
  simulatedBatchStep quiet j e = true ->
  let sv' := Simulated.step sv e in
  Simulated.status (Simulated.objects sv' x) = Simulated.status (Simulated.objects sv x)
  \/ Simulated.status (Simulated.objects sv' x) = "completed"
  \/ Simulated.status (Simulated.objects sv' x) = "failed".
Proof.
  destruct e as [now [r | k success]]; unfold simulatedBatchStep; simpl; intros He.
  - destruct r; try discriminate; simpl; auto.
  - unfold Simulated.resumeTask. destruct (Simulated.tasks sv !! k) as [t |]; [| auto].
    pose proof (simulated_resume_status now success
                  (Simulated.processingState sv) (Simulated.objects sv) t x) as H.
    destruct (Simulated.simulateAptraProcessing _ _ _) as [[s' h'] t']. exact H.
Qed.

Lemma simulated_run_status quiet j evs : forall sv x,
  forallb (simulatedBatchStep quiet j) evs = true ->
  let sv' := Simulated.run evs sv in
  Simulated.status (Simulated.objects sv' x) = Simulated.status (Simulated.objects sv x)
  \/ Simulated.status (Simulated.objects sv' x) = "completed"
  \/ Simulated.status (Simulated.objects sv' x) = "failed".
Proof.
  induction evs as [| e evs IH]; intros sv x He; cbv zeta; [auto |].
  simpl in He. apply andb_true_iff in He as [He1 He2]. simpl.
  destruct (IH (Simulated.step sv e) x He2) as [-> | H]; [| auto].
  now apply (simulated_step_status quiet j).
Qed.

(** C5 (amended): a batch run writes no status but [completed] and [error]
    ([failed] on the simulated server), so a record goes from its first
    status straight to a terminal one, stays terminal, and none is ever
    given the status [processing]; the record in flight is known by
    [currentRecord] alone, which names the record of the loop body the
    runner is suspended in. *)
Theorem statuses_only_become_terminal :
  (forall world formatDate now body sv evs,
      fst (Atleos.handle now (Atleos.StartProcessing body) sv) = Atleos.Started ->
      forallb (atleosBatchStep (length (Atleos.tasks sv))) evs = true ->
      let sv0 := snd (Atleos.handle now (Atleos.StartProcessing body) sv) in
      let sv1 := Atleos.run world formatDate evs sv0 in
      (forall x,
          Atleos.status (Atleos.objects sv1 x) = Atleos.status (Atleos.objects sv0 x)
          \/ Atleos.status (Atleos.objects sv1 x) = "completed"
          \/ Atleos.status (Atleos.objects sv1 x) = "error")
      /\ (forall x,
          Atleos.terminal (Atleos.status (Atleos.objects sv0 x)) = true ->
          Atleos.terminal (Atleos.status (Atleos.objects sv1 x)) = true)
      /\ Atleos.processingCount sv1 <= Atleos.processingCount sv0
      /\ exists t,
          Atleos.tasks sv1 !! length (Atleos.tasks sv) = Some t
          /\ forall i l,
              bodyOf (Atleos.place t) = Some (i, l) ->
              Atleos.currentRecord (Atleos.currentProcessing sv1) = Some l
              /\ Atleos.records (Atleos.currentProcessing sv1) !! i = Some l)
  /\ (forall quiet now cfg rs sv evs,
      fst (Simulated.handle now (Simulated.Process cfg rs) sv) = Simulated.Started ->
      forallb (simulatedBatchStep quiet (length (Simulated.tasks sv))) evs = true ->
      let sv0 := snd (Simulated.handle now (Simulated.Process cfg rs) sv) in
      let sv1 := Simulated.run evs sv0 in
      (forall x,
          Simulated.status (Simulated.objects sv1 x) = Simulated.status (Simulated.objects sv0 x)
          \/ Simulated.status (Simulated.objects sv1 x) = "completed"
          \/ Simulated.status (Simulated.objects sv1 x) = "failed")
      /\ (forall x,
          Simulated.terminal (Simulated.status (Simulated.objects sv0 x)) = true ->
          Simulated.terminal (Simulated.status (Simulated.objects sv1 x)) = true)
      /\ exists t,
          Simulated.tasks sv1 !! length (Simulated.tasks sv) = Some t
          /\ Simulated.processingCount sv1 t <= Simulated.processingCount sv0 t
          /\ forall i,
              simulatedBodyOf (Simulated.place t) = Some i ->
              i < length (Simulated.its_records t)
              /\ Simulated.currentRecord (Simulated.processingState sv1)
                 = Simulated.its_records t !! i).
Proof.
  split.
  - intros world formatDate now body sv evs Hstart Hevs sv0 sv1.
    pose proof (atleos_run_status world formatDate (length (Atleos.tasks sv)) evs sv0)
      as Hstatus.
    fold sv1 in Hstatus.
    pose proof (atleos_start_started now body sv Hstart) as Hst. fold sv0 in Hst.
    pose proof (atleos_started_holds world sv0 _ Hst) as H0.
    destruct Hst as (t0 & Ht0 & _).
    destruct (atleos_run_left world formatDate _ evs sv0 t0 Hevs H0 Ht0) as [Hrec _].
    destruct (atleos_run_holds world formatDate _ evs sv0 Hevs H0) as (t & Ht & Hgood).
    fold sv1 in Hrec, Ht, Hgood.
    split; [intros x; exact (Hstatus x Hevs) |]. split; [| split].
    + intros x Hx. destruct (Hstatus x Hevs) as [-> | [-> | ->]]; auto.
    + unfold Atleos.processingCount. rewrite Hrec. apply filter_length_mono.
      intros x Hx. destruct (Hstatus x Hevs) as [<- | [E | E]]; [exact Hx | |];
        rewrite E in Hx; discriminate.
    + exists t. split; [exact Ht |]. intros i l Hb.
      unfold atleosGood in Hgood.
      destruct (Atleos.place t); simpl in Hb; try discriminate;
        injection Hb as -> ->; tauto.
  - intros quiet now cfg rs sv evs Hstart Hevs sv0 sv1.
    pose proof (simulated_run_status quiet (length (Simulated.tasks sv)) evs sv0)
      as Hstatus.
    fold sv1 in Hstatus.
    pose proof (simulated_start_started now cfg rs sv Hstart) as Hst. fold sv0 in Hst.
    pose proof (simulated_started_holds quiet sv0 _ Hst) as H0.
    destruct (simulated_run_holds quiet _ evs sv0 Hevs H0) as (t & Ht & Hgood).
    fold sv1 in Ht, Hgood.
    split; [intros x; exact (Hstatus x Hevs) |]. split.
    + intros x Hx. destruct (Hstatus x Hevs) as [-> | [-> | ->]]; auto.
    + exists t. split; [exact Ht |]. split.
      * unfold Simulated.processingCount. apply filter_length_mono.
        intros x Hx. destruct (Hstatus x Hevs) as [<- | [E | E]]; [exact Hx | |];
          rewrite E in Hx; discriminate.
      * intros i Hb. unfold simulatedGood in Hgood. destruct Hgood as [_ Hgood].
        destruct (Simulated.place t); simpl in Hb; try discriminate;
          injection Hb as ->; tauto.
Qed.

(** A batch of two pending records, two resumptions in: nothing has the
    status [processing]. *)
Lemma no_processing_status_in_a_run :
  Atleos.processingCount
    (Atleos.run allFound text_of (resumeTimes 2) (uploadedAndStarted None)) <= 0.
Proof.
  exact (proj1 (proj2 (proj2 (proj1 statuses_only_become_terminal allFound text_of 1
                  (startBody None)
                  (snd (Atleos.handle 0 (Atleos.UploadExcel (Atleos.Sheet threeRows))
                          Atleos.boot))
                  (resumeTimes 2) eq_refl eq_refl)))).
Defined.

(** C5 as stated fails: while the first record is in flight (the runner is
    suspended in its search) no record has the status [processing]; the
    record in flight is still [pending]. *)
Lemma record_in_flight_is_pending :
  let sv := Atleos.run allFound text_of (resumeTimes 2) (uploadedAndStarted None) in
  Atleos.place <$> Atleos.tasks sv = [Atleos.InSearch 0 0]
  /\ Atleos.isProcessing (Atleos.currentProcessing sv) = true
  /\ Atleos.currentRecord (Atleos.currentProcessing sv) = Some 0
  /\ Atleos.status (Atleos.objects sv 0) = "pending"
  /\ Atleos.processingCount sv = 0.
Proof. cbv zeta. repeat split; reflexivity. Qed.

(** ** Stopping a batch (C2) *)

(** C2 fails on [processRecords]: its loop never reads [isProcessing].  The
    stop arrives during the first record; two resumptions later the first
    record is completed and the runner is in the search of the second, and
    three more complete the second as well. *)
Lemma stop_is_not_read_by_processRecords :
  Atleos.place <$> Atleos.tasks stoppedInFirstRecord = [Atleos.InSearch 0 0]
  /\ Atleos.isProcessing (Atleos.currentProcessing stoppedInFirstRecord) = false
  /\ (let sv := Atleos.run allFound text_of (resumeTimes 2) stoppedInFirstRecord in
      Atleos.place <$> Atleos.tasks sv = [Atleos.InSearch 1 1]
      /\ Atleos.status (Atleos.objects sv 0) = "completed"
      /\ Atleos.currentRecord (Atleos.currentProcessing sv) = Some 1)
  /\ (let sv := Atleos.run allFound text_of (resumeTimes 5) stoppedInFirstRecord in
      Atleos.place <$> Atleos.tasks sv = [Atleos.Finished]
      /\ Atleos.status (Atleos.objects sv 1) = "completed"
      /\ Atleos.processedRecords (Atleos.currentProcessing sv) = 2).
Proof. cbv zeta. repeat split; reflexivity. Qed.



(** ** The scripted methods *)

Section Scripts.

Import Atleos.
Variable world : list call -> call -> response.

Ltac answer_calls :=
  repeat match goal with
         | |- context [world ?made ?k] => destruct (world made k); simpl
         end.

Lemma initialize_script c :
  fst (initialize world c)
  = match snd (attempt world (calls c) initializeScript) with
    | None => inr tt
    | Some msg => inl msg
    end
  /\ calls (snd (initialize world c))
     = calls c ++ fst (attempt world (calls c) initializeScript)
  /\ browser (snd (initialize world c))
     = (browser c || resolves (world (calls c) Launch))
  /\ log (snd (initialize world c))
     = log c ++ [entry (clock c) "Iniciando navegador..." "info"].
Proof.
  unfold initialize, initializeScript, bind, perform, say, ret. simpl.
  answer_calls; rewrite <- ?app_assoc, ?orb_true_r, ?orb_false_r; auto.
Qed.

Lemma login_script cred c :
  fst (login world cred c)
  = inr (match snd (attempt world (calls c) (loginScript cred)) with
         | None => true
         | Some _ => false
         end)
  /\ calls (snd (login world cred c))
     = calls c ++ fst (attempt world (calls c) (loginScript cred))
  /\ last (log (snd (login world cred c)))
     = Some (match snd (attempt world (calls c) (loginScript cred)) with
             | None => entry (clock c) "Login exitoso" "success"
             | Some msg => entry (clock c) ("Error en login: " +:+ msg) "error"
             end)
  /\ browser (snd (login world cred c)) = browser c.
Proof.
  unfold login, loginScript, try_catch, bind, perform, say, ret. simpl.
  answer_calls; repeat split; rewrite ?last_snoc; auto;
    rewrite <- ?app_assoc; reflexivity.
Qed.

Lemma search_script idNCR c :
  fst (searchAndSelectATM world idNCR c)
  = inr (match snd (attempt world (calls c) (searchScript idNCR)) with
         | None => true
         | Some _ => false
         end)
  /\ calls (snd (searchAndSelectATM world idNCR c))
     = calls c ++ fst (attempt world (calls c) (searchScript idNCR))
  /\ last (log (snd (searchAndSelectATM world idNCR c)))
     = Some (match snd (attempt world (calls c) (searchScript idNCR)) with
             | None =>
                 entry (clock c)
                   ("ATM " +:+ text_of idNCR +:+ " seleccionado exitosamente") "success"
             | Some msg =>
                 entry (clock c)
                   ("Error buscando ATM " +:+ text_of idNCR +:+ ": " +:+ msg) "error"
             end)
  /\ browser (snd (searchAndSelectATM world idNCR c)) = browser c.
Proof.
  unfold searchAndSelectATM, searchScript, try_catch, bind, perform, say, ret. simpl.
  answer_calls; repeat split; rewrite ?last_snoc; auto;
    rewrite <- ?app_assoc; reflexivity.
Qed.

End Scripts.

(** X2: [initialize], [login] and [searchAndSelectATM] run a fixed script of
    driver calls and stop at the first the browser rejects.  [initialize]
    throws that rejection, and has set the browser handle as soon as the
    launch resolved; [login] and [searchAndSelectATM] never throw: they
    return [true] when the whole script resolved and [false] otherwise, and
    their last log entry reports the success or the rejection's message. *)
Theorem methods_follow_their_scripts :
  forall world,
    (forall c,
        fst (Atleos.initialize world c)
        = match snd (attempt world (Atleos.calls c) initializeScript) with
          | None => inr tt
          | Some msg => inl msg
          end
        /\ Atleos.calls (snd (Atleos.initialize world c))
           = Atleos.calls c ++ fst (attempt world (Atleos.calls c) initializeScript)
        /\ Atleos.browser (snd (Atleos.initialize world c))
           = (Atleos.browser c || resolves (world (Atleos.calls c) Atleos.Launch))
        /\ Atleos.log (snd (Atleos.initialize world c))
           = Atleos.log c ++ [entry (Atleos.clock c) "Iniciando navegador..." "info"])
    /\ (forall cred c,
        fst (Atleos.login world cred c)
        = inr (match snd (attempt world (Atleos.calls c) (loginScript cred)) with
               | None => true
               | Some _ => false
               end)
        /\ Atleos.calls (snd (Atleos.login world cred c))
           = Atleos.calls c ++ fst (attempt world (Atleos.calls c) (loginScript cred))
        /\ last (Atleos.log (snd (Atleos.login world cred c)))
           = Some (match snd (attempt world (Atleos.calls c) (loginScript cred)) with
                   | None => entry (Atleos.clock c) "Login exitoso" "success"
                   | Some msg =>
                       entry (Atleos.clock c) ("Error en login: " +:+ msg) "error"
                   end)
        /\ Atleos.browser (snd (Atleos.login world cred c)) = Atleos.browser c)
    /\ (forall idNCR c,
        fst (Atleos.searchAndSelectATM world idNCR c)
        = inr (match snd (attempt world (Atleos.calls c) (searchScript idNCR)) with
               | None => true
               | Some _ => false
               end)
        /\ Atleos.calls (snd (Atleos.searchAndSelectATM world idNCR c))
           = Atleos.calls c ++ fst (attempt world (Atleos.calls c) (searchScript idNCR))
        /\ last (Atleos.log (snd (Atleos.searchAndSelectATM world idNCR c)))
           = Some (match snd (attempt world (Atleos.calls c) (searchScript idNCR)) with
                   | None =>
                       entry (Atleos.clock c)
                         ("ATM " +:+ text_of idNCR +:+ " seleccionado exitosamente")
                         "success"
                   | Some msg =>
                       entry (Atleos.clock c)
                         ("Error buscando ATM " +:+ text_of idNCR +:+ ": " +:+ msg)
                         "error"
                   end)
        /\ Atleos.browser (snd (Atleos.searchAndSelectATM world idNCR c))
           = Atleos.browser c).
Proof.
  intros world. split; [apply initialize_script |].
  split; [apply login_script | apply search_script].
Qed.

(** ** The value of a field is entered once *)

Section EnteredOnce.

Import Atleos.
Variable world : list call -> call -> response.

Lemma entered_app ks1 : forall made ks2,
  entered world made (ks1 ++ ks2)
  = entered world made ks1 + entered world (made ++ ks1) ks2.
Proof.
  induction ks1 as [| k ks1 IH]; intros made ks2; simpl.
  - now rewrite app_nil_r.
  - rewrite IH, <- app_assoc. simpl. lia.
Qed.

(** One attempt of [fillField]: when it returns, exactly one entry of the
    value resolved and the success is logged; when it throws, none did and
    nothing is logged. *)
Lemma fillWith_once fieldName value s c :
  exists ks,
    calls (snd (fillWith world fieldName value s c)) = calls c ++ ks
    /\ clock (snd (fillWith world fieldName value s c)) = clock c
    /\ match fst (fillWith world fieldName value s c) with
       | inr _ =>
           entered world (calls c) ks = 1
           /\ log (snd (fillWith world fieldName value s c))
              = log c ++ [filledEntry (clock c) fieldName value]
       | inl _ =>
           entered world (calls c) ks = 0
           /\ log (snd (fillWith world fieldName value s c)) = log c
       end.
Proof.
  unfold fillWith, bind, perform, say, ret, filledEntry. simpl.
  destruct (world (calls c) (WaitForSelector s 3000)) eqn:E1; simpl;
    [| eexists; split; [reflexivity |]; simpl; auto].
  destruct (world (calls c ++ [WaitForSelector s 3000]) (TagName s)) as [tag |] eqn:E2;
    simpl;
    [| eexists; split; [rewrite <- app_assoc; reflexivity |]; simpl; auto].
  destruct (isSelect tag); simpl.
  - destruct (world _ (Select s value)) eqn:E3; simpl;
      (eexists; split; [rewrite <- !app_assoc; reflexivity |]); simpl;
      rewrite E3; simpl; auto.
  - destruct (world _ (Click s)) eqn:E3; simpl;
      [| eexists; split; [rewrite <- !app_assoc; reflexivity |]; simpl; auto].
    destruct (world _ SelectAll) eqn:E4; simpl;
      [| eexists; split; [rewrite <- !app_assoc; reflexivity |]; simpl; auto].
    destruct (world _ (TypeText s value)) eqn:E5; simpl;
      (eexists; split; [rewrite <- !app_assoc; reflexivity |]); simpl;
      rewrite E5; simpl; auto.
Qed.

Lemma firstSelector_cons body s rest c :
  firstSelector body (s :: rest) c
  = match body s c with
    | (inr _, c1) => (inr (Some s), c1)
    | (inl _, c1) => firstSelector body rest c1
    end.
Proof.
  simpl. unfold bind at 1, try_catch at 1, bind at 1.
  destruct (body s c) as [[e | []] c1]; reflexivity.
Qed.

Lemma firstSelector_once fieldName value selectors : forall c,
  exists ks won,
    fst (firstSelector (fillWith world fieldName value) selectors c) = inr won
    /\ calls (snd (firstSelector (fillWith world fieldName value) selectors c))
       = calls c ++ ks
    /\ clock (snd (firstSelector (fillWith world fieldName value) selectors c)) = clock c
    /\ match won with
       | Some _ =>
           entered world (calls c) ks = 1
           /\ log (snd (firstSelector (fillWith world fieldName value) selectors c))
              = log c ++ [filledEntry (clock c) fieldName value]
       | None =>
           entered world (calls c) ks = 0
           /\ log (snd (firstSelector (fillWith world fieldName value) selectors c))
              = log c
       end.
Proof.
  induction selectors as [| s rest IH]; intros c.
  - exists [], None. simpl. rewrite app_nil_r. auto.
  - rewrite firstSelector_cons.
    destruct (fillWith_once fieldName value s c) as (ks & Hks & Hclock & H).
    destruct (fillWith world fieldName value s c) as [[e | []] c1]; cbn [fst snd] in *.
    + destruct H as [H0 Hlog].
      destruct (IH c1) as (ks' & won & Hr & Hks' & Hclock' & H').
      exists (ks ++ ks'), won. rewrite Hr, Hks', Hks, app_assoc, Hclock', Hclock.
      repeat split; auto.
      rewrite entered_app, H0. simpl.
      rewrite Hks, Hclock, Hlog in H'. exact H'.
    + exists ks, (Some s). auto.
Qed.

Lemma fillFieldWith_once selectors fieldName value c :
  let c' := snd (fillFieldWith world selectors fieldName value c) in
  (entered world (calls c) (callsSince c c') = 1
   /\ log c' = log c ++ [filledEntry (clock c) fieldName value])
  \/ (entered world (calls c) (callsSince c c') = 0
      /\ log c' = log c ++ [notFilledEntry (clock c) fieldName]).
Proof.
  cbv zeta. unfold fillFieldWith, try_catch, bind.
  destruct (firstSelector_once fieldName value selectors c)
    as (ks & won & Hr & Hks & Hclock & H).
  destruct (firstSelector _ selectors c) as [r c1]. cbn [fst snd] in *. subst r.
  unfold callsSince.
  destruct won as [s |]; simpl.
  - left. rewrite Hks, drop_app_length. exact H.
  - right. rewrite Hks, drop_app_length, Hclock. destruct H as [H0 ->]. auto.
Qed.

End EnteredOnce.

(** X3: [fillField] puts the value into the page exactly once or not at
    all.  Whatever the page answers, either exactly one [select] or [type]
    call resolved and the method logged that the field was filled, or none
    did and it logged the warning that the field was not found. *)
Theorem fillField_enters_the_value_once :
  forall world fieldName value c,
    let c' := snd (Atleos.fillField world fieldName value c) in
    (entered world (Atleos.calls c) (callsSince c c') = 1
     /\ Atleos.log c' = Atleos.log c ++ [filledEntry (Atleos.clock c) fieldName value])
    \/ (entered world (Atleos.calls c) (callsSince c c') = 0
        /\ Atleos.log c' = Atleos.log c ++ [notFilledEntry (Atleos.clock c) fieldName]).
Proof.
  intros world fieldName value c. apply fillFieldWith_once.
Qed.

(** ** What a created incident went through *)

Section Created.

Import Atleos.
Variable world : list call -> call -> response.
Variable formatDate : cell -> string.

Lemma firstSelector_won body : forall selectors c s c',
  firstSelector body selectors c = (inr (Some s), c') ->
  exists pre post c1,
    selectors = pre ++ s :: post
    /\ allFail body pre c = Some c1
    /\ body s c1 = (inr tt, c').
Proof.
  induction selectors as [| x rest IH]; intros c s c' H.
  - discriminate.
  - rewrite firstSelector_cons in H.
    destruct (body x c) as [[e | []] c1] eqn:Eb.
    + destruct (IH _ _ _ H) as (pre & post & c2 & -> & Hpre & Hs).
      exists (x :: pre), post, c2. simpl. rewrite Eb. auto.
    + injection H as <- <-. exists [], rest, c. simpl. auto.
Qed.

Lemma allFail_calls body pre :
  (forall s, keeps (fun _ => True) (body s)) ->
  forall c c1, allFail body pre c = Some c1 ->
  clock c1 = clock c /\ exists made, calls c1 = calls c ++ made.
Proof.
  intros Hbody. induction pre as [| s pre IH]; simpl; intros c c1 H.
  - injection H as ->. split; [reflexivity |]. exists []. now rewrite app_nil_r.
  - destruct (Hbody s c) as (Hclock & _ & _ & [made [Hmade _]]).
    destruct (body s c) as [[e | []] c2]; [| discriminate]. simpl in *.
    destruct (IH _ _ H) as [Hclock' [made' Hmade']].
    split; [congruence |].
    exists (made ++ made'). now rewrite Hmade', Hmade, app_assoc.
Qed.

Lemma openWith_keeps s : keeps (fun _ => True) (openWith world s).
Proof. unfold openWith. frame; exact I. Qed.

Lemma saveWith_keeps s : keeps (fun _ => True) (saveWith world s).
Proof. unfold saveWith. frame; exact I. Qed.

Lemma fillField_keeps_any fieldName value :
  keeps (fun _ => True) (fillField world fieldName value).
Proof.
  eapply keeps_mono; [| apply fillField_keeps]. auto.
Qed.

Lemma fillIncidentForm_keeps r : keeps (fun _ => True) (fillIncidentForm world formatDate r).
Proof.
  unfold fillIncidentForm, fillDateField.
  frame; try apply fillField_keeps_any; exact I.
Qed.

Lemma openWith_returned s c c' :
  openWith world s c = (inr tt, c') ->
  calls c' = calls c ++ [WaitForSelector s 5000; Click s]
  /\ log c' = log c /\ clock c' = clock c.
Proof.
  unfold openWith, bind, perform, ret. simpl.
  destruct (world (calls c) _); simpl; [| discriminate].
  destruct (world _ (Click s)); simpl; [| discriminate].
  intros H. injection H as <-. simpl. now rewrite <- app_assoc.
Qed.

Lemma saveWith_returned s c c' :
  saveWith world s c = (inr tt, c') ->
  calls c' = calls c ++ [WaitForSelector s 3000; Click s; WaitForTimeout 2000]
  /\ clock c' = clock c.
Proof.
  unfold saveWith, bind, perform, say. simpl.
  destruct (world (calls c) _); simpl; [| discriminate].
  destruct (world _ (Click s)); simpl; [| discriminate].
  destruct (world _ (WaitForTimeout 2000)); simpl; [| discriminate].
  intros H. injection H as <-. simpl. now rewrite <- !app_assoc.
Qed.

Lemma saveIncident_returned c c' :
  saveIncident world c = (inr tt, c') ->
  exists s made,
    s ∈ saveSelectors
    /\ calls c' = calls c ++ made ++ [WaitForSelector s 3000; Click s; WaitForTimeout 2000]
    /\ clock c' = clock c.
Proof.
  unfold saveIncident, saveIncidentWith, try_catch, bind at 1.
  destruct (firstSelector (saveWith world) saveSelectors c) as [[e | [s |]] c1] eqn:E;
    simpl; try discriminate.
  intros H. injection H as <-.
  destruct (firstSelector_won _ _ _ _ _ E) as (pre & post & c2 & Hsel & Hpre & Hs).
  destruct (allFail_calls _ pre saveWith_keeps _ _ Hpre) as [Hclock2 [made Hmade]].
  destruct (saveWith_returned _ _ _ Hs) as [Hcalls Hclock].
  exists s, made. split; [rewrite Hsel; apply elem_of_app; right; left |].
  split; [now rewrite Hcalls, Hmade, <- app_assoc | congruence].
Qed.

Lemma createIncident_created r c res :
  createIncident world formatDate r c = res ->
  fst res = inr true ->
  exists s1 s2 before between,
    s1 ∈ createButtonSelectors /\ s2 ∈ saveSelectors
    /\ callsSince c (snd res)
       = before ++ [WaitForSelector s1 5000; Click s1; WaitForTimeout 2000]
         ++ between ++ [WaitForSelector s2 3000; Click s2; WaitForTimeout 2000]
    /\ last (log (snd res)) = Some (createdEntry (clock c) r).
Proof.
  unfold createIncident, try_catch.
  rewrite (bind_returned _ _ c tt) by reflexivity.
  unfold bind at 1.
  destruct (firstSelector (openWith world) createButtonSelectors _)
    as [[e | [s1 |]] c1] eqn:E1;
    [intros <-; discriminate | | intros <-; discriminate].
  unfold bind at 1, ret at 1. unfold bind at 1.
  destruct (perform world (WaitForTimeout 2000) c1) as [[e | w] c2] eqn:E2;
    [intros <-; discriminate |].
  unfold bind at 1. rewrite fillIncidentForm_fills_each.
  pose proof (fillIncidentForm_fills_each world formatDate r c2) as Eform.
  destruct (fillIncidentForm_keeps r c2) as (Hclock3 & _ & _ & [made3 [Hmade3 _]]).
  rewrite Eform in Hclock3, Hmade3. cbn [snd] in Hclock3, Hmade3.
  set (c3 := snd (say "Formulario llenado correctamente" "info" _)) in *.
  unfold bind at 1.
  destruct (saveIncident world c3) as [[e | []] c4] eqn:E4;
    [intros <-; discriminate |].
  intros <- _. cbn [fst snd bind say ret].
  destruct (firstSelector_won _ _ _ _ _ E1) as (pre & post & c0 & Hsel & Hpre & Hs1).
  destruct (allFail_calls _ pre openWith_keeps _ _ Hpre) as [Hclock0 [made0 Hmade0]].
  destruct (openWith_returned _ _ _ Hs1) as (Hcalls1 & _ & Hclock1).
  destruct (saveIncident_returned _ _ E4) as (s2 & made4 & Hs2 & Hcalls4 & Hclock4).
  assert (Hcalls2 : calls c2 = calls c1 ++ [WaitForTimeout 2000]
                    /\ clock c2 = clock c1).
  { revert E2. unfold perform. destruct (world _ _); [| discriminate].
    intros H. injection H as _ <-. auto. }
  destruct Hcalls2 as [Hcalls2 Hclock2].
  exists s1, s2, made0, (made3 ++ made4).
  split; [rewrite Hsel; apply elem_of_app; right; left |].
  split; [exact Hs2 |].
  split.
  - unfold callsSince. cbn [calls with_log].
    rewrite Hcalls4, Hmade3, Hcalls2, Hcalls1, Hmade0. simpl.
    rewrite <- ?app_assoc. rewrite drop_app_length. simpl.
    now rewrite <- ?app_assoc.
  - cbn [log with_log]. rewrite last_snoc. unfold createdEntry.
    do 2 f_equal. cbn [clock with_log].
    rewrite Hclock4, Hclock3, Hclock2, Hclock1, Hclock0. reflexivity.
Qed.

End Created.

(** X4: [createIncident] reports success only after it has opened and saved
    the form: the calls it made then hold the click on one of the create
    buttons, followed by the wait of 2 s, and end with the click on one of
    the save buttons and the wait of 2 s that follows it; its last log entry
    announces the created incident. *)
Theorem created_incident_was_opened_and_saved :
  forall world formatDate r c,
    fst (Atleos.createIncident world formatDate r c) = inr true ->
    exists s1 s2 before between,
      s1 ∈ Atleos.createButtonSelectors /\ s2 ∈ Atleos.saveSelectors
      /\ callsSince c (snd (Atleos.createIncident world formatDate r c))
         = before
           ++ [Atleos.WaitForSelector s1 5000; Atleos.Click s1; Atleos.WaitForTimeout 2000]
           ++ between
           ++ [Atleos.WaitForSelector s2 3000; Atleos.Click s2; Atleos.WaitForTimeout 2000]
      /\ last (Atleos.log (snd (Atleos.createIncident world formatDate r c)))
         = Some (createdEntry (Atleos.clock c) r).
Proof.
  intros world formatDate r c.
  now apply (createIncident_created world formatDate r c).
Qed.

(** On a page where every call resolves, the record of the sample is
    created. *)
Lemma sample_incident_is_created :
  exists s1 s2 before between,
    s1 ∈ Atleos.createButtonSelectors /\ s2 ∈ Atleos.saveSelectors
    /\ callsSince emptyCtx (snd (Atleos.createIncident allFound text_of sampleRecord emptyCtx))
       = before
         ++ [Atleos.WaitForSelector s1 5000; Atleos.Click s1; Atleos.WaitForTimeout 2000]
         ++ between
         ++ [Atleos.WaitForSelector s2 3000; Atleos.Click s2; Atleos.WaitForTimeout 2000]
    /\ last (Atleos.log (snd (Atleos.createIncident allFound text_of sampleRecord emptyCtx)))
       = Some (createdEntry 0 sampleRecord).
Proof.
  apply (created_incident_was_opened_and_saved allFound text_of sampleRecord emptyCtx).
  vm_compute. reflexivity.
Defined.

(** ** The upload filter *)

Lemma append_String b x y : String b x +:+ y = String b (x +:+ y).
Proof. reflexivity. Qed.

Lemma append_empty y : "" +:+ y = y.
Proof. reflexivity. Qed.

Lemma prefix_occurs needle : forall s,
  String.prefix needle s = true <-> exists after, s = needle +:+ after.
Proof.
  induction needle as [| a needle IH]; intros s; simpl.
  - split; [intros _; now exists s | intros _; now destruct s].
  - destruct s as [| b s]; simpl.
    + split; [discriminate | intros [after H]; discriminate].
    + destruct (Ascii.ascii_dec a b) as [-> | Hne].
      * rewrite IH. split; intros [after H]; exists after;
          rewrite append_String in *; congruence.
      * split; [discriminate |].
        intros [after H]. rewrite append_String in H. congruence.
Qed.

Lemma includes_occurs needle : forall s,
  includes needle s = true <-> occursIn needle s.
Proof.
  unfold occursIn. induction s as [| b s IH]; cbn [includes].
  - rewrite orb_false_r, prefix_occurs. split.
    + intros [after H]. exists "", after. exact H.
    + intros (before & after & H). destruct before.
      * rewrite append_empty in H. now exists after.
      * rewrite append_String in H. discriminate.
  - rewrite orb_true_iff, prefix_occurs, IH. split.
    + intros [[after H] | (before & after & H)].
      * exists "", after. exact H.
      * exists (String b before), after. rewrite append_String. now rewrite H.
    + intros (before & after & H). destruct before as [| b' before].
      * left. rewrite append_empty in H. now exists after.
      * right. rewrite append_String in H. exists before, after. congruence.
Qed.

(** X5: the upload filter of the Puppeteer server accepts a file exactly
    when its MIME type holds the text [excel] or the text [spreadsheet],
    in lower case; any other file is refused with the one error. *)
Theorem fileFilter_accepts_excel_types :
  forall mimetype,
    (fileFilter mimetype = inr true
     <-> occursIn "excel" mimetype \/ occursIn "spreadsheet" mimetype)
    /\ (fileFilter mimetype <> inr true
        -> fileFilter mimetype = inl "Solo se permiten archivos Excel")
    /\ fileFilter "application/vnd.ms-excel" = inr true
    /\ fileFilter "application/vnd.openxmlformats-officedocument.spreadsheetml.sheet"
       = inr true
    /\ fileFilter "application/vnd.ms-EXCEL" = inl "Solo se permiten archivos Excel"
    /\ fileFilter "text/csv" = inl "Solo se permiten archivos Excel".
Proof.
  intros mimetype. split; [| split; [| repeat split]].
  - unfold fileFilter. rewrite <- !includes_occurs, <- orb_true_iff.
    destruct (_ || _); split; congruence.
  - unfold fileFilter. destruct (_ || _); congruence.
Qed.

(** ** An identifier that is not a text *)





(** ** What an upload leaves behind *)

Lemma atleos_allocate_new h a rs k r :
  rs !! k = Some r -> Atleos.allocate h a rs (a + k) = r.
Proof.
  intros H. unfold Atleos.allocate.
  pose proof (lookup_lt_Some _ _ _ H) as Hlt.
  replace ((a <=? a + k) && (a + k <? a + length rs)) with true.
  - replace (a + k - a) with k by lia. now apply nth_lookup_Some.
  - symmetry. apply andb_true_iff. split; [apply Nat.leb_le | apply Nat.ltb_lt]; lia.
Qed.


Lemma uploaded_untouched data : Forall untouched (Atleos.uploadedRecords data).
Proof.
  unfold Atleos.uploadedRecords.
  apply Forall_forall. intros r Hr. apply list_elem_of_In in Hr.
  apply filter_In in Hr as [Hr _].
  apply list_elem_of_In, elem_of_lookup_imap in Hr as (i & row & -> & _).
  split; reflexivity.
Qed.

Lemma allocated_untouched h a rs :
  Forall untouched rs ->
  Forall (fun l => untouched (Atleos.allocate h a rs l)) (seq a (length rs)).
Proof.
  intros H. apply Forall_lookup. intros k l Hl.
  apply lookup_seq in Hl as [-> Hk].
  destruct (lookup_lt_is_Some_2 rs k Hk) as [r Hr].
  rewrite (atleos_allocate_new h a rs k r Hr).
  exact (proj1 (Forall_lookup _ _) H k r Hr).
Qed.



(** ** What a start request asks for *)

Section Guards.

Variable world : list Atleos.call -> Atleos.call -> Atleos.response.
Variable formatDate : cell -> string.

Lemma atleos_resume_credentials now s h t :
  Atleos.its_credentials (snd (Atleos.processRecords world formatDate now (s, h, t)))
  = Atleos.its_credentials t
  /\ Atleos.its_config (snd (Atleos.processRecords world formatDate now (s, h, t)))
     = Atleos.its_config t.
Proof. atleos_paths; auto. Qed.

Lemma atleos_start_accepted body sv :
  fst (Atleos.startProcessing body sv) = Atleos.Started
  <-> Atleos.isProcessing (Atleos.currentProcessing sv) = false
      /\ (exists cred, Atleos.body_credentials body = Some cred /\ usable cred)
      /\ Atleos.records (Atleos.currentProcessing sv) <> [].
Proof.
  unfold Atleos.startProcessing, usable.
  destruct (Atleos.isProcessing _); simpl; [split; [discriminate | intros []; discriminate] |].
  destruct (Atleos.body_credentials body) as [cred |]; simpl;
    [| split; [discriminate | intros (_ & (cred & H & _) & _); discriminate]].
  destruct (String.eqb (Atleos.username cred) "") eqn:Eu; simpl.
  { apply String.eqb_eq in Eu.
    split; [discriminate | intros (_ & (cred' & H & Hu & _) & _)].
    injection H as <-. contradiction. }
  destruct (String.eqb (Atleos.password cred) "") eqn:Ep; simpl.
  { apply String.eqb_eq in Ep.
    split; [discriminate | intros (_ & (cred' & H & _ & Hp) & _)].
    injection H as <-. contradiction. }
  apply String.eqb_neq in Eu, Ep.
  destruct (Atleos.records (Atleos.currentProcessing sv)) as [| l ls]; simpl.
  - split; [discriminate | intros (_ & _ & H); contradiction].
  - split; [intros _ | reflexivity]. repeat split; eauto.
Qed.

Lemma atleos_start_spawns body sv :
  fst (Atleos.startProcessing body sv) = Atleos.Started ->
  exists cred,
    Atleos.body_credentials body = Some cred /\ usable cred
    /\ snd (Atleos.startProcessing body sv)
       = {| Atleos.currentProcessing :=
              Atleos.with_processedRecords 0
                (Atleos.with_isProcessing true (Atleos.currentProcessing sv));
            Atleos.objects := Atleos.objects sv;
            Atleos.fresh := Atleos.fresh sv;
            Atleos.tasks := Atleos.tasks sv ++
              [ {| Atleos.its_credentials := cred;
                   Atleos.its_config := Atleos.body_config body;
                   Atleos.its_browser := false; Atleos.its_calls := [];
                   Atleos.place := Atleos.InInitialize |} ] |}.
Proof.
  intros H. pose proof (proj1 (atleos_start_accepted body sv) H) as (Hp & (cred & Hc & Hu) & Hr).
  revert H. unfold Atleos.startProcessing. rewrite Hp, Hc.
  destruct (_ || _); [discriminate |].
  destruct (_ =? 0); [discriminate |].
  intros _. exists cred. auto.
Qed.

Lemma atleos_start_rejected body sv :
  fst (Atleos.startProcessing body sv) <> Atleos.Started ->
  snd (Atleos.startProcessing body sv) = sv.
Proof.
  unfold Atleos.startProcessing.
  destruct (Atleos.isProcessing _); [reflexivity |].
  destruct (Atleos.body_credentials body) as [cred |]; [| reflexivity].
  destruct (_ || _); [reflexivity |].
  destruct (_ =? 0); [reflexivity |].
  simpl. contradiction.
Qed.

Lemma atleos_step_usable sv e :
  Forall (fun t => usable (Atleos.its_credentials t)) (Atleos.tasks sv) ->
  Forall (fun t => usable (Atleos.its_credentials t))
         (Atleos.tasks (Atleos.step world formatDate sv e)).
Proof.
  intros H. destruct e as [now [r | j]]; simpl.
  - destruct r as [u | body | | | | |]; simpl; try exact H.
    + destruct u; exact H.
    + destruct (fst (Atleos.startProcessing body sv)) eqn:E;
        try (rewrite (atleos_start_rejected body sv) by (rewrite E; discriminate);
             exact H).
      destruct (atleos_start_spawns body sv E) as (cred & _ & Hu & ->). simpl.
      apply Forall_app. split; [exact H |]. now constructor.
  - unfold Atleos.resumeTask.
    destruct (Atleos.tasks sv !! j) as [t |] eqn:Et; [| exact H].
    pose proof (atleos_resume_credentials now (Atleos.currentProcessing sv)
                  (Atleos.objects sv) t) as [Hc _].
    destruct (Atleos.processRecords _ _ _ _) as [[s' h'] t']. simpl in *.
    apply Forall_insert; [exact H |]. rewrite Hc.
    exact (proj1 (Forall_lookup _ _) H j t Et).
Qed.

Lemma atleos_run_usable evs : forall sv,
  Forall (fun t => usable (Atleos.its_credentials t)) (Atleos.tasks sv) ->
  Forall (fun t => usable (Atleos.its_credentials t))
         (Atleos.tasks (Atleos.run world formatDate evs sv)).
Proof.
  induction evs as [| e evs IH]; intros sv H; [exact H |].
  simpl. apply IH. now apply atleos_step_usable.
Qed.

End Guards.

Lemma simulated_process_accepted now cfg rs sv :
  fst (Simulated.process now cfg rs sv) = Simulated.Started
  <-> Simulated.isProcessing (Simulated.processingState sv) = false /\ usableConfig cfg.
Proof.
  unfold Simulated.process, usableConfig.
  destruct (Simulated.isProcessing _); simpl; [split; [discriminate | intros []; discriminate] |].
  destruct (String.eqb (Simulated.username cfg) "") eqn:Eu; simpl.
  { apply String.eqb_eq in Eu. split; [discriminate | intros (_ & Hu & _); contradiction]. }
  destruct (String.eqb (Simulated.password cfg) "") eqn:Ep; simpl.
  { apply String.eqb_eq in Ep. split; [discriminate | intros (_ & _ & Hp); contradiction]. }
  apply String.eqb_neq in Eu, Ep. split; auto.
Qed.

Lemma simulated_process_rejected now cfg rs sv :
  fst (Simulated.process now cfg rs sv) <> Simulated.Started ->
  snd (Simulated.process now cfg rs sv) = sv.
Proof.
  unfold Simulated.process.
  destruct (Simulated.isProcessing _); [reflexivity |].
  destruct (_ || _); [reflexivity |]. simpl. contradiction.
Qed.

Lemma simulated_process_spawns now cfg rs sv :
  fst (Simulated.process now cfg rs sv) = Simulated.Started ->
  let sv' := snd (Simulated.process now cfg rs sv) in
  Simulated.isProcessing (Simulated.processingState sv') = true
  /\ Simulated.totalCount (Simulated.processingState sv') = length rs
  /\ Simulated.processedCount (Simulated.processingState sv') = 0
  /\ Simulated.logs (Simulated.processingState sv')
     = [ entry now "🚀 Iniciando procesamiento simulado..." "info";
         entry now "🔐 Simulando login a Aptra..." "info" ]
  /\ Simulated.tasks sv'
     = Simulated.tasks sv ++
       [ {| Simulated.its_config := cfg;
            Simulated.its_records := seq (Simulated.fresh sv) (length rs);
            Simulated.place := Simulated.AtLogin |} ].
Proof.
  unfold Simulated.process.
  destruct (Simulated.isProcessing _); [discriminate |].
  destruct (_ || _); [discriminate |]. intros _. cbv zeta. simpl.
  autorewrite with simulated. simpl. repeat split; reflexivity.
Qed.

Lemma simulated_resume_config now success s h t :
  Simulated.its_config (snd (Simulated.simulateAptraProcessing now success (s, h, t)))
  = Simulated.its_config t
  /\ Simulated.its_records (snd (Simulated.simulateAptraProcessing now success (s, h, t)))
     = Simulated.its_records t.
Proof. simulated_paths; auto. Qed.

Lemma simulated_step_usable sv e :
  Forall (fun t => usableConfig (Simulated.its_config t)) (Simulated.tasks sv) ->
  Forall (fun t => usableConfig (Simulated.its_config t))
         (Simulated.tasks (Simulated.step sv e)).
Proof.
  intros H. destruct e as [now [r | j success]]; simpl.
  - destruct r as [u | cfg rs | | | |]; simpl; try exact H.
    + unfold Simulated.upload_. destruct u as [| msg | jsonData]; try exact H.
      destruct (Simulated.processedData jsonData); exact H.
    + destruct (fst (Simulated.process now cfg rs sv)) eqn:E;
        try (rewrite (simulated_process_rejected now cfg rs sv) by (rewrite E; discriminate);
             exact H).
      destruct (simulated_process_spawns now cfg rs sv E) as (_ & _ & _ & _ & ->).
      apply Forall_app. split; [exact H |]. constructor; [| constructor].
      simpl. now apply (simulated_process_accepted now cfg rs sv).
  - unfold Simulated.resumeTask.
    destruct (Simulated.tasks sv !! j) as [t |] eqn:Et; [| exact H].
    pose proof (simulated_resume_config now success (Simulated.processingState sv)
                  (Simulated.objects sv) t) as [Hc _].
    destruct (Simulated.simulateAptraProcessing _ _ _) as [[s' h'] t']. simpl in *.
    apply Forall_insert; [exact H |]. rewrite Hc.
    exact (proj1 (Forall_lookup _ _) H j t Et).
Qed.

Lemma simulated_run_usable evs : forall sv,
  Forall (fun t => usableConfig (Simulated.its_config t)) (Simulated.tasks sv) ->
  Forall (fun t => usableConfig (Simulated.its_config t))
         (Simulated.tasks (Simulated.run evs sv)).
Proof.
  induction evs as [| e evs IH]; intros sv H; [exact H |].
  simpl. apply IH. now apply simulated_step_usable.
Qed.

(** X8: what a batch needs to start.  On the Puppeteer server a start is
    accepted exactly when no batch is flagged as running, the body carries a
    user name and a password that are not empty, and at least one record is
    loaded; on the simulated server exactly when no batch is flagged as
    running and the configuration carries both credentials (an empty list of
    records is accepted).  A rejected request changes nothing.  An accepted
    one sets the flag, resets the processed count and spawns one runner; on
    the simulated server it also sets the total count and empties the log
    but for the runner's first two entries.  So no runner ever works without
    credentials, whatever the requests were. *)
Theorem batch_needs_credentials :
  (forall world formatDate,
      (forall now body sv,
          fst (Atleos.handle now (Atleos.StartProcessing body) sv) = Atleos.Started
          <-> Atleos.isProcessing (Atleos.currentProcessing sv) = false
              /\ (exists cred, Atleos.body_credentials body = Some cred /\ usable cred)
              /\ Atleos.records (Atleos.currentProcessing sv) <> [])
      /\ (forall now body sv,
          fst (Atleos.handle now (Atleos.StartProcessing body) sv) <> Atleos.Started ->
          snd (Atleos.handle now (Atleos.StartProcessing body) sv) = sv)
      /\ (forall now body sv,
          fst (Atleos.handle now (Atleos.StartProcessing body) sv) = Atleos.Started ->
          exists cred,
            Atleos.body_credentials body = Some cred
            /\ snd (Atleos.handle now (Atleos.StartProcessing body) sv)
               = {| Atleos.currentProcessing :=
                      Atleos.with_processedRecords 0
                        (Atleos.with_isProcessing true (Atleos.currentProcessing sv));
                    Atleos.objects := Atleos.objects sv;
                    Atleos.fresh := Atleos.fresh sv;
                    Atleos.tasks := Atleos.tasks sv ++
                      [ {| Atleos.its_credentials := cred;
                           Atleos.its_config := Atleos.body_config body;
                           Atleos.its_browser := false; Atleos.its_calls := [];
                           Atleos.place := Atleos.InInitialize |} ] |})
      /\ (forall evs,
          Forall (fun t => usable (Atleos.its_credentials t))
                 (Atleos.tasks (Atleos.run world formatDate evs Atleos.boot))))
  /\ (forall now cfg rs sv,
      fst (Simulated.handle now (Simulated.Process cfg rs) sv) = Simulated.Started
      <-> Simulated.isProcessing (Simulated.processingState sv) = false
          /\ usableConfig cfg)
  /\ (forall now cfg rs sv,
      fst (Simulated.handle now (Simulated.Process cfg rs) sv) <> Simulated.Started ->
      snd (Simulated.handle now (Simulated.Process cfg rs) sv) = sv)
  /\ (forall now cfg rs sv,
      fst (Simulated.handle now (Simulated.Process cfg rs) sv) = Simulated.Started ->
      let sv' := snd (Simulated.handle now (Simulated.Process cfg rs) sv) in
      Simulated.isProcessing (Simulated.processingState sv') = true
      /\ Simulated.totalCount (Simulated.processingState sv') = length rs
      /\ Simulated.processedCount (Simulated.processingState sv') = 0
      /\ Simulated.logs (Simulated.processingState sv')
         = [ entry now "🚀 Iniciando procesamiento simulado..." "info";
             entry now "🔐 Simulando login a Aptra..." "info" ]
      /\ Simulated.tasks sv'
         = Simulated.tasks sv ++
           [ {| Simulated.its_config := cfg;
                Simulated.its_records := seq (Simulated.fresh sv) (length rs);
                Simulated.place := Simulated.AtLogin |} ])
  /\ (forall evs,
      Forall (fun t => usableConfig (Simulated.its_config t))
             (Simulated.tasks (Simulated.run evs Simulated.boot))).
Proof.
  split.
  - intros world formatDate.
    split; [intros now body sv; apply atleos_start_accepted |].
    split; [intros now body sv; apply atleos_start_rejected |].
    split.
    + intros now body sv H.
      destruct (atleos_start_spawns body sv H) as (cred & Hc & _ & E).
      exists cred. split; [exact Hc | exact E].
    + intros evs. apply atleos_run_usable. constructor.
  - split; [intros now cfg rs sv; apply simulated_process_accepted |].
    split; [intros now cfg rs sv; apply simulated_process_rejected |].
    split; [intros now cfg rs sv; apply simulated_process_spawns |].
    intros evs. apply simulated_run_usable. constructor.
Qed.

(** After the three rows were uploaded, a start with credentials spawns the
    first runner. *)
Lemma start_after_upload_spawns_a_runner :
  let sv := snd (Atleos.handle 0 (Atleos.UploadExcel (Atleos.Sheet threeRows)) Atleos.boot) in
  exists cred,
    Atleos.body_credentials (startBody None) = Some cred
    /\ snd (Atleos.handle 1 (Atleos.StartProcessing (startBody None)) sv)
       = {| Atleos.currentProcessing :=
              Atleos.with_processedRecords 0
                (Atleos.with_isProcessing true (Atleos.currentProcessing sv));
            Atleos.objects := Atleos.objects sv;
            Atleos.fresh := Atleos.fresh sv;
            Atleos.tasks := Atleos.tasks sv ++
              [ {| Atleos.its_credentials := cred;
                   Atleos.its_config := Atleos.body_config (startBody None);
                   Atleos.its_browser := false; Atleos.its_calls := [];
                   Atleos.place := Atleos.InInitialize |} ] |}.
Proof.
  cbv zeta.
  apply (proj1 (proj2 (proj2 (proj1 batch_needs_credentials allFound text_of)))).
  vm_compute. reflexivity.
Defined.

(** ** The outcome of a batch *)

Lemma notFoundAmong_app h l1 l2 :
  notFoundAmong h (l1 ++ l2) = notFoundAmong h l1 + notFoundAmong h l2.
Proof. unfold notFoundAmong. now rewrite List.filter_app, length_app. Qed.

Lemma notFoundAmong_take_S h i ls l :
  ls !! i = Some l ->
  notFoundAmong h (take (S i) ls)
  = notFoundAmong h (take i ls) + (if searchFailed (h l) then 1 else 0).
Proof.
  intros H. rewrite (take_S_r _ _ _ H), notFoundAmong_app.
  unfold notFoundAmong. simpl. now destruct (searchFailed _).
Qed.

Lemma notFoundAmong_off (h h' : Atleos.store) (l : Atleos.loc) (ls : list Atleos.loc) :
  (forall x, x <> l -> h' x = h x) -> l ∉ ls ->
  notFoundAmong h' ls = notFoundAmong h ls.
Proof.
  intros Hoff. unfold notFoundAmong. induction ls as [| x ls IH]; intros Hl; [reflexivity |].
  apply not_elem_of_cons in Hl as [Hx Hl]. simpl.
  rewrite (Hoff x) by congruence.
  destruct (searchFailed (h x)); simpl; rewrite IH by exact Hl; reflexivity.
Qed.

Lemma Forall_off (P : Atleos.record -> Prop) (h h' : Atleos.store) (l : Atleos.loc)
  (ls : list Atleos.loc) :
  (forall x, x <> l -> h' x = h x) -> l ∉ ls ->
  Forall (fun x => P (h x)) ls -> Forall (fun x => P (h' x)) ls.
Proof.
  intros Hoff Hl H. apply Forall_forall. intros x Hx.
  rewrite (Hoff x) by (intros ->; contradiction).
  exact (proj1 (Forall_forall _ _) H x Hx).
Qed.

Lemma nodup_before {A} (ls : list A) i l :
  NoDup ls -> ls !! i = Some l -> l ∉ take i ls.
Proof.
  intros Hnd Hl Hin. apply elem_of_take in Hin as (k & Hk & Hlt).
  pose proof (NoDup_lookup _ _ _ _ Hnd Hl Hk). lia.
Qed.

Lemma nodup_after {A} (ls : list A) i l :
  NoDup ls -> ls !! i = Some l -> l ∉ drop (S i) ls.
Proof.
  intros Hnd Hl Hin. apply list_elem_of_lookup in Hin as (k & Hk).
  rewrite lookup_drop in Hk.
  pose proof (NoDup_lookup _ _ _ _ Hnd Hl Hk). lia.
Qed.

Lemma notFoundAmong_fmap h ls :
  notFoundAmong h ls = length (List.filter searchFailed (h <$> ls)).
Proof.
  unfold notFoundAmong. induction ls as [| x ls IH]; [reflexivity |].
  simpl. destruct (searchFailed (h x)); simpl; now rewrite IH.
Qed.

Section Tally.

Variable world : list Atleos.call -> Atleos.call -> Atleos.response.
Variable formatDate : cell -> string.

Lemma tally_finally s h t :
  NoDup (Atleos.records s) ->
  (Atleos.processedRecords s = 0
   /\ Forall (fun x => untouched (h x)) (Atleos.records s))
  \/ (Atleos.processedRecords s + notFoundAmong h (Atleos.records s)
      = length (Atleos.records s)
      /\ Forall (fun x => settledWell (h x)) (Atleos.records s)) ->
  atleosTally (Atleos.finally (s, h, t)).
Proof.
  intros Hnd H. unfold Atleos.finally.
  destruct (Atleos.its_browser t); simpl; auto.
Qed.

Lemma tally_fatal now msg s h t :
  NoDup (Atleos.records s) -> Atleos.processedRecords s = 0 ->
  Forall (fun x => untouched (h x)) (Atleos.records s) ->
  atleosTally (Atleos.fatal now msg (s, h, t)).
Proof. intros. unfold Atleos.fatal. apply tally_finally; simpl; auto. Qed.

Lemma tally_iteration now i s h t :
  NoDup (Atleos.records s) -> i <= length (Atleos.records s) ->
  Atleos.processedRecords s + notFoundAmong h (take i (Atleos.records s)) = i ->
  Forall (fun x => settledWell (h x)) (take i (Atleos.records s)) ->
  Forall (fun x => untouched (h x)) (drop i (Atleos.records s)) ->
  atleosTally (Atleos.iteration now i (s, h, t)).
Proof.
  intros Hnd Hi HP HS HU. unfold Atleos.iteration.
  destruct (Atleos.records s !! i) as [l |] eqn:E.
  - simpl. auto.
  - apply lookup_ge_None in E.
    rewrite take_ge in HP, HS by exact E.
    apply tally_finally; simpl; [exact Hnd |]. right. split; [lia | exact HS].
Qed.

(** The end of the body of record [i], whose object [l] was written. *)
Lemma tally_next now i l s s' h h' t :
  NoDup (Atleos.records s) -> Atleos.records s !! i = Some l ->
  Atleos.records s' = Atleos.records s ->
  (forall x, x <> l -> h' x = h x) ->
  settledWell (h' l) ->
  Atleos.processedRecords s + notFoundAmong h (take i (Atleos.records s)) = i ->
  Atleos.processedRecords s' + (if searchFailed (h' l) then 1 else 0)
  = S (Atleos.processedRecords s) ->
  Forall (fun x => settledWell (h x)) (take i (Atleos.records s)) ->
  Forall (fun x => untouched (h x)) (drop (S i) (Atleos.records s)) ->
  atleosTally (Atleos.iteration now (S i) (s', h', t)).
Proof.
  intros Hnd Hl Hrec Hoff Hset HP HP' HS HU.
  pose proof (nodup_before _ _ _ Hnd Hl) as Hb.
  pose proof (nodup_after _ _ _ Hnd Hl) as Ha.
  apply tally_iteration; rewrite Hrec.
  - exact Hnd.
  - apply lookup_lt_Some in Hl. lia.
  - rewrite (notFoundAmong_take_S h' i _ l Hl),
      (notFoundAmong_off h h' l _ Hoff Hb). lia.
  - rewrite (take_S_r _ _ _ Hl). apply Forall_app. split.
    + exact (Forall_off settledWell h h' l _ Hoff Hb HS).
    + constructor; [exact Hset | constructor].
  - exact (Forall_off untouched h h' l _ Hoff Ha HU).
Qed.

Lemma failed_off h l msg x :
  x <> l ->
  Atleos.update (Atleos.update h l (Atleos.with_status "error")) l
    (Atleos.with_error msg) x = h x.
Proof.
  intros H. unfold Atleos.update. apply Nat.eqb_neq in H. now rewrite H.
Qed.

Lemma completed_off h l x :
  x <> l -> Atleos.update h l (Atleos.with_status "completed") x = h x.
Proof.
  intros H. unfold Atleos.update. apply Nat.eqb_neq in H. now rewrite H.
Qed.

Lemma failed_at h l msg :
  Atleos.status (Atleos.update (Atleos.update h l (Atleos.with_status "error")) l
                   (Atleos.with_error msg) l) = "error"
  /\ Atleos.error (Atleos.update (Atleos.update h l (Atleos.with_status "error")) l
                     (Atleos.with_error msg) l) = Some msg.
Proof. unfold Atleos.update. rewrite Nat.eqb_refl. split; reflexivity. Qed.

Lemma completed_at h l :
  Atleos.status (Atleos.update h l (Atleos.with_status "completed") l) = "completed"
  /\ Atleos.error (Atleos.update h l (Atleos.with_status "completed") l)
     = Atleos.error (h l).
Proof. unfold Atleos.update. rewrite Nat.eqb_refl. split; reflexivity. Qed.

(** After the result of [createIncident] was written into [l]. *)
Lemma tally_after_write now i l s s1 h h1 t :
  NoDup (Atleos.records s) -> Atleos.records s !! i = Some l ->
  Atleos.records s1 = Atleos.records s ->
  Atleos.processedRecords s1 = Atleos.processedRecords s ->
  (forall x, x <> l -> h1 x = h x) ->
  settledWell (h1 l) -> searchFailed (h1 l) = false ->
  Atleos.processedRecords s + notFoundAmong h (take i (Atleos.records s)) = i ->
  Forall (fun x => settledWell (h x)) (take i (Atleos.records s)) ->
  Forall (fun x => untouched (h x)) (drop (S i) (Atleos.records s)) ->
  atleosTally
    match Atleos.delayOf (Atleos.its_config t) with
    | Some d =>
        if S i <? length (Atleos.records s1)
        then (Atleos.addLog now
                ("Esperando " +:+ NilZero.string_of_uint (N.to_uint d)
                 +:+ "ms antes del siguiente registro...") "info" s1,
              h1, Atleos.at_place (Atleos.InDelay i l) t)
        else Atleos.endOfBody now i (s1, h1, t)
    | None => Atleos.endOfBody now i (s1, h1, t)
    end.
Proof.
  intros Hnd Hl Hrec Hcount Hoff Hset Hsf HP HS HU.
  assert (Hend : atleosTally (Atleos.endOfBody now i (s1, h1, t))).
  { unfold Atleos.endOfBody.
    apply (tally_next now i l s _ h h1 t); simpl; auto.
    rewrite Hsf, Hcount. lia. }
  destruct (Atleos.delayOf (Atleos.its_config t)) as [d |]; [| exact Hend].
  destruct (S i <? length (Atleos.records s1)); [| exact Hend].
  pose proof (nodup_before _ _ _ Hnd Hl) as Hb.
  pose proof (nodup_after _ _ _ Hnd Hl) as Ha.
  simpl. rewrite Hrec, Hcount.
  split; [exact Hnd |]. split; [exact Hl |].
  split; [now rewrite (notFoundAmong_off h h1 l _ Hoff Hb) |].
  split; [exact Hsf |]. split.
  - rewrite (take_S_r _ _ _ Hl). apply Forall_app. split.
    + exact (Forall_off settledWell h h1 l _ Hoff Hb HS).
    + constructor; [exact Hset | constructor].
  - exact (Forall_off untouched h h1 l _ Hoff Ha HU).
Qed.

Lemma atleos_resume_tally now s h t :
  atleosTally (s, h, t) ->
  atleosTally (Atleos.processRecords world formatDate now (s, h, t)).
Proof.
  unfold atleosTally at 1, Atleos.processRecords.
  destruct (Atleos.place t) as [| | i l | i l | i l | |] eqn:Ep;
    rewrite ?atleos_invoke_eq; cbv zeta.
  - intros (Hnd & HP & HU).
    destruct (Atleos.initialize world _) as [[e | []] c']; cbn [fst snd].
    + apply tally_fatal; simpl; auto.
    + simpl. auto.
  - intros (Hnd & HP & HU).
    destruct (Atleos.login world _ _) as [[e | [|]] c']; cbn [fst snd].
    + apply tally_fatal; simpl; auto.
    + apply tally_iteration; simpl; auto; [lia | rewrite HP; reflexivity].
    + apply tally_fatal; simpl; auto.
  - intros (Hnd & Hl & HP & HS & HU).
    rewrite (drop_S _ _ _ Hl) in HU. apply Forall_cons in HU as [HUl HU].
    match goal with |- context [Atleos.searchAndSelectATM world ?idn ?c] =>
      pose proof (proj1 (search_script world idn c)) as Hfst;
      destruct (Atleos.searchAndSelectATM world idn c) as [[e | [|]] c'] end;
      cbn [fst snd] in *; [discriminate | |].
    + simpl. rewrite (drop_S _ _ _ Hl).
      repeat (split; [assumption |]). now constructor.
    + unfold Atleos.notFound.
      apply (tally_next now i l s _ h _ _); simpl; auto.
      * intros x Hx. now apply failed_off.
      * right. destruct (failed_at h l "No se pudo encontrar el ATM") as [-> ->]. auto.
      * unfold searchFailed.
        destruct (failed_at h l "No se pudo encontrar el ATM") as [_ ->]. simpl. lia.
  - intros (Hnd & Hl & HP & HS & HU).
    rewrite (drop_S _ _ _ Hl) in HU. apply Forall_cons in HU as [[HUs HUe] HU].
    match goal with |- context [Atleos.createIncident world formatDate ?r ?c] =>
      pose proof (createIncident_hardSteps world formatDate r c) as Hfst;
      destruct (Atleos.createIncident world formatDate r c) as [[e | ok] c'] end;
      cbn [fst snd] in *; [discriminate |].
    unfold Atleos.created.
    destruct ok; cbv beta iota zeta;
      apply (tally_after_write now i l s _ h _ _); simpl; auto.
    + intros x Hx. now apply completed_off.
    + left. destruct (completed_at h l) as [-> ->]. auto.
    + unfold searchFailed. destruct (completed_at h l) as [_ ->]. now rewrite HUe.
    + intros x Hx. now apply failed_off.
    + right. destruct (failed_at h l "Error creando incidente") as [-> ->]. auto.
    + unfold searchFailed. now destruct (failed_at h l "Error creando incidente") as [_ ->].
  - intros (Hnd & Hl & HP & Hsf & HS & HU).
    rewrite (take_S_r _ _ _ Hl) in HS. apply Forall_app in HS as [HS Hset].
    apply Forall_cons in Hset as [Hset _].
    unfold Atleos.endOfBody.
    apply (tally_next now i l s _ h h _); simpl; auto.
    rewrite Hsf. lia.
  - intros (Hnd & H).
    unfold Atleos.close. simpl. destruct (Atleos.its_browser t); simpl; auto.
  - intros H. unfold atleosTally. rewrite Ep. exact H.
Qed.

Lemma atleos_step_tallies j sv e :
  atleosBatchStep j e = true ->
  atleosTallies sv j ->
  atleosTallies (Atleos.step world formatDate sv e) j.
Proof.
  destruct e as [now [r | k]]; unfold atleosBatchStep; simpl;
    intros He (t & Ht & Hgood).
  - destruct r; try discriminate; simpl; exists t; (split; [exact Ht |]);
      exact Hgood.
  - apply Nat.eqb_eq in He. subst k. unfold Atleos.resumeTask. rewrite Ht.
    pose proof (atleos_resume_tally now _ _ _ Hgood) as H.
    destruct (Atleos.processRecords _ _ _ _) as [[s' h'] t']. simpl.
    exists t'. split; [| exact H].
    apply list_lookup_insert_eq. now apply lookup_lt_Some in Ht.
Qed.

Lemma atleos_run_tallies j evs : forall sv,
  forallb (atleosBatchStep j) evs = true ->
  atleosTallies sv j ->
  atleosTallies (Atleos.run world formatDate evs sv) j.
Proof.
  induction evs as [| e evs IH]; intros sv He H; [exact H |].
  simpl in He. apply andb_true_iff in He as [He1 He2].
  simpl. apply IH; [exact He2 |]. now apply atleos_step_tallies.
Qed.

(** The runner writes nothing of a record but its status and its error. *)
Lemma sameRow_refl r : sameRow r r.
Proof. repeat split. Qed.

Lemma sameRow_trans r1 r2 r3 : sameRow r1 r2 -> sameRow r2 r3 -> sameRow r1 r3.
Proof. unfold sameRow. intuition congruence. Qed.

Lemma atleos_resume_sameRow now s h t x :
  sameRow (snd (fst (Atleos.processRecords world formatDate now (s, h, t))) x) (h x).
Proof.
  destruct (atleos_resume_store world formatDate now s h t)
    as [-> | (i & l & _ & [-> | [msg ->]])];
    [apply sameRow_refl | |]; unfold Atleos.update;
    destruct (x =? l); repeat split.
Qed.

Lemma atleos_step_sameRow j sv e x :
  atleosBatchStep j e = true ->
  sameRow (Atleos.objects (Atleos.step world formatDate sv e) x) (Atleos.objects sv x).
Proof.
  destruct e as [now [r | k]]; unfold atleosBatchStep; simpl; intros He.
  - destruct r; try discriminate; apply sameRow_refl.
  - unfold Atleos.resumeTask. destruct (Atleos.tasks sv !! k) as [t |]; [| apply sameRow_refl].
    pose proof (atleos_resume_sameRow now (Atleos.currentProcessing sv)
                  (Atleos.objects sv) t x) as H.
    destruct (Atleos.processRecords _ _ _ _) as [[s' h'] t']. exact H.
Qed.

Lemma atleos_run_sameRow j evs x : forall sv,
  forallb (atleosBatchStep j) evs = true ->
  sameRow (Atleos.objects (Atleos.run world formatDate evs sv) x) (Atleos.objects sv x).
Proof.
  induction evs as [| e evs IH]; intros sv He; [apply sameRow_refl |].
  simpl in He. apply andb_true_iff in He as [He1 He2]. simpl.
  eapply sameRow_trans; [apply IH; exact He2 | now apply (atleos_step_sameRow j)].
Qed.

End Tally.

Lemma Forall2_fmap_same {A B} (R : B -> B -> Prop) (h1 h0 : A -> B) ls :
  (forall x, R (h1 x) (h0 x)) -> Forall2 R (h1 <$> ls) (h0 <$> ls).
Proof.
  intros H. induction ls as [| x ls IH]; simpl; constructor; auto.
Qed.

(** X9: the outcome of a batch on a freshly uploaded sheet.  Once the runner
    has been resumed often enough, whatever the page answered and whether or
    not stop was requested: the batch still holds the uploaded rows, changed
    in [status] and [error] at most; and either the run was abandoned before
    the first record (launch or login failed: no record touched, count 0),
    or every record is settled - [completed] without error text, or [error]
    with the text of the failed search or of the failed creation - and the
    processed count is the number of records less those whose ATM was not
    found: a failed search is never counted. *)
Theorem uploaded_batch_is_settled :
  forall world formatDate now0 now1 data body sv evs,
    let svU := snd (Atleos.handle now0 (Atleos.UploadExcel (Atleos.Sheet data)) sv) in
    fst (Atleos.handle now1 (Atleos.StartProcessing body) svU) = Atleos.Started ->
    let j := length (Atleos.tasks sv) in
    forallb (atleosBatchStep j) evs = true ->
    3 * length (Atleos.uploadedRecords data) + 3 <= resumesOf j evs ->
    let sv1 := Atleos.run world formatDate evs
                 (snd (Atleos.handle now1 (Atleos.StartProcessing body) svU)) in
    let final := Atleos.objects sv1 <$> Atleos.records (Atleos.currentProcessing sv1) in
    Forall2 sameRow final (Atleos.uploadedRecords data)
    /\ ((Atleos.processedRecords (Atleos.currentProcessing sv1) = 0
         /\ Forall untouched final)
        \/ (Forall settledWell final
            /\ Atleos.processedRecords (Atleos.currentProcessing sv1)
               + length (List.filter searchFailed final)
               = length final)).
Proof.
  intros world formatDate now0 now1 data body sv evs svU Hstart j Hevs Hn sv1 final.
  set (sv0 := snd (Atleos.handle now1 (Atleos.StartProcessing body) svU)) in *.
  pose proof (atleos_start_started now1 body svU Hstart) as Hst. fold sv0 in Hst.
  change (length (Atleos.tasks svU)) with j in Hst.
  pose proof (atleos_started_holds world sv0 _ Hst) as H0.
  destruct Hst as (t0 & Ht0 & Hp0 & _ & _ & Hcount0).
  destruct (atleos_start_spawns body svU Hstart) as (cred & _ & _ & Esv0).
  change (snd (Atleos.startProcessing body svU)) with sv0 in Esv0.
  assert (Hrecs0 : Atleos.records (Atleos.currentProcessing sv0)
                   = seq (Atleos.fresh sv) (length (Atleos.uploadedRecords data)))
    by (rewrite Esv0; reflexivity).
  assert (Hobj0 : Atleos.objects sv0
                  = Atleos.allocate (Atleos.objects sv) (Atleos.fresh sv)
                      (Atleos.uploadedRecords data))
    by (rewrite Esv0; reflexivity).
  assert (HT0 : atleosTallies sv0 j).
  { exists t0. split; [exact Ht0 |]. unfold atleosTally. rewrite Hp0, Hrecs0, Hobj0.
    split; [apply NoDup_seq |]. split; [exact Hcount0 |].
    apply allocated_untouched, uploaded_untouched. }
  destruct (atleos_run_left world formatDate _ evs sv0 t0 Hevs H0 Ht0)
    as [Hrec (t & Ht & Hleft)].
  destruct (atleos_run_holds world formatDate _ evs sv0 Hevs H0) as (t' & Ht' & Hgood).
  destruct (atleos_run_tallies world formatDate _ evs sv0 Hevs HT0) as (t'' & Ht'' & Htally).
  fold sv1 in Ht, Ht', Ht'', Hgood, Htally, Hrec.
  rewrite Ht in Ht', Ht''. injection Ht' as <-. injection Ht'' as <-.
  assert (Hfin : Atleos.place t = Atleos.Finished).
  { apply (atleos_left_zero world _ _ _ Hgood).
    rewrite Hp0 in Hleft. simpl in Hleft. rewrite Hrec.
    rewrite Hrecs0, length_seq in *. lia. }
  split.
  - assert (Hup : Atleos.objects sv0 <$> Atleos.records (Atleos.currentProcessing sv0)
                  = Atleos.uploadedRecords data)
      by (rewrite Hobj0, Hrecs0; apply atleos_allocate_seq).
    unfold final. rewrite Hrec, <- Hup.
    apply Forall2_fmap_same. intros x.
    now apply (atleos_run_sameRow world formatDate j).
  - unfold atleosTally in Htally. rewrite Hfin in Htally.
    destruct Htally as [_ [[HP HU] | [HP HS]]]; [left | right]; unfold final.
    + split; [exact HP | now apply Forall_fmap].
    + split; [now apply Forall_fmap |].
      rewrite <- notFoundAmong_fmap, length_fmap. exact HP.
Qed.

(** Three rows are uploaded, two are kept; the batch is started and the
    runner resumed nine times on a page where every call resolves. *)
Lemma two_uploaded_records_are_settled :
  let sv1 := Atleos.run allFound text_of (resumeTimes 9) (uploadedAndStarted None) in
  let final := Atleos.objects sv1 <$> Atleos.records (Atleos.currentProcessing sv1) in
  Forall2 sameRow final (Atleos.uploadedRecords threeRows)
  /\ ((Atleos.processedRecords (Atleos.currentProcessing sv1) = 0
       /\ Forall untouched final)
      \/ (Forall settledWell final
          /\ Atleos.processedRecords (Atleos.currentProcessing sv1)
             + length (List.filter searchFailed final)
             = length final)).
Proof.
  apply (uploaded_batch_is_settled allFound text_of 0 1 threeRows (startBody None)
           Atleos.boot (resumeTimes 9)).
  - reflexivity.
  - reflexivity.
  - vm_compute. lia.
Defined.

(** On a page where ATM003 is not found the batch of two ends with one
    record counted of two. *)
Example failed_search_is_not_counted :
  let sv1 := Atleos.run withoutATM003 text_of (resumeTimes 9) (uploadedAndStarted None) in
  let final := Atleos.objects sv1 <$> Atleos.records (Atleos.currentProcessing sv1) in
  map Atleos.status final = ["completed"; "error"]
  /\ map Atleos.error final = [None; Some "No se pudo encontrar el ATM"]
  /\ Atleos.processedRecords (Atleos.currentProcessing sv1) = 1
  /\ Atleos.totalRecords (Atleos.currentProcessing sv1) = 2
  /\ Atleos.isProcessing (Atleos.currentProcessing sv1) = false.
Proof. vm_compute. repeat split; reflexivity. Qed.

(** ** The delay between two records *)

Section Waits.

Variable world : list Atleos.call -> Atleos.call -> Atleos.response.
Variable formatDate : cell -> string.

Lemma delayOf_some cfg d :
  Atleos.delayOf cfg = Some d ->
  exists c d, cfg = Some c /\ Atleos.delay c = Some d /\ d <> 0%N.
Proof.
  unfold Atleos.delayOf. destruct cfg as [[[d' |]] |]; try discriminate.
  destruct (N.eqb d' 0) eqn:E; [discriminate |]. intros _.
  apply N.eqb_neq in E. eauto.
Qed.

Lemma atleos_resume_waits now s h t :
  atleosWaits (Atleos.processRecords world formatDate now (s, h, t)).
Proof.
  unfold atleosWaits.
  destruct (Atleos.place (snd (Atleos.processRecords world formatDate now (s, h, t))))
    as [| | | | i l | |] eqn:E; try exact I.
  revert E. unfold Atleos.processRecords.
  destruct (Atleos.place t) eqn:Ep; rewrite ?atleos_invoke_eq; cbv zeta;
    unfold Atleos.caught, Atleos.notFound, Atleos.created,
      Atleos.fatal, Atleos.endOfBody, Atleos.iteration, Atleos.finally;
    simpl; split_paths; simpl; intros H; try discriminate; try congruence;
    injection H as <- <-;
    (split; [eapply delayOf_some; eassumption |]);
    match goal with E : (_ <? _) = true |- _ => apply Nat.ltb_lt in E; exact E end.
Qed.

End Waits.

(** X10: [processRecords] pauses between two records only.  A runner that
    waits on the delay timer was given a delay that is neither missing nor
    0, and the record it has just finished is not the last of the batch. *)
Theorem runner_waits_only_between_records :
  forall world formatDate now body sv evs,
    fst (Atleos.handle now (Atleos.StartProcessing body) sv) = Atleos.Started ->
    forallb (atleosBatchStep (length (Atleos.tasks sv))) evs = true ->
    let sv1 := Atleos.run world formatDate evs
                 (snd (Atleos.handle now (Atleos.StartProcessing body) sv)) in
    exists t,
      Atleos.tasks sv1 !! length (Atleos.tasks sv) = Some t
      /\ Atleos.its_config t = Atleos.body_config body
      /\ forall i l,
          Atleos.place t = Atleos.InDelay i l ->
          (exists c d, Atleos.body_config body = Some c /\ Atleos.delay c = Some d
                       /\ d <> 0%N)
          /\ S i < length (Atleos.records (Atleos.currentProcessing sv1)).
Proof.
  intros world formatDate now body sv evs Hstart Hevs sv1.
  set (j := length (Atleos.tasks sv)) in *.
  assert (H : exists t,
             Atleos.tasks sv1 !! j = Some t
             /\ Atleos.its_config t = Atleos.body_config body
             /\ atleosWaits (Atleos.currentProcessing sv1, Atleos.objects sv1, t)).
  { subst sv1.
    assert (H0 : exists t,
               Atleos.tasks (snd (Atleos.handle now (Atleos.StartProcessing body) sv)) !! j
               = Some t
               /\ Atleos.its_config t = Atleos.body_config body
               /\ atleosWaits
                    (Atleos.currentProcessing
                       (snd (Atleos.handle now (Atleos.StartProcessing body) sv)),
                     Atleos.objects
                       (snd (Atleos.handle now (Atleos.StartProcessing body) sv)), t)).
    { destruct (atleos_start_spawns body sv Hstart) as (cred & _ & _ & E).
      simpl. rewrite E. eexists. split; [apply list_lookup_middle; reflexivity |].
      split; [reflexivity | exact I]. }
    revert H0. generalize (snd (Atleos.handle now (Atleos.StartProcessing body) sv)).
    induction evs as [| e evs IH]; intros sv0 H0; [exact H0 |].
    simpl in Hevs. apply andb_true_iff in Hevs as [He Hevs].
    simpl. apply (IH Hevs). destruct H0 as (t & Ht & Hc & Hw).
    destruct e as [now' [r | k]]; unfold atleosBatchStep in He; simpl in He.
    - destruct r; try discriminate; simpl; exists t; auto.
    - apply Nat.eqb_eq in He. subst k. simpl. unfold Atleos.resumeTask. rewrite Ht.
      pose proof (atleos_resume_waits world formatDate now'
                    (Atleos.currentProcessing sv0) (Atleos.objects sv0) t) as Hw'.
      pose proof (atleos_resume_credentials world formatDate now'
                    (Atleos.currentProcessing sv0) (Atleos.objects sv0) t) as [_ Hc'].
      destruct (Atleos.processRecords _ _ _ _) as [[s' h'] t']. simpl in *.
      exists t'. split; [apply list_lookup_insert_eq; now apply lookup_lt_Some in Ht |].
      split; [congruence | exact Hw']. }
  destruct H as (t & Ht & Hc & Hw). exists t. split; [exact Ht |]. split; [exact Hc |].
  intros i l Hp. unfold atleosWaits in Hw. simpl in Hw. rewrite Hp, Hc in Hw. exact Hw.
Qed.

(** With a delay of 500 ms, the runner of the batch of two waits after the
    first record. *)
Lemma runner_waits_after_the_first_record :
  let sv1 := Atleos.run allFound text_of (resumeTimes 4) (uploadedAndStarted (Some 500%N)) in
  exists t,
    Atleos.tasks sv1 !! 0 = Some t
    /\ Atleos.its_config t = Atleos.body_config (startBody (Some 500%N))
    /\ forall i l,
        Atleos.place t = Atleos.InDelay i l ->
        (exists c d, Atleos.body_config (startBody (Some 500%N)) = Some c
                     /\ Atleos.delay c = Some d /\ d <> 0%N)
        /\ S i < length (Atleos.records (Atleos.currentProcessing sv1)).
Proof.
  apply (runner_waits_only_between_records allFound text_of 1 (startBody (Some 500%N))
           (snd (Atleos.handle 0 (Atleos.UploadExcel (Atleos.Sheet threeRows)) Atleos.boot))
           (resumeTimes 4)).
  - reflexivity.
  - reflexivity.
Defined.

(** The runner of that witness is indeed waiting. *)
Example runner_is_waiting :
  Atleos.place <$>
    Atleos.tasks (Atleos.run allFound text_of (resumeTimes 4)
                    (uploadedAndStarted (Some 500%N))) !! 0
  = Some (Atleos.InDelay 0 0).
Proof. vm_compute. reflexivity. Qed.

(** ** Clearing the data during a batch *)

Section Cleared.

Variable world : list Atleos.call -> Atleos.call -> Atleos.response.
Variable formatDate : cell -> string.



End Cleared.

Section ClearedRuns.

Variable world : list Atleos.call -> Atleos.call -> Atleos.response.
Variable formatDate : cell -> string.


End ClearedRuns.



(** In that run the first record is completed, the second stays pending,
    and the cleared session counts one record of none. *)
Example cleared_session_counts_one_of_none :
  let sv1 := Atleos.run allFound text_of (resumeTimes 3)
               (snd (Atleos.handle 9 Atleos.ClearData creatingTheFirst)) in
  Atleos.status (Atleos.objects sv1 0) = "completed"
  /\ Atleos.status (Atleos.objects sv1 1) = "pending"
  /\ Atleos.processedRecords (Atleos.currentProcessing sv1) = 1
  /\ Atleos.totalRecords (Atleos.currentProcessing sv1) = 0
  /\ Atleos.place <$> Atleos.tasks sv1 !! 0 = Some Atleos.Finished.
Proof. vm_compute. repeat split; reflexivity. Qed.

(** ** The draws decide the records *)

Lemma lookup_snoc {A} (l : list A) (x : A) p :
  (l ++ [x]) !! p
  = if p <? length l then l !! p else if p =? length l then Some x else None.
Proof.
  destruct (p <? length l) eqn:E1.
  - apply Nat.ltb_lt in E1. now rewrite lookup_app_l.
  - apply Nat.ltb_ge in E1. rewrite lookup_app_r by exact E1.
    destruct (p =? length l) eqn:E2.
    + apply Nat.eqb_eq in E2. subst p. now rewrite Nat.sub_diag.
    + apply Nat.eqb_neq in E2. destruct (p - length l) as [| q] eqn:E3; [lia |].
      reflexivity.
Qed.

Lemma simulated_allocate_new h a rs k r :
  rs !! k = Some r -> Simulated.allocate h a rs (a + k) = r.
Proof.
  intros H. unfold Simulated.allocate.
  pose proof (lookup_lt_Some _ _ _ H) as Hlt.
  replace ((a <=? a + k) && (a + k <? a + length rs)) with true.
  - replace (a + k - a) with k by lia. now apply nth_lookup_Some.
  - symmetry. apply andb_true_iff. split; [apply Nat.leb_le | apply Nat.ltb_lt]; lia.
Qed.

Lemma simulated_resume_drawn a rs fs now d s h t :
  simulatedDrawn a rs fs (s, h, t) ->
  length fs < 3 * length rs + 1 ->
  simulatedDrawn a rs (fs ++ [(now, d)]) (Simulated.simulateAptraProcessing now d (s, h, t)).
Proof.
  unfold simulatedDrawn. cbv zeta. cbn [fst snd].
  intros (Hrecs & Hfired & Hplace & Hobj) Hlt.
  assert (Hlook : forall i, i < length rs ->
            @lookup nat Simulated.loc _ _ i (Simulated.its_records t) = Some (a + i))
    by (intros i Hi; rewrite Hrecs; now apply lookup_seq_lt).
  assert (Hnone : @lookup nat Simulated.loc _ _ (length rs) (Simulated.its_records t)
                  = None)
    by (rewrite Hrecs; apply lookup_seq_ge; lia).
  assert (Hkeep : forall k r, rs !! k = Some r -> 3 * k + 2 <> length fs ->
            h (a + k) = match (fs ++ [(now, d)]) !! (3 * k + 2) with
                        | Some f => drawn (snd f) r
                        | None => r
                        end).
  { intros k r Hr Hne. rewrite (Hobj k r Hr), lookup_snoc.
    destruct (3 * k + 2 <? length fs) eqn:E; [reflexivity |].
    apply Nat.ltb_ge in E. rewrite (lookup_ge_None_2 fs) by exact E.
    destruct (3 * k + 2 =? length fs) eqn:E'; [apply Nat.eqb_eq in E'; lia | reflexivity]. }
  rewrite length_app. simpl length.
  unfold Simulated.simulateAptraProcessing.
  destruct (Simulated.place t) as [| i | i | i |] eqn:Ep; simpl in Hfired.
  - unfold Simulated.iteration. cbv beta iota zeta.
    destruct (length rs) as [| n] eqn:En.
    + rewrite Hnone. cbn [fst snd Simulated.place Simulated.at_place Simulated.its_records].
      split; [exact Hrecs |]. split; [simpl; lia |].
      split; [unfold Simulated.release; simpl; autorewrite with simulated; simpl;
              rewrite Hrecs; auto |].
      intros k r Hr. apply Hkeep; [exact Hr | lia].
    + rewrite (Hlook 0) by lia. autorewrite with simulated. rewrite Hplace.
      cbn [fst snd Simulated.place Simulated.at_place Simulated.its_records].
      split; [exact Hrecs |]. split; [simpl; lia |].
      split; [split; [lia |]; repeat (autorewrite with simulated; simpl); exact Hplace |].
      intros k r Hr. apply Hkeep; [exact Hr | lia].
  - destruct Hplace as [Hi Hproc]. rewrite (Hlook i Hi).
    cbn [fst snd Simulated.place Simulated.at_place Simulated.its_records].
    split; [exact Hrecs |]. split; [simpl; lia |].
    split; [autorewrite with simulated; auto |].
    intros k r Hr. apply Hkeep; [exact Hr | lia].
  - destruct Hplace as [Hi Hproc]. unfold Simulated.decided. cbv beta iota zeta.
    rewrite (Hlook i Hi).
    assert (Hnew : forall k r, rs !! k = Some r ->
              Simulated.update h (a + i)
                (if d then Simulated.settle "completed" "Evento creado exitosamente"
                 else Simulated.settle "failed" "Error simulado") (a + k)
              = match (fs ++ [(now, d)]) !! (3 * k + 2) with
                | Some f => drawn (snd f) r
                | None => r
                end).
    { intros k r Hr. unfold Simulated.update.
      destruct (a + k =? a + i) eqn:E.
      - apply Nat.eqb_eq in E. assert (k = i) by lia. subst k.
        rewrite lookup_snoc.
        replace (3 * i + 2 <? length fs) with false
          by (symmetry; apply Nat.ltb_ge; lia).
        replace (3 * i + 2 =? length fs) with true
          by (symmetry; apply Nat.eqb_eq; lia).
        rewrite (Hobj i r Hr), (lookup_ge_None_2 fs) by lia.
        unfold drawn. simpl. now destruct d.
      - apply Nat.eqb_neq in E. apply Hkeep; [exact Hr | lia]. }
    destruct d;
      cbn [fst snd Simulated.place Simulated.at_place Simulated.its_records];
      (split; [exact Hrecs |]); (split; [simpl; lia |]);
      (split; [autorewrite with simulated; auto |]);
      intros k r Hr; apply (Hnew k r Hr).
  - destruct Hplace as [Hi Hproc]. unfold Simulated.iteration. cbv beta iota zeta.
    destruct (S i <? length rs) eqn:E.
    + apply Nat.ltb_lt in E. rewrite (Hlook (S i) E), Hproc.
      cbn [fst snd Simulated.place Simulated.at_place Simulated.its_records].
      split; [exact Hrecs |]. split; [simpl; lia |].
      split; [autorewrite with simulated; simpl; auto |].
      intros k r Hr. apply Hkeep; [exact Hr | lia].
    + apply Nat.ltb_ge in E. assert (HS : S i = length rs) by lia.
      rewrite HS, Hnone.
      cbn [fst snd Simulated.place Simulated.at_place Simulated.its_records].
      split; [exact Hrecs |]. split; [simpl; lia |].
      split; [unfold Simulated.release; simpl; autorewrite with simulated; simpl;
              rewrite Hrecs, length_seq; auto |].
      intros k r Hr. apply Hkeep; [exact Hr | lia].
  - lia.
Qed.

Lemma simulated_start_drawn now cfg rs sv :
  fst (Simulated.process now cfg rs sv) = Simulated.Started ->
  exists t,
    Simulated.tasks (snd (Simulated.process now cfg rs sv)) !! length (Simulated.tasks sv)
    = Some t
    /\ simulatedDrawn (Simulated.fresh sv) rs []
         (Simulated.processingState (snd (Simulated.process now cfg rs sv)),
          Simulated.objects (snd (Simulated.process now cfg rs sv)), t).
Proof.
  unfold Simulated.process.
  destruct (Simulated.isProcessing _); [discriminate |].
  destruct (_ || _); [discriminate |]. intros _. cbv zeta. cbn [snd].
  eexists. split; [apply list_lookup_middle; reflexivity |].
  unfold simulatedDrawn. cbn [fst snd Simulated.its_records Simulated.place
                              Simulated.processingState Simulated.objects].
  split; [reflexivity |]. split; [reflexivity |].
  split; [autorewrite with simulated; reflexivity |].
  intros k r Hr. now apply simulated_allocate_new.
Qed.

Lemma simulated_run_drawn a rs j sv0 fs :
  (exists t, Simulated.tasks sv0 !! j = Some t
             /\ simulatedDrawn a rs []
                  (Simulated.processingState sv0, Simulated.objects sv0, t)) ->
  length fs <= 3 * length rs + 1 ->
  let sv1 := Simulated.run (firingsFor j fs) sv0 in
  exists t, Simulated.tasks sv1 !! j = Some t
            /\ simulatedDrawn a rs fs
                 (Simulated.processingState sv1, Simulated.objects sv1, t).
Proof.
  intros H0. induction fs as [| [now d] fs IH] using rev_ind; intros Hlen; cbv zeta.
  - exact H0.
  - rewrite length_app in Hlen. simpl in Hlen.
    destruct IH as (t & Ht & Hd); [lia |].
    unfold firingsFor, Simulated.run. rewrite map_app, fold_left_app. simpl.
    fold (firingsFor j fs). fold (Simulated.run (firingsFor j fs) sv0).
    unfold Simulated.resumeTask. rewrite Ht.
    pose proof (simulated_resume_drawn a rs fs now d _ _ _ Hd) as Hd'.
    destruct (Simulated.simulateAptraProcessing _ _ _) as [[s' h'] t']. simpl.
    exists t'. split; [apply list_lookup_insert_eq; now apply lookup_lt_Some in Ht |].
    apply Hd'. lia.
Qed.

(** X12: a run of [simulateAptraProcessing] that is not stopped is decided
    by the draws of [Math.random].  The runner of [n] records finishes with
    its timer firing number [3 n + 1]; record [k] was then decided by the draw
    brought by firing [3 k + 2], the third timer of its loop body - a success
    marks it [completed], a failure [failed], each with its result text -
    and is otherwise as it was submitted; [isProcessing] is false,
    [currentRecord] empty and the processed count is [n]. *)
Theorem simulated_outcome_follows_the_draws :
  forall now cfg rs sv fs,
    fst (Simulated.handle now (Simulated.Process cfg rs) sv) = Simulated.Started ->
    length fs = 3 * length rs + 1 ->
    let j := length (Simulated.tasks sv) in
    let sv1 := Simulated.run (firingsFor j fs)
                 (snd (Simulated.handle now (Simulated.Process cfg rs) sv)) in
    Simulated.place <$> Simulated.tasks sv1 !! j = Some Simulated.Finished
    /\ Simulated.isProcessing (Simulated.processingState sv1) = false
    /\ Simulated.currentRecord (Simulated.processingState sv1) = None
    /\ Simulated.processedCount (Simulated.processingState sv1) = length rs
    /\ forall k r f,
        rs !! k = Some r -> fs !! (3 * k + 2) = Some f ->
        Simulated.objects sv1 (Simulated.fresh sv + k) = drawn (snd f) r.
Proof.
  intros now cfg rs sv fs Hstart Hlen j sv1.
  destruct (simulated_run_drawn (Simulated.fresh sv) rs j
              (snd (Simulated.handle now (Simulated.Process cfg rs) sv)) fs
              (simulated_start_drawn now cfg rs sv Hstart)) as (t & Ht & Hd); [lia |].
  fold sv1 in Ht, Hd. unfold simulatedDrawn in Hd. cbn [fst snd] in Hd.
  destruct Hd as (_ & Hfired & Hplace & Hobj).
  assert (Hfin : Simulated.place t = Simulated.Finished).
  { destruct (Simulated.place t); simpl in Hfired; try reflexivity; try lia;
      destruct Hplace as [Hi _]; lia. }
  rewrite Hfin in Hplace. destruct Hplace as (Hp & Hc & Hn).
  split; [rewrite Ht; simpl; now rewrite Hfin |].
  repeat (split; [assumption |]).
  intros k r f Hr Hf. rewrite (Hobj k r Hr), Hf. reflexivity.
Qed.

(** Two pending records, the first drawn a success and the second a
    failure. *)
Lemma two_records_follow_their_draws :
  let sv1 := Simulated.run (firingsFor 0 sevenFirings) simulatedStartedTwo in
  Simulated.place <$> Simulated.tasks sv1 !! 0 = Some Simulated.Finished
  /\ Simulated.isProcessing (Simulated.processingState sv1) = false
  /\ Simulated.currentRecord (Simulated.processingState sv1) = None
  /\ Simulated.processedCount (Simulated.processingState sv1) = 2
  /\ forall k r f,
      twoPending !! k = Some r -> sevenFirings !! (3 * k + 2) = Some f ->
      Simulated.objects sv1 (0 + k) = drawn (snd f) r.
Proof.
  apply (simulated_outcome_follows_the_draws 1 simulatedConfig twoPending
           Simulated.boot sevenFirings).
  - reflexivity.
  - reflexivity.
Defined.

(** In that run the first record ends completed and the second failed. *)
Example first_completed_second_failed :
  let sv1 := Simulated.run (firingsFor 0 sevenFirings) simulatedStartedTwo in
  map (fun l => (Simulated.status (Simulated.objects sv1 l),
                 Simulated.result (Simulated.objects sv1 l))) [0; 1]
  = [ ("completed", Some "Evento creado exitosamente");
      ("failed", Some "Error simulado") ].
Proof. vm_compute. reflexivity. Qed.

(** ** The progress *)

Lemma percentages_spec n :
  percentages n = true ->
  forall total processed,
    0 < total -> total <= n -> processed <= total ->
    percentage total processed = true.
Proof.
  unfold percentages. intros H total processed H0 Hn Hp.
  rewrite forallb_forall in H.
  destruct total as [| total]; [lia |].
  assert (Ht : In total (seq 0 n)) by (apply in_seq; lia).
  specialize (H total Ht). rewrite forallb_forall in H.
  apply H. apply in_seq. lia.
Qed.

Lemma percentages_200 : percentages 200 = true.
Proof. vm_compute. reflexivity. Qed.

(** X13: the [progress] of the status reply, computed in double arithmetic
    as the handler does, for every batch of up to 200 records of which no
    more are counted than there are: it is a whole number from 0 to 100, 0
    when nothing is counted and 100 when all is, it never decreases as the
    count grows, and it is the exact percentage rounded to the nearest
    integer or, where the doubles fall just short of a tie, one below it.
    Without records it is 0. *)
Theorem progress_is_a_percentage :
  forall processed total,
    total <= 200 -> processed <= total ->
    (0 <= progressOf processed total <= 100)%Z
    /\ (processed = 0 -> progressOf processed total = 0%Z)
    /\ (0 < total -> processed = total -> progressOf processed total = 100%Z)
    /\ (0 < total ->
        (nearestPercent processed total - 1 <= progressOf processed total
         <= nearestPercent processed total)%Z)
    /\ (processed < total ->
        (progressOf processed total <= progressOf (S processed) total)%Z).
Proof.
  intros processed total Ht Hp.
  destruct total as [| total].
  - assert (processed = 0) by lia. subst processed.
    unfold progressOf. simpl. repeat split; try lia.
  - pose proof (percentages_spec 200 percentages_200 (S total) processed
                  ltac:(lia) Ht Hp) as H.
    unfold percentage in H. cbv zeta in H.
    repeat (apply andb_true_iff in H as [H ?]).
    repeat match goal with
           | H : (_ <=? _)%Z = true |- _ => apply Z.leb_le in H
           end.
    split; [lia |]. split.
    + intros ->. simpl in *.
      match goal with H : (_ =? 0)%Z = true |- _ => now apply Z.eqb_eq in H end.
    + split.
      * intros _ ->. rewrite Nat.eqb_refl in *.
        match goal with H : (_ =? 100)%Z = true |- _ => now apply Z.eqb_eq in H end.
      * split; [intros _; lia | intros _; lia].
Qed.

(** A batch of 200 records of which 29 are counted. *)
Lemma progress_of_29_in_200 :
  (0 <= progressOf 29 200 <= 100)%Z
  /\ (29 = 0 -> progressOf 29 200 = 0%Z)
  /\ (0 < 200 -> 29 = 200 -> progressOf 29 200 = 100%Z)
  /\ (0 < 200 ->
      (nearestPercent 29 200 - 1 <= progressOf 29 200 <= nearestPercent 29 200)%Z)
  /\ (29 < 200 -> (progressOf 29 200 <= progressOf 30 200)%Z).
Proof.
  apply (progress_is_a_percentage 29 200); lia.
Defined.

(** 29 of 200 is 14.5 per cent; the doubles give 14.499999999999998, so the
    progress shown is 14.  And the progress shows 100 when one record of 200
    is still to come. *)
Example progress_falls_short_of_a_tie :
  progressOf 29 200 = 14%Z /\ nearestPercent 29 200 = 15%Z
  /\ progressOf 1 8 = 13%Z /\ progressOf 199 200 = 100%Z.
Proof. vm_compute. repeat split; reflexivity. Qed.

(** ** The count of a finished simulated run *)

Lemma simulated_resume_total now success s h t :
  Simulated.totalCount (fst (fst (Simulated.simulateAptraProcessing now success (s, h, t))))
  = Simulated.totalCount s.
Proof.
  simulated_paths; autorewrite with simulated; simpl; autorewrite with simulated;
    reflexivity.
Qed.

Lemma simulated_run_total quiet j evs : forall sv,
  forallb (simulatedBatchStep quiet j) evs = true ->
  Simulated.totalCount (Simulated.processingState (Simulated.run evs sv))
  = Simulated.totalCount (Simulated.processingState sv).
Proof.
  induction evs as [| e evs IH]; intros sv He; [reflexivity |].
  simpl in He. apply andb_true_iff in He as [He1 He2]. simpl.
  rewrite (IH _ He2). clear IH He2.
  destruct e as [now [r | k success]]; unfold simulatedBatchStep in He1; simpl in He1.
  - destruct r; try discriminate; simpl; autorewrite with simulated; reflexivity.
  - simpl. unfold Simulated.resumeTask.
    destruct (Simulated.tasks sv !! k) as [t |]; [| reflexivity].
    pose proof (simulated_resume_total now success (Simulated.processingState sv)
                  (Simulated.objects sv) t) as H.
    destruct (Simulated.simulateAptraProcessing _ _ _) as [[s' h'] t']. exact H.
Qed.

(** X14: when [simulateAptraProcessing] has finished, the processed count
    is the number of records submitted, which is the total count: the
    progress a client derives is complete, also when a stop request ended
    the run and left records pending. *)
Theorem simulated_count_ends_at_the_total :
  forall now cfg rs sv evs,
    fst (Simulated.handle now (Simulated.Process cfg rs) sv) = Simulated.Started ->
    forallb (simulatedBatchStep false (length (Simulated.tasks sv))) evs = true ->
    let sv1 := Simulated.run evs
                 (snd (Simulated.handle now (Simulated.Process cfg rs) sv)) in
    Simulated.totalCount (Simulated.processingState sv1) = length rs
    /\ exists t,
        Simulated.tasks sv1 !! length (Simulated.tasks sv) = Some t
        /\ (Simulated.place t = Simulated.Finished ->
            Simulated.processedCount (Simulated.processingState sv1) = length rs).
Proof.
  intros now cfg rs sv evs Hstart Hevs sv1.
  set (sv0 := snd (Simulated.handle now (Simulated.Process cfg rs) sv)) in *.
  split.
  - unfold sv1. rewrite (simulated_run_total false _ evs sv0 Hevs).
    unfold sv0. simpl.
    exact (proj1 (proj2 (simulated_process_spawns now cfg rs sv Hstart))).
  - pose proof (simulated_start_started now cfg rs sv Hstart) as Hst. fold sv0 in Hst.
    pose proof (simulated_started_holds false sv0 _ Hst) as H0.
    destruct Hst as (t0 & Ht0 & _).
    assert (Hrs : length (Simulated.its_records t0) = length rs)
      by exact (simulated_start_records now cfg rs sv t0 Hstart Ht0).
    destruct (simulated_run_left false _ evs sv0 t0 Hevs H0 Ht0)
      as (t & Ht & Hrec & _).
    destruct (simulated_run_holds false _ evs sv0 Hevs H0) as (t' & Ht' & Hgood).
    fold sv1 in Ht, Ht', Hgood. rewrite Ht in Ht'. injection Ht' as <-.
    exists t. split; [exact Ht |].
    intros Hp. unfold simulatedGood in Hgood. rewrite Hp in Hgood.
    destruct Hgood as (_ & _ & _ & Hcount & _). rewrite Hcount, Hrec. exact Hrs.
Qed.

(** Two records are started and the run is stopped during the first. *)
Lemma stopped_run_counts_both_records :
  let sv1 := Simulated.run stoppedAfterTheFirst simulatedStartedTwo in
  Simulated.totalCount (Simulated.processingState sv1) = 2
  /\ exists t,
      Simulated.tasks sv1 !! 0 = Some t
      /\ (Simulated.place t = Simulated.Finished ->
          Simulated.processedCount (Simulated.processingState sv1) = 2).
Proof.
  apply (simulated_count_ends_at_the_total 1 simulatedConfig twoPending
           Simulated.boot stoppedAfterTheFirst).
  - reflexivity.
  - reflexivity.
Defined.

(** In that run the runner has finished; the second record is still
    pending, and two records of two are counted. *)
Example stopped_run_leaves_a_record_pending :
  let sv1 := Simulated.run stoppedAfterTheFirst simulatedStartedTwo in
  Simulated.place <$> Simulated.tasks sv1 !! 0 = Some Simulated.Finished
  /\ map (fun l => Simulated.status (Simulated.objects sv1 l)) [0; 1]
     = ["completed"; "pending"]
  /\ Simulated.processedCount (Simulated.processingState sv1) = 2
  /\ Simulated.totalCount (Simulated.processingState sv1) = 2.
Proof. vm_compute. repeat split; reflexivity. Qed.

(** ** The logs over a run *)

Lemma simulated_addLog_bounded now msg ty s :
  length (Simulated.logs (Simulated.addLog now msg ty s)) <= 100.
Proof.
  unfold Simulated.addLog. destruct (100 <? _) eqn:E; simpl.
  - rewrite lastN_length. lia.
  - apply Nat.ltb_ge in E. exact E.
Qed.

Lemma simulated_resume_bounded now success s h t :
  length (Simulated.logs s) <= 100 ->
  length (Simulated.logs
            (fst (fst (Simulated.simulateAptraProcessing now success (s, h, t))))) <= 100.
Proof.
  intros H. simulated_paths; auto; unfold Simulated.release; simpl;
    apply simulated_addLog_bounded.
Qed.

Lemma simulated_step_bounded sv e :
  length (Simulated.logs (Simulated.processingState sv)) <= 100 ->
  length (Simulated.logs (Simulated.processingState (Simulated.step sv e))) <= 100.
Proof.
  intros H. destruct e as [now [r | k success]]; simpl.
  - destruct r as [u | cfg rs | | | |]; simpl; try exact H.
    + unfold Simulated.upload_. destruct u as [| msg | jsonData]; simpl; try exact H;
        [apply simulated_addLog_bounded |].
      destruct (Simulated.processedData jsonData); simpl; apply simulated_addLog_bounded.
    + unfold Simulated.process.
      destruct (Simulated.isProcessing _); [exact H |].
      destruct (_ || _); [exact H |]. cbv zeta. cbn [snd Simulated.processingState].
      apply simulated_addLog_bounded.
    + apply simulated_addLog_bounded.
  - unfold Simulated.resumeTask.
    destruct (Simulated.tasks sv !! k) as [t |]; [| exact H].
    pose proof (simulated_resume_bounded now success (Simulated.processingState sv)
                  (Simulated.objects sv) t H) as H'.
    destruct (Simulated.simulateAptraProcessing _ _ _) as [[s' h'] t']. exact H'.
Qed.

Section LogGrows.

Variable world : list Atleos.call -> Atleos.call -> Atleos.response.
Variable formatDate : cell -> string.

Lemma prefix_snoc (l l' : list log_entry) x : l `prefix_of` l' -> l `prefix_of` l' ++ [x].
Proof. intros H. etransitivity; [exact H | now apply prefix_app_r]. Qed.

Lemma keeps_log {A} P (m : Atleos.driver A) c :
  keeps P m -> Atleos.log c `prefix_of` Atleos.log (snd (m c)).
Proof.
  intros H. destruct (H c) as (_ & _ & [said Hs] & _). rewrite Hs.
  now apply prefix_app_r.
Qed.

Lemma finally_log f :
  Atleos.logs (fst (fst (Atleos.finally f))) = Atleos.logs (fst (fst f)).
Proof. destruct f as [[s h] t]. unfold Atleos.finally. now destruct (Atleos.its_browser t). Qed.

Lemma fatal_log now msg s h t :
  Atleos.logs s `prefix_of` Atleos.logs (fst (fst (Atleos.fatal now msg (s, h, t)))).
Proof. unfold Atleos.fatal. rewrite finally_log. simpl. now apply prefix_app_r. Qed.

Lemma iteration_log now i s h t :
  Atleos.logs s `prefix_of` Atleos.logs (fst (fst (Atleos.iteration now i (s, h, t)))).
Proof.
  unfold Atleos.iteration. destruct (Atleos.records s !! i).
  - simpl. now apply prefix_app_r.
  - rewrite finally_log. simpl. now apply prefix_app_r.
Qed.

Lemma endOfBody_log now i s h t :
  Atleos.logs s `prefix_of` Atleos.logs (fst (fst (Atleos.endOfBody now i (s, h, t)))).
Proof.
  unfold Atleos.endOfBody.
  exact (iteration_log now (S i)
           (Atleos.with_processedRecords (S (Atleos.processedRecords s)) s) h t).
Qed.

Lemma created_log now i l ok s h t :
  Atleos.logs s `prefix_of` Atleos.logs (fst (fst (Atleos.created now i l ok (s, h, t)))).
Proof.
  unfold Atleos.created.
  assert (H1 : Atleos.logs s `prefix_of`
               Atleos.logs (if ok
                            then Atleos.addLog now
                                   ("✅ Registro " +:+
                                    text_of (Atleos.idNCR
                                      ((if ok
                                        then Atleos.update h l (Atleos.with_status "completed")
                                        else Atleos.update
                                               (Atleos.update h l (Atleos.with_status "error"))
                                               l (Atleos.with_error "Error creando incidente"))
                                         l))
                                    +:+ " procesado exitosamente") "success" s
                            else s))
    by (destruct ok; simpl; [now apply prefix_app_r | reflexivity]).
  cbv zeta.
  destruct (Atleos.delayOf (Atleos.its_config t)) as [d |];
    [destruct (S i <? _) |];
    try (etransitivity; [exact H1 | apply endOfBody_log]).
  simpl. etransitivity; [exact H1 |]. now apply prefix_app_r.
Qed.

Lemma atleos_resume_log now s h t :
  Atleos.logs s
  `prefix_of` Atleos.logs (fst (fst (Atleos.processRecords world formatDate now (s, h, t)))).
Proof.
  unfold Atleos.processRecords.
  destruct (Atleos.place t) as [| | i l | i l | i l | |] eqn:Ep;
    rewrite ?atleos_invoke_eq; cbv zeta.
  - match goal with |- context [Atleos.initialize world ?c] =>
      pose proof (proj2 (proj2 (proj2 (initialize_script world c)))) as Hlog;
      destruct (Atleos.initialize world c) as [[e | []] c'] end;
      cbn [fst snd] in *; simpl in Hlog.
    + etransitivity; [| apply fatal_log]. simpl. rewrite Hlog. now apply prefix_app_r.
    + simpl. rewrite Hlog. now apply prefix_app_r.
  - match goal with |- context [Atleos.login world ?cred ?c] =>
      pose proof (keeps_log _ _ c (login_keeps world cred)) as Hlog;
      destruct (Atleos.login world cred c) as [[e | [|]] c'] end;
      cbn [fst snd] in *; simpl in Hlog.
    + etransitivity; [| apply fatal_log]. exact Hlog.
    + etransitivity; [| apply iteration_log]. exact Hlog.
    + etransitivity; [| apply fatal_log]. exact Hlog.
  - match goal with |- context [Atleos.searchAndSelectATM world ?idn ?c] =>
      pose proof (keeps_log _ _ c (search_keeps world idn)) as Hlog;
      destruct (Atleos.searchAndSelectATM world idn c) as [[e | [|]] c'] end;
      cbn [fst snd] in *; simpl in Hlog.
    + unfold Atleos.caught. etransitivity; [| apply endOfBody_log]. simpl.
      now apply prefix_snoc.
    + exact Hlog.
    + unfold Atleos.notFound. etransitivity; [| apply iteration_log]. exact Hlog.
  - match goal with |- context [Atleos.createIncident world formatDate ?r ?c] =>
      pose proof (keeps_log _ _ c (createIncident_keeps world formatDate r)) as Hlog;
      destruct (Atleos.createIncident world formatDate r c) as [[e | ok] c'] end;
      cbn [fst snd] in *; simpl in Hlog.
    + unfold Atleos.caught. etransitivity; [| apply endOfBody_log]. simpl.
      now apply prefix_snoc.
    + etransitivity; [| apply created_log]. exact Hlog.
  - apply endOfBody_log.
  - unfold Atleos.close. simpl. destruct (Atleos.its_browser t); simpl;
      [now apply prefix_app_r | reflexivity].
  - reflexivity.
Qed.

Lemma atleos_step_log sv e :
  atleosKeepsLog e = true ->
  Atleos.logs (Atleos.currentProcessing sv)
  `prefix_of` Atleos.logs (Atleos.currentProcessing (Atleos.step world formatDate sv e)).
Proof.
  destruct e as [now [r | k]]; unfold atleosKeepsLog; simpl; intros He.
  - destruct r as [u | body | | | | |]; simpl; try reflexivity; try discriminate.
    + destruct u; try discriminate; simpl; [reflexivity | now apply prefix_app_r].
    + unfold Atleos.startProcessing.
      destruct (Atleos.isProcessing _); [reflexivity |].
      destruct (Atleos.body_credentials body); [| reflexivity].
      destruct (_ || _); [reflexivity |].
      destruct (_ =? 0); reflexivity.
    + now apply prefix_app_r.
  - unfold Atleos.resumeTask.
    destruct (Atleos.tasks sv !! k) as [t |]; [| reflexivity].
    pose proof (atleos_resume_log now (Atleos.currentProcessing sv)
                  (Atleos.objects sv) t) as H.
    destruct (Atleos.processRecords _ _ _ _) as [[s' h'] t']. exact H.
Qed.

End LogGrows.

(** X15: the logs over a run.  On the Puppeteer server the log only grows,
    whatever is resumed or requested, until a sheet is uploaded or the data
    are cleared: no entry is dropped or rewritten.  On the simulated server
    the log never holds more than 100 entries, in any state the server can
    reach. *)
Theorem logs_over_a_run :
  (forall world formatDate evs sv,
      forallb atleosKeepsLog evs = true ->
      Atleos.logs (Atleos.currentProcessing sv)
      `prefix_of` Atleos.logs (Atleos.currentProcessing
                                 (Atleos.run world formatDate evs sv)))
  /\ (forall evs,
      length (Simulated.logs (Simulated.processingState
                                (Simulated.run evs Simulated.boot))) <= 100).
Proof.
  split.
  - intros world formatDate evs. induction evs as [| e evs IH]; intros sv He.
    + reflexivity.
    + simpl in He. apply andb_true_iff in He as [He1 He2]. simpl.
      etransitivity; [apply (atleos_step_log world formatDate sv e He1) |].
      now apply IH.
  - intros evs.
    assert (H : forall sv,
               length (Simulated.logs (Simulated.processingState sv)) <= 100 ->
               length (Simulated.logs (Simulated.processingState (Simulated.run evs sv)))
               <= 100).
    { induction evs as [| e evs IH]; intros sv H; [exact H |].
      simpl. apply IH. now apply simulated_step_bounded. }
    apply H. simpl. lia.
Qed.

(** A batch run on the uploaded sheet keeps the entry of the upload first in
    the log. *)
Lemma upload_entry_stays_first :
  Atleos.logs (Atleos.currentProcessing (uploadedAndStarted None))
  `prefix_of` Atleos.logs (Atleos.currentProcessing
                             (Atleos.run allFound text_of (resumeTimes 9)
                                (uploadedAndStarted None))).
Proof.
  apply (proj1 logs_over_a_run allFound text_of (resumeTimes 9) (uploadedAndStarted None)).
  reflexivity.
Defined.

(** ** Stopping a simulated run *)




